(** * Synthetic SaaS funnel dataset generator: model and properties

    A shallow embedding of [src/generate_data.py].  The generator threads a
    pseudo-random source, the wall clock and three growing record lists
    (users, events, subscriptions) through one long sequential procedure; it
    is modelled as a state-and-failure monad over a [World].

    Conventions of the model:
    - a naive [datetime] is an integer count of microseconds, a [timedelta]
      likewise, so that all clock arithmetic is exact as in Python;
    - in the model of the loop, Python floats that hold probabilities and
      prices are exact rationals ([Q]) and [random.random()] returns
      [k / 2^53] for some [0 <= k < 2^53]: the loop only compares a
      probability with a draw, and what is proved of it holds on both
      outcomes of every comparison;
    - the values of the probability helpers themselves are IEEE binary64
      numbers; the module [Binary64] embeds the helpers that do arithmetic
      over Rocq's primitive floats, operation by operation as CPython
      evaluates them, and their properties are stated there;
    - every read of the environment ([random], [numpy.random], [uuid.uuid4],
      [datetime.now]) consumes one integer of the [entropy] tape and decodes
      it into the range of the call; an exhausted tape reads as zeros;
    - a [KeyError], [IndexError] or [ValueError] is the failure of the monad;
      the range limits of [datetime] (years 1 to 9999) are not modelled.

    The file first gives the model, then the vocabulary in which the
    properties are stated, then the lemmas, the properties themselves and a
    few concrete runs. *)

From Stdlib Require Import ZArith QArith Qabs Qminmax Lqa List Sorted FinFun String Ascii Bool Lia.
From Stdlib Require Floats.
Import ListNotations.

Local Open Scope string_scope.
Local Open Scope list_scope.
Local Open Scope Z_scope.

(** String concatenation, as Python's [+] on [str] and f-strings. *)
Infix "+++" := String.append (right associativity, at level 60).

(* ------------------------------------------------------------------ *)
(** ** Time *)

Definition datetime := Z.

Definition us_per_minute : Z := 60000000.
Definition us_per_hour : Z := 3600000000.
Definition us_per_day : Z := 86400000000.

(** [timedelta(days=d, hours=h, minutes=m)] *)
Definition timedelta (d h m : Z) : Z :=
  d * us_per_day + h * us_per_hour + m * us_per_minute.

Definition minutes (m : Z) : Z := timedelta 0 0 m.
Definition hours (h : Z) : Z := timedelta 0 h 0.
Definition days (d : Z) : Z := timedelta d 0 0.

(** The [.days] attribute of a normalised [timedelta] (floor division). *)
Definition td_days (delta : Z) : Z := delta / us_per_day.

(* ------------------------------------------------------------------ *)
(** ** Records *)

Record User := mkUser {
  user_id : Z;
  signup_ts : datetime;
  acquisition_channel : string;
  device : string;
  country : string;
  company_size : string;
  persona : string;
  is_b2b_email : bool
}.

Record Event := mkEvent {
  event_id : string;
  ev_user_id : Z;
  event_ts : datetime;
  session_id : string;
  event_name : string;
  page : string;
  referrer : string;
  event_properties : string
}.

Record Subscription := mkSubscription {
  sub_user_id : Z;
  plan : string;
  mrr : Q;
  trial_start_ts : string;
  subscription_start_ts : datetime;
  churn_ts : option datetime
}.

(** Values stored in an event's property bag. *)
Inductive PyVal :=
| PyInt (n : Z)
| PyStr (s : string).

Definition Props := list (string * PyVal).

(* ------------------------------------------------------------------ *)
(** ** Configuration and distributions *)

Definition NUM_USERS : Z := 20000.
Definition DAYS_LOOKBACK : Z := 90.

Definition CHANNELS : list (string * Q) :=
  [("organic", 0.30%Q); ("paid_search", 0.20%Q); ("paid_social", 0.25%Q);
   ("partner", 0.15%Q); ("referral", 0.10%Q)].

Definition DEVICES : list (string * Q) := [("web", 0.70%Q); ("mobile", 0.30%Q)].

Definition COUNTRIES : list (string * Q) :=
  [("US", 0.40%Q); ("IN", 0.25%Q); ("UK", 0.15%Q); ("CA", 0.10%Q);
   ("AU", 0.10%Q)].

Definition COMPANY_SIZES : list (string * Q) :=
  [("solo", 0.35%Q); ("2-10", 0.30%Q); ("11-50", 0.20%Q); ("51-200", 0.15%Q)].

Definition PERSONAS : list string := ["maker"; "startup_ops"; "analyst"; "agency"].

Definition BROWSING_EVENTS : list string :=
  ["landing_page_view"; "pricing_view"; "case_study_view"; "docs_view";
   "faq_view"].

Definition PRODUCT_EVENTS : list string :=
  ["dashboard_view"; "settings_view"; "project_view"; "task_create";
   "task_update"; "search"].

Definition INTEGRATIONS : list string := ["slack"; "google_drive"; "github"].

Definition PAYMENT_ERROR_CODES : list string :=
  ["PMT_001"; "PMT_002"; "PMT_003"; "PMT_NET"; "PMT_3DS"].

(* ------------------------------------------------------------------ *)
(** ** Python builtins used by the generator *)

Definition Qltb (x y : Q) : bool := negb (Qle_bool y x).

(** [min(a, b)] returns [b] only when [b < a]; [max(a, b)] returns [b] only
    when [b > a]. *)
Definition py_min (a b : Q) : Q := if Qltb b a then b else a.
Definition py_max (a b : Q) : Q := if Qltb a b then b else a.

(** A dictionary literal indexed by a key: [None] stands for [KeyError]. *)
Fixpoint dict_get {V : Type} (d : list (string * V)) (k : string) : option V :=
  match d with
  | [] => None
  | (k', v) :: d' => if String.eqb k k' then Some v else dict_get d' k
  end.

(** [x in [...]] on strings. *)
Definition str_in (x : string) (l : list string) : bool :=
  existsb (String.eqb x) l.

Definition range (lo hi : Z) : list Z :=
  map (fun i => lo + Z.of_nat i) (seq 0 (Z.to_nat (hi - lo))).

Definition digit_char (n : Z) : ascii :=
  nth (Z.to_nat n) (list_ascii_of_string "0123456789abcdef") "0"%char.

Fixpoint str_nat_aux (fuel : nat) (n : Z) (acc : string) : string :=
  let acc' := String (digit_char (n mod 10)) acc in
  match fuel with
  | O => acc'
  | S fuel' => if n <? 10 then acc' else str_nat_aux fuel' (n / 10) acc'
  end.

(** [str(n)] for an integer. *)
Definition str_int (n : Z) : string :=
  if n <? 0 then "-" +++ str_nat_aux (Z.to_nat (Z.log2 (- n))) (- n) ""
  else str_nat_aux (Z.to_nat (Z.log2 n)) n "".

(** [n] rendered as exactly [w] lower-case hexadecimal digits. *)
Fixpoint hex_fixed (w : nat) (n : Z) : string :=
  match w with
  | O => ""
  | S w' => hex_fixed w' (n / 16) +++ String (digit_char (n mod 16)) ""
  end.

Definition squote : ascii := ascii_of_nat 39.
Definition dquote : ascii := ascii_of_nat 34.

Definition repr_str (s : string) : string :=
  String squote (s +++ String squote "").

Definition repr_val (v : PyVal) : string :=
  match v with
  | PyInt n => str_int n
  | PyStr s => repr_str s
  end.

Fixpoint str_items (d : Props) : string :=
  match d with
  | [] => ""
  | [(k, v)] => repr_str k +++ ": " +++ repr_val v
  | (k, v) :: d' => repr_str k +++ ": " +++ repr_val v +++ ", " +++ str_items d'
  end.

(** [str(d)] for a dictionary. *)
Definition str_dict (d : Props) : string := "{" +++ str_items d +++ "}".

(** [s.replace(a, b)] for single characters. *)
Fixpoint replace_char (a b : ascii) (s : string) : string :=
  match s with
  | EmptyString => EmptyString
  | String c s' =>
      String (if Ascii.eqb c a then b else c) (replace_char a b s')
  end.

(** [o or ""] *)
Definition or_empty (o : option string) : string :=
  match o with
  | Some s => s
  | None => ""
  end.

(* ------------------------------------------------------------------ *)
(** ** Conditional-probability helpers *)

Definition clamp01 (x : Q) : Q := py_max 0.0%Q (py_min 1.0%Q x).

Definition onboarding_start_probability (channel : string) : option Q :=
  dict_get
    [("organic", 0.88%Q); ("referral", 0.90%Q); ("paid_search", 0.85%Q);
     ("partner", 0.82%Q); ("paid_social", 0.78%Q)] channel.

Definition activation_base : list (string * Q) :=
  [("organic", 0.52%Q); ("referral", 0.58%Q); ("paid_search", 0.42%Q);
   ("partner", 0.38%Q); ("paid_social", 0.28%Q)].

Definition activation_probability
  (channel device persona company_size : string) : option Q :=
  match dict_get activation_base channel with
  | None => None
  | Some base =>
      let base := if String.eqb device "mobile" then (base - 0.05)%Q else base in
      let base :=
        if str_in persona ["maker"; "agency"] then (base + 0.03)%Q
        else if String.eqb persona "analyst" then (base + 0.01)%Q
        else base in
      let base :=
        if str_in company_size ["51-200"] then (base - 0.02)%Q else base in
      Some (clamp01 base)
  end.

Definition value_moment_probability (persona : string) : option Q :=
  dict_get
    [("maker", 0.35%Q); ("startup_ops", 0.45%Q); ("analyst", 0.30%Q);
     ("agency", 0.50%Q)] persona.

Definition trial_probability (activated : bool) (channel : string) : Q :=
  let base := if activated then 0.62%Q else 0.07%Q in
  let base :=
    if str_in channel ["referral"; "organic"] then (base + 0.03)%Q else base in
  let base :=
    if String.eqb channel "paid_social" then (base - 0.02)%Q else base in
  clamp01 base.

Definition payment_failure_probability (device country : string) : Q :=
  let base := if String.eqb device "web" then 0.045%Q else 0.12%Q in
  let base := if String.eqb country "IN" then (base + 0.04)%Q else base in
  clamp01 base.

Definition trial_to_paid_probability
  (activated : bool) (channel company_size : string) : Q :=
  let base := if activated then 0.42%Q else 0.06%Q in
  let base :=
    if String.eqb channel "referral" then (base + 0.05)%Q
    else if String.eqb channel "organic" then (base + 0.03)%Q
    else if String.eqb channel "paid_social" then (base - 0.05)%Q
    else base in
  let base :=
    if str_in company_size ["11-50"; "51-200"] then (base + 0.04)%Q else base in
  clamp01 base.

Definition pick_plan (company_size : string) : string * Z :=
  if String.eqb company_size "solo" then ("starter", 29)
  else if str_in company_size ["2-10"; "11-50"] then ("pro", 79)
  else ("business", 199).

Definition churn_probability (plan : string) : option Q :=
  dict_get [("starter", 0.30%Q); ("pro", 0.18%Q); ("business", 0.10%Q)] plan.

(* ------------------------------------------------------------------ *)
(** ** The helpers in double precision *)

(** The helpers that add and subtract, over binary64 numbers: a decimal
    literal of the source is the nearest double, and every [+=] and [-=] is
    one correctly rounded operation, in the order of the source. *)
Module Binary64.
Import Floats.
Local Open Scope float_scope.
Local Set Warnings "-inexact-float".

(** [min(a, b)] returns [b] only when [b < a]; [max(a, b)] returns [b] only
    when [b > a]; both comparisons are false on a NaN. *)
Definition py_min (a b : float) : float := if b <? a then b else a.
Definition py_max (a b : float) : float := if a <? b then b else a.

Definition clamp01 (x : float) : float := py_max 0.0 (py_min 1.0 x).

Definition activation_base : list (string * float) :=
  [("organic", 0.52); ("referral", 0.58); ("paid_search", 0.42);
   ("partner", 0.38); ("paid_social", 0.28)].

Definition activation_probability
  (channel device persona company_size : string) : option float :=
  match dict_get activation_base channel with
  | None => None
  | Some base =>
      let base := if String.eqb device "mobile" then base - 0.05 else base in
      let base :=
        if str_in persona ["maker"; "agency"] then base + 0.03
        else if String.eqb persona "analyst" then base + 0.01
        else base in
      let base :=
        if str_in company_size ["51-200"] then base - 0.02 else base in
      Some (clamp01 base)
  end.

Definition trial_probability (activated : bool) (channel : string) : float :=
  let base := if activated then 0.62 else 0.07 in
  let base :=
    if str_in channel ["referral"; "organic"] then base + 0.03 else base in
  let base :=
    if String.eqb channel "paid_social" then base - 0.02 else base in
  clamp01 base.

Definition payment_failure_probability (device country : string) : float :=
  let base := if String.eqb device "web" then 0.045 else 0.12 in
  let base := if String.eqb country "IN" then base + 0.04 else base in
  clamp01 base.

Definition trial_to_paid_probability
  (activated : bool) (channel company_size : string) : float :=
  let base := if activated then 0.42 else 0.06 in
  let base :=
    if String.eqb channel "referral" then base + 0.05
    else if String.eqb channel "organic" then base + 0.03
    else if String.eqb channel "paid_social" then base - 0.05
    else base in
  let base :=
    if str_in company_size ["11-50"; "51-200"] then base + 0.04 else base in
  clamp01 base.

(** The rational number a finite double stands for, exactly. *)
Definition value (x : float) : Q :=
  match Prim2SF x with
  | S754_finite s m e =>
      ((if s then -1 else 1) * inject_Z (Zpos m) * Qpower 2 e)%Q
  | _ => 0%Q
  end.

(** The double a decimal literal [n / d] denotes: the nearest one, which is
    the correctly rounded quotient of the two integers. *)
Definition literal (q : Q) : float :=
  let m :=
    of_uint63 (Uint63.of_Z (Z.abs (Qnum q))) /
    of_uint63 (Uint63.of_Z (Zpos (Qden q))) in
  if (Qnum q <? 0)%Z then - m else m.

(** [near x q]: the double [x] is within [10^-15] of the rational [q]. *)
Definition near (x : float) (q : Q) : Prop :=
  (Qabs (value x - q) <= 1 # 1000000000000000)%Q.

(** [x] adjusted by [d] when [c] holds. *)
Definition adjusted (x : float) (c : bool) (d : Q) : float :=
  if c then x + literal d else x.

(** A clamp to the unit interval, case by case. *)
Definition spec_clamp (x : float) : float :=
  if x <? 0.0 then 0.0 else if 1.0 <? x then 1.0 else x.

End Binary64.

(* ------------------------------------------------------------------ *)
(** ** The world and its monad *)

Record World := mkWorld {
  entropy : list Z;
  users : list User;
  events : list Event;
  subscriptions : list Subscription
}.

Definition M (A : Type) : Type := World -> option (A * World).

Definition ret {A} (a : A) : M A := fun w => Some (a, w).

Definition bind {A B} (c : M A) (k : A -> M B) : M B :=
  fun w =>
    match c w with
    | Some (a, w') => k a w'
    | None => None
    end.

Definition fail {A} : M A := fun _ => None.

Definition lift {A} (o : option A) : M A :=
  match o with
  | Some a => ret a
  | None => fail
  end.

Declare Scope py_scope.
Delimit Scope py_scope with py.
Notation "x <- c1 ;; c2" := (bind c1 (fun x => c2))
  (at level 100, c1 at next level, right associativity) : py_scope.
Notation "c1 ;; c2" := (bind c1 (fun _ => c2))
  (at level 100, right associativity) : py_scope.
Local Open Scope py_scope.

(** One read of the environment. *)
Definition draw : M Z :=
  fun w =>
    match entropy w with
    | [] => Some (0, w)
    | x :: rest =>
        Some (x, mkWorld rest (users w) (events w) (subscriptions w))
    end.

Definition append_user (u : User) : M unit :=
  fun w =>
    Some (tt, mkWorld (entropy w) (users w ++ [u]) (events w) (subscriptions w)).

Definition append_event (e : Event) : M unit :=
  fun w =>
    Some (tt, mkWorld (entropy w) (users w) (events w ++ [e]) (subscriptions w)).

Definition append_subscription (s : Subscription) : M unit :=
  fun w =>
    Some (tt, mkWorld (entropy w) (users w) (events w) (subscriptions w ++ [s])).

(** Control flow of a [for] body: fall through to the next iteration, or
    [break]. *)
Inductive Flow := Continue | Break.

(** [for x in xs: body], with the loop-carried variables [v]. *)
Fixpoint for_in {X V : Type} (xs : list X) (body : X -> V -> M (Flow * V))
  (v : V) : M V :=
  match xs with
  | [] => ret v
  | x :: xs' =>
      r <- body x v ;;
      match fst r with
      | Continue => for_in xs' body (snd r)
      | Break => ret (snd r)
      end
  end.

(* ------------------------------------------------------------------ *)
(** ** Sources of randomness and time *)

Definition two53 : positive := 9007199254740992.

(** [random.random()] *)
Definition random_random : M Q :=
  x <- draw ;; ret (Qmake (x mod Zpos two53) two53).

(** [random.randint(a, b)]: an empty range raises [ValueError]. *)
Definition randint (a b : Z) : M Z :=
  if b <? a then fail
  else x <- draw ;; ret (a + x mod (b - a + 1)).

(** [random.choice(l)] *)
Definition random_choice {A} (l : list A) : M A :=
  x <- draw ;; lift (nth_error l (Z.to_nat (x mod Z.of_nat (List.length l)))).

Fixpoint cumsum (acc : Q) (p : list Q) : list Q :=
  match p with
  | [] => []
  | a :: p' => (acc + a)%Q :: cumsum (acc + a)%Q p'
  end.

Definition Qsum (p : list Q) : Q := fold_right Qplus 0%Q p.

(** [cdf.searchsorted(u, side='right')] on a sorted [cdf]. *)
Fixpoint searchsorted_right (cdf : list Q) (u : Q) : nat :=
  match cdf with
  | [] => O
  | c :: cdf' => if Qle_bool c u then S (searchsorted_right cdf' u) else O
  end.

(** What [np.random.choice] checks before it samples: as many weights as
    items, no negative weight, and weights that sum to one; anything else
    raises [ValueError]. *)
Definition choice_ok {A} (items : list A) (p : list Q) : bool :=
  Nat.eqb (List.length items) (List.length p) &&
  forallb (Qle_bool 0) p &&
  Qeq_bool (Qsum p) 1.

(** [np.random.choice(items, p=p)]: inverse-CDF sampling of one uniform
    draw. *)
Definition np_random_choice {A} (items : list A) (p : list Q) : M A :=
  if negb (choice_ok items p) then fail
  else
    u <- random_random ;;
    lift (nth_error items (searchsorted_right (cumsum 0 p) u)).

Definition weighted_choice (d : list (string * Q)) : M string :=
  np_random_choice (map fst d) (map snd d).

(** The integer of a version-4 UUID built from 16 random bytes. *)
Definition uuid4_int (x : Z) : Z :=
  let n := x mod 2 ^ 128 in
  let n := Z.land n (Z.lnot (Z.shiftl 49152 48)) in
  let n := Z.lor n (Z.shiftl 32768 48) in
  let n := Z.land n (Z.lnot (Z.shiftl 61440 64)) in
  Z.lor n (Z.shiftl 4 76).

(** [uuid.uuid4().hex] *)
Definition uuid4_hex : M string :=
  x <- draw ;; ret (hex_fixed 32 (uuid4_int x)).

(** [f"sess_{uuid.uuid4().hex[:10]}"] *)
Definition fresh_session_id : M string :=
  h <- uuid4_hex ;; ret ("sess_" +++ substring 0 10 h).

(** [datetime.now()] *)
Definition datetime_now : M datetime := draw.

Definition random_timestamp_within_last_n_days (n_days : Z) : M datetime :=
  now <- datetime_now ;;
  d <- randint 0 n_days ;;
  m <- randint 0 1440 ;;
  ret (now - timedelta d 0 m).

Definition generate_user (uid : Z) : M User :=
  ts <- random_timestamp_within_last_n_days DAYS_LOOKBACK ;;
  channel <- weighted_choice CHANNELS ;;
  dev <- weighted_choice DEVICES ;;
  ctry <- weighted_choice COUNTRIES ;;
  size <- weighted_choice COMPANY_SIZES ;;
  pers <- random_choice PERSONAS ;;
  r <- random_random ;;
  ret (mkUser uid ts channel dev ctry size pers (Qltb r 0.65%Q)).

Definition add_event (uid : Z) (ts : datetime) (name sid : string)
  (pg ref : option string) (props : option Props) : M unit :=
  h <- uuid4_hex ;;
  append_event
    (mkEvent ("evt_" +++ h) uid ts sid name (or_empty pg) (or_empty ref)
       (match props with
        | None | Some [] => "{}"
        | Some d => replace_char squote dquote (str_dict d)
        end)).

(* ------------------------------------------------------------------ *)
(** ** The journey of one user *)

(** The funnel flags that [generate_data] carries across a user's sessions. *)
Record Journey := mkJourney {
  activated : bool;
  value_moment : bool;
  trial_started : bool;
  subscribed : bool;
  js_subscription_start_ts : option datetime
}.

Definition journey_init : Journey := mkJourney false false false false None.

Definition set_activated (j : Journey) : Journey :=
  mkJourney true (value_moment j) (trial_started j) (subscribed j)
    (js_subscription_start_ts j).

Definition set_value_moment (j : Journey) : Journey :=
  mkJourney (activated j) true (trial_started j) (subscribed j)
    (js_subscription_start_ts j).

Definition set_trial_started (j : Journey) : Journey :=
  mkJourney (activated j) (value_moment j) true (subscribed j)
    (js_subscription_start_ts j).

Definition set_subscribed (j : Journey) (t : datetime) : Journey :=
  mkJourney (activated j) (value_moment j) (trial_started j) true (Some t).

(** The per-session clock [t] together with the funnel flags. *)
Definition Clocked : Type := datetime * Journey.

Definition page_map : list (string * string) :=
  [("landing_page_view", "/"); ("pricing_view", "/pricing");
   ("case_study_view", "/customers"); ("docs_view", "/docs");
   ("faq_view", "/faq")].

(** [t += timedelta(minutes=random.randint(a, b))] *)
Definition advance (a b : Z) (t : datetime) : M datetime :=
  dt <- randint a b ;; ret (t + minutes dt).

(** The referrer hint of a session. *)
Definition pick_referrer (channel : string) : M string :=
  if str_in channel ["paid_social"] then
    np_random_choice ["linkedin"; "instagram"; "facebook"]
      [0.55%Q; 0.25%Q; 0.20%Q]
  else if str_in channel ["paid_search"; "organic"] then ret "google"
  else if String.eqb channel "partner" then ret "partner_site"
  else ret "direct".

(** Browsing noise (1-4 events). *)
Definition browsing_noise (u : User) (sid ref : string) (t : datetime)
  : M datetime :=
  browse_count <- np_random_choice [1; 2; 3; 4] [0.35%Q; 0.35%Q; 0.20%Q; 0.10%Q] ;;
  for_in (range 0 browse_count)
    (fun _ t =>
       ev <- random_choice BROWSING_EVENTS ;;
       add_event (user_id u) t ev sid
         (Some (match dict_get page_map ev with Some p => p | None => "" end))
         (Some ref) None ;;
       t <- advance 1 20 t ;;
       ret (Continue, t))
    t.

(** Signup, e-mail verification and onboarding: first session only. *)
Definition signup_flow (u : User) (sid ref : string) (t : datetime)
  : M datetime :=
  add_event (user_id u) t "signup" sid (Some "/signup") (Some ref) None ;;
  t <- advance 1 30 t ;;
  r <- random_random ;;
  t <- (if Qltb r 0.78%Q then
          add_event (user_id u) t "email_verified" sid (Some "/verify") None None ;;
          advance 1 30 t
        else ret t) ;;
  r <- random_random ;;
  p <- lift (onboarding_start_probability (acquisition_channel u)) ;;
  if Qltb r p then
    add_event (user_id u) t "onboarding_start" sid (Some "/onboarding") None None ;;
    t <- advance 2 60 t ;;
    r <- random_random ;;
    if Qltb r 0.70%Q then
      add_event (user_id u) t "onboarding_complete" sid
        (Some "/onboarding/done") None None ;;
      advance 2 30 t
    else ret t
  else ret t.

(** The value moment that sometimes follows activation. *)
Definition value_moment_step (u : User) (sid : string) (c : Clocked)
  : M Clocked :=
  let '(t, j) := c in
  r <- random_random ;;
  p <- lift (value_moment_probability (persona u)) ;;
  if Qltb r p then
    r <- random_random ;;
    (if Qltb r 0.55%Q then
       n <- np_random_choice [1; 2; 3] [0.55%Q; 0.30%Q; 0.15%Q] ;;
       add_event (user_id u) t "invite_teammate" sid (Some "/app/invite") None
         (Some [("invite_count", PyInt n)])
     else
       integ <- random_choice INTEGRATIONS ;;
       add_event (user_id u) t "connect_integration" sid
         (Some "/app/integrations") None (Some [("integration", PyStr integ)])) ;;
    t <- advance 2 45 t ;;
    ret (t, set_value_moment j)
  else ret (t, j).

(** Try to activate if not already activated. *)
Definition try_activate (u : User) (sid : string) (c : Clocked) : M Clocked :=
  let '(t, j) := c in
  if negb (activated j) then
    r <- random_random ;;
    p <- lift (activation_probability (acquisition_channel u) (device u)
                 (persona u) (company_size u)) ;;
    if Qltb r p then
      add_event (user_id u) t "create_first_project" sid
        (Some "/app/new_project") None None ;;
      t <- advance 2 40 t ;;
      let j := set_activated j in
      n <- np_random_choice [1; 2; 3; 4] [0.20%Q; 0.35%Q; 0.30%Q; 0.15%Q] ;;
      t <- for_in (range 0 n)
             (fun _ t =>
                pe <- random_choice PRODUCT_EVENTS ;;
                add_event (user_id u) t pe sid (Some "/app") None None ;;
                t <- advance 1 25 t ;;
                ret (Continue, t))
             t ;;
      value_moment_step u sid (t, j)
    else ret (t, j)
  else ret (t, j).

(** One pass of the checkout loop, for the loop index [attempt]. *)
Definition checkout_attempt (u : User) (sid : string) (attempt : Z)
  (c : Clocked) : M (Flow * Clocked) :=
  let '(t, j) := c in
  add_event (user_id u) t "checkout_start" sid (Some "/checkout") None
    (Some [("attempt", PyInt (attempt + 1))]) ;;
  t <- advance 1 10 t ;;
  r <- random_random ;;
  if Qltb r (payment_failure_probability (device u) (country u)) then
    code <- random_choice PAYMENT_ERROR_CODES ;;
    add_event (user_id u) t "payment_failed" sid (Some "/checkout") None
      (Some [("error_code", PyStr code)]) ;;
    t <- advance 3 25 t ;;
    r <- random_random ;;
    if Qltb r 0.65%Q then ret (Break, (t, j)) else ret (Continue, (t, j))
  else
    j <- (if negb (subscribed j) then
            r <- random_random ;;
            if Qltb r (trial_to_paid_probability (activated j)
                         (acquisition_channel u) (company_size u))
            then
              add_event (user_id u) t "subscription_created" sid
                (Some "/checkout/success") None None ;;
              ret (set_subscribed j t)
            else ret j
          else ret j) ;;
    t <- advance 1 15 t ;;
    ret (Break, (t, j)).

(** Trial start attempt (once), followed by the checkout loop. *)
Definition try_trial (u : User) (sid : string) (c : Clocked) : M Clocked :=
  let '(t, j) := c in
  if negb (trial_started j) then
    r <- random_random ;;
    if Qltb r (trial_probability (activated j) (acquisition_channel u)) then
      add_event (user_id u) t "trial_start" sid (Some "/app/billing") None None ;;
      t <- advance 1 30 t ;;
      let j := set_trial_started j in
      checkout_attempts <- np_random_choice [1; 2; 3] [0.70%Q; 0.22%Q; 0.08%Q] ;;
      for_in (range 0 checkout_attempts) (checkout_attempt u sid) (t, j)
    else ret (t, j)
  else ret (t, j).

(** Retention proxy event at the end of a session. *)
Definition retention_proxy (u : User) (sid : string) (c : Clocked)
  : M Clocked :=
  let '(t, j) := c in
  if activated j then
    r <- random_random ;;
    if Qltb r (if negb (subscribed j) then 0.40%Q else 0.55%Q) then
      add_event (user_id u) t "dashboard_view" sid (Some "/app") None None ;;
      t <- advance 1 20 t ;;
      ret (t, j)
    else ret (t, j)
  else ret (t, j).

(** Where a session starts: an offset from the baseline [t0]. *)
Definition session_start_time (t0 : datetime) : M datetime :=
  session_gap_hours <-
    np_random_choice [0; 1; 3; 8; 24; 48]
      [0.20%Q; 0.20%Q; 0.20%Q; 0.15%Q; 0.18%Q; 0.07%Q] ;;
  jitter <- randint 0 120 ;;
  ret (t0 + hours session_gap_hours + minutes jitter).

(** The events of one session, from its start time and identifier on. *)
Definition session_events (u : User) (s : Z) (sid ref : string)
  (session_start : datetime) (j : Journey) : M Clocked :=
  t <- browsing_noise u sid ref session_start ;;
  t <- (if s =? 0 then signup_flow u sid ref t else ret t) ;;
  c <- try_activate u sid (t, j) ;;
  c <- try_trial u sid c ;;
  retention_proxy u sid c.

(** The body of the session loop; [t0] is the session start baseline. *)
Definition session_body (u : User) (t0 : datetime) (s : Z) (j : Journey)
  : M (Flow * Journey) :=
  session_start <- session_start_time t0 ;;
  sid <- fresh_session_id ;;
  ref <- pick_referrer (acquisition_channel u) ;;
  c <- session_events u s sid ref session_start j ;;
  ret (Continue, snd c).

(** The number of sessions of a user. *)
Definition draw_sessions : M Z :=
  np_random_choice [1; 2; 3; 4; 5] [0.45%Q; 0.28%Q; 0.16%Q; 0.08%Q; 0.03%Q].

(** The session loop of one user. *)
Definition journey (u : User) : M Journey :=
  sessions <- draw_sessions ;;
  let t0 := signup_ts u in
  for_in (range 0 sessions) (session_body u t0) journey_init.

(* ------------------------------------------------------------------ *)
(** ** After the sessions: subscription record, churn, retention markers *)

Definition CHURN_REASONS : list string :=
  ["price"; "low_value"; "unknown"; "competitor"].

(** The guard of a retention marker at [n] days. *)
Definition not_churned_before (n : Z) (churn : option datetime)
  (start : datetime) : bool :=
  match churn with
  | None => true
  | Some c => td_days (c - start) >=? n
  end.

Definition roll_churn (u : User) (plan_name : string) (start : datetime)
  : M (option datetime) :=
  r <- random_random ;;
  p <- lift (churn_probability plan_name) ;;
  if Qltb r p then
    d <- randint 30 75 ;;
    let churn := start + days d in
    sid <- fresh_session_id ;;
    reason <- random_choice CHURN_REASONS ;;
    add_event (user_id u) churn "cancel_subscription" sid
      (Some "/app/billing") None (Some [("reason", PyStr reason)]) ;;
    ret (Some churn)
  else ret None.

Definition retention_marker (u : User) (name : string) (n : Z) (p : Q)
  (churn : option datetime) (start : datetime) : M unit :=
  if not_churned_before n churn start then
    r <- random_random ;;
    if Qltb r p then
      sid <- fresh_session_id ;;
      add_event (user_id u) (start + days n) name sid (Some "/app") None None
    else ret tt
  else ret tt.

Definition resolve_subscribed (u : User) (start : datetime) : M unit :=
  let '(plan_name, price) := pick_plan (company_size u) in
  churn <- roll_churn u plan_name start ;;
  append_subscription
    (mkSubscription (user_id u) plan_name (inject_Z price) "" start churn) ;;
  retention_marker u "active_day_7" 7 0.60%Q churn start ;;
  retention_marker u "active_day_30" 30 0.45%Q churn start.

Definition resolve_unsubscribed (u : User) (j : Journey) : M unit :=
  if activated j then
    r <- random_random ;;
    if Qltb r 0.18%Q then
      m <- randint 0 600 ;;
      let t_ret := signup_ts u + timedelta 7 0 m in
      sid <- fresh_session_id ;;
      add_event (user_id u) t_ret "active_day_7" sid (Some "/app") None None
    else ret tt
  else ret tt.

(** [if subscribed and subscription_start_ts is not None: ... else: ...] *)
Definition resolve (u : User) (j : Journey) : M unit :=
  match (if subscribed j then js_subscription_start_ts j else None) with
  | Some start => resolve_subscribed u start
  | None => resolve_unsubscribed u j
  end.

(** One iteration of the user loop. *)
Definition simulate_user (uid : Z) : M unit :=
  u <- generate_user uid ;;
  append_user u ;;
  j <- journey u ;;
  resolve u j.

(** The user loop of [generate_data], up to the hand-over of the three
    record lists to pandas. *)
Definition generate_users (ids : list Z) : M unit :=
  for_in ids (fun uid _ => simulate_user uid ;; ret (Continue, tt)) tt.

Definition generate_data : M unit := generate_users (range 1 (NUM_USERS + 1)).

Definition empty_world (tape : list Z) : World := mkWorld tape [] [] [].

(* ------------------------------------------------------------------ *)
(** ** Vocabulary of the specifications *)

(** [Emits c R]: from every world, [c] returns normally; it leaves the users
    and the subscriptions alone, appends some events [evs] to the event log,
    and its result [a] satisfies [R a evs]. *)
Definition Emits {A} (c : M A) (R : A -> list Event -> Prop) : Prop :=
  forall w, exists a w' evs,
    c w = Some (a, w') /\
    users w' = users w /\
    subscriptions w' = subscriptions w /\
    events w' = events w ++ evs /\
    R a evs.

(** The names of the events that a session can emit. *)
Definition SESSION_EVENTS : list string :=
  BROWSING_EVENTS ++ PRODUCT_EVENTS ++
  ["signup"; "email_verified"; "onboarding_start"; "onboarding_complete";
   "create_first_project"; "invite_teammate"; "connect_integration";
   "trial_start"; "checkout_start"; "payment_failed"; "subscription_created"].

(** An event of user [uid], emitted within the session [sid]. *)
Definition InSession (uid : Z) (sid : string) (e : Event) : Prop :=
  ev_user_id e = uid /\ session_id e = sid /\
  str_in (event_name e) SESSION_EVENTS = true.

(** [Chrono uid sid lo evs hi]: the events [evs] belong to user [uid] and
    session [sid]; the first is stamped no earlier than [lo], each next one
    strictly later than the one before, and the clock ends at [hi], strictly
    after the last event. *)
Fixpoint Chrono (uid : Z) (sid : string) (lo : datetime) (evs : list Event)
  (hi : datetime) : Prop :=
  match evs with
  | [] => lo <= hi
  | e :: evs' =>
      InSession uid sid e /\ lo <= event_ts e /\
      Chrono uid sid (event_ts e + 1) evs' hi
  end.

(** [e] is an event called [n]. *)
Definition named (n : string) (e : Event) : bool := String.eqb (event_name e) n.

(** Timestamps of the [subscription_created] events of a log. *)
Definition created (evs : list Event) : list datetime :=
  map event_ts (filter (named "subscription_created") evs).

(** Property bags of the [checkout_start] events of a log. *)
Definition attempts (evs : list Event) : list string :=
  map event_properties (filter (named "checkout_start") evs).

(** Timestamps of the [cancel_subscription] events of a log. *)
Definition cancelled (evs : list Event) : list datetime :=
  map event_ts (filter (named "cancel_subscription") evs).

(** The stored property bag of the checkout attempt numbered [i]. *)
Definition attempt_props (i : Z) : string :=
  replace_char squote dquote (str_dict [("attempt", PyInt i)]).

(** Events that are neither a checkout attempt nor a subscription. *)
Definition quiet (evs : list Event) : bool :=
  forallb (fun e => negb (named "checkout_start" e) &&
                    negb (named "subscription_created" e)) evs.

(** In a sequence of event names, every [checkout_start] is either directly
    followed by [payment_failed] or is the last [checkout_start]. *)
Fixpoint settled (names : list string) : Prop :=
  match names with
  | [] => True
  | n :: rest =>
      (n = "checkout_start" ->
       hd_error rest = Some "payment_failed" \/ ~ In "checkout_start" rest) /\
      settled rest
  end.

(** How the subscription flags move along a stretch of the log. *)
Definition SubPart (j : Journey) (evs : list Event) (j' : Journey) : Prop :=
  if subscribed j then
    subscribed j' = true /\
    js_subscription_start_ts j' = js_subscription_start_ts j /\
    created evs = []
  else
    (subscribed j' = false /\
     js_subscription_start_ts j' = js_subscription_start_ts j /\
     created evs = []) \/
    (subscribed j' = true /\
     exists ts, js_subscription_start_ts j' = Some ts /\ created evs = [ts]).

(** How the trial flag moves along a stretch of the log. *)
Definition TrialPart (j : Journey) (evs : list Event) (j' : Journey) : Prop :=
  if trial_started j then trial_started j' = true /\ attempts evs = []
  else
    (trial_started j' = false /\ attempts evs = []) \/
    (trial_started j' = true /\
     exists k, 1 <= k <= 3 /\ attempts evs = map attempt_props (range 1 (1 + k))).

(** How the funnel flags move along a stretch of the log, and what the
    stretch holds of checkout attempts and subscriptions. *)
Definition Funnel (j : Journey) (evs : list Event) (j' : Journey) : Prop :=
  SubPart j evs j' /\ TrialPart j evs j' /\ settled (map event_name evs) /\
  (activated j = true -> activated j' = true).

(** A stretch of one session: the clock and the flags before and after. *)
Definition Step (uid : Z) (sid : string) (c : Clocked) (evs : list Event)
  (c' : Clocked) : Prop :=
  Chrono uid sid (fst c) evs (fst c') /\ Funnel (snd c) evs (snd c').

(** Browsing noise and usage noise neither start a checkout nor create a
    subscription; they only move the clock forward. *)
Definition Noise (uid : Z) (sid : string) (t : datetime) (evs : list Event)
  (t' : datetime) : Prop :=
  Chrono uid sid t evs t' /\ quiet evs = true.

(** The first event of a stretch is stamped with the clock it started at. *)
Definition StartsAt (t : datetime) (evs : list Event) : Prop :=
  exists e, evs = [e] /\ event_ts e = t.

(** The attributes of [u] come from the configured sets. *)
Definition valid_user (u : User) : bool :=
  str_in (acquisition_channel u) (map fst CHANNELS) &&
  str_in (persona u) PERSONAS &&
  str_in (device u) (map fst DEVICES) &&
  str_in (country u) (map fst COUNTRIES) &&
  str_in (company_size u) (map fst COMPANY_SIZES).

(** What one pass of the checkout loop may emit, by how it leaves. *)
Definition AttemptShape (f : Flow) (names : list string) : Prop :=
  match f with
  | Continue => names = ["checkout_start"; "payment_failed"]
  | Break =>
      names = ["checkout_start"; "payment_failed"] \/
      names = ["checkout_start"] \/
      names = ["checkout_start"; "subscription_created"]
  end.

(** What the log keeps of one session: the baseline its start was offset
    from, its start time, its identifier and its events. *)
Record SessionLog := mkSessionLog {
  sl_baseline : datetime;
  sl_start : datetime;
  sl_id : string;
  sl_events : list Event
}.

(** A session of user [u]: offset from the signup timestamp by at most 48
    hours and 120 minutes, its first event stamped with the session start. *)
Definition SessionOK (u : User) (l : SessionLog) : Prop :=
  sl_baseline l = signup_ts u /\
  sl_baseline l <= sl_start l <= sl_baseline l + hours 48 + minutes 120 /\
  (exists e rest, sl_events l = e :: rest /\ event_ts e = sl_start l) /\
  exists hi, Chrono (user_id u) (sl_id l) (sl_start l) (sl_events l) hi.

(** [session_run u t0 s j w l j' w']: from the world [w] and the flags [j],
    the pass [s] of the session loop with baseline [t0] draws the start time
    and the identifier recorded in [l], appends the events of [l] and ends
    in [w'] with the flags [j']. *)
Definition session_run (u : User) (t0 : datetime) (s : Z) (j : Journey)
  (w : World) (l : SessionLog) (j' : Journey) (w' : World) : Prop :=
  exists wa wb wc ref c,
    session_start_time t0 w = Some (sl_start l, wa) /\
    fresh_session_id wa = Some (sl_id l, wb) /\
    pick_referrer (acquisition_channel u) wb = Some (ref, wc) /\
    session_events u s (sl_id l) ref (sl_start l) j wc = Some (c, w') /\
    j' = snd c /\
    sl_baseline l = t0 /\
    events w' = events w ++ sl_events l.

(** The session loop over the indices [xs], one [session_run] after the
    other. *)
Fixpoint session_chain (u : User) (t0 : datetime) (xs : list Z) (j : Journey)
  (w : World) (logs : list SessionLog) (j' : Journey) (w' : World) : Prop :=
  match xs, logs with
  | [], [] => j' = j /\ w' = w
  | s :: xs', l :: logs' =>
      exists j1 w1,
        session_run u t0 s j w l j1 w1 /\
        session_chain u t0 xs' j1 w1 logs' j' w'
  | _, _ => False
  end.

(** The names of the events emitted after the sessions. *)
Definition MARKER_EVENTS : list string :=
  ["cancel_subscription"; "active_day_7"; "active_day_30"].

(** An event of user [uid] emitted after the sessions, stamped at or after
    [lo]. *)
Definition Marker (uid : Z) (lo : datetime) (e : Event) : Prop :=
  ev_user_id e = uid /\ lo <= event_ts e /\
  str_in (event_name e) MARKER_EVENTS = true.

(** A churn timestamp, when there is one, lies 30 to 75 whole days after the
    subscription start. *)
Definition ChurnOK (start : datetime) (churn : option datetime) : Prop :=
  match churn with
  | None => True
  | Some c => exists d, 30 <= d <= 75 /\ c = start + days d
  end.

(** An optional value as a list of at most one element. *)
Definition opt_list {A} (o : option A) : list A :=
  match o with
  | Some a => [a]
  | None => []
  end.

(** What one iteration of the user loop produced: the user, the funnel
    flags the session loop ended with, the sessions, the events emitted
    after the sessions, and the subscription records. *)
Record UserRun := mkUserRun {
  ur_user : User;
  ur_journey : Journey;
  ur_sessions : list SessionLog;
  ur_markers : list Event;
  ur_subs : list Subscription
}.

(** The events of a run, in emission order: sessions first, then markers. *)
Definition ur_session_events (r : UserRun) : list Event :=
  flat_map sl_events (ur_sessions r).

Definition ur_events (r : UserRun) : list Event :=
  ur_session_events r ++ ur_markers r.

(** [runs_as uid w r w']: from the world [w], the iteration for [uid] runs
    to completion and ends in [w']; [r] records what it did: the user that
    [generate_user] returned, the sessions of the session loop one by one,
    the flags the loop ended with, and the events and records that
    [resolve] appended. *)
Definition runs_as (uid : Z) (w : World) (r : UserRun) (w' : World) : Prop :=
  let u := ur_user r in
  exists w1 w2 n wn w3,
    generate_user uid w = Some (u, w1) /\
    append_user u w1 = Some (tt, w2) /\
    draw_sessions w2 = Some (n, wn) /\
    session_chain u (signup_ts u) (range 0 n) journey_init wn
      (ur_sessions r) (ur_journey r) w3 /\
    resolve u (ur_journey r) w3 = Some (tt, w') /\
    events w' = events w3 ++ ur_markers r /\
    subscriptions w' = subscriptions w3 ++ ur_subs r /\
    users w' = users w ++ [u] /\
    events w' = events w ++ ur_events r /\
    subscriptions w' = subscriptions w ++ ur_subs r.

(** The subscription the resolver owes to a journey, if any. *)
Definition owed_start (j : Journey) : option datetime :=
  if subscribed j then js_subscription_start_ts j else None.

(** What holds of every iteration of the user loop. *)
Definition UserRunOK (uid : Z) (r : UserRun) : Prop :=
  let u := ur_user r in
  user_id u = uid /\ valid_user u = true /\
  (1 <= List.length (ur_sessions r) <= 5)%nat /\
  Forall (SessionOK u) (ur_sessions r) /\
  Funnel journey_init (ur_session_events r) (ur_journey r) /\
  match owed_start (ur_journey r) with
  | Some start =>
      exists churn,
        ur_subs r =
          [mkSubscription (user_id u) (fst (pick_plan (company_size u)))
             (inject_Z (snd (pick_plan (company_size u)))) "" start churn] /\
        ChurnOK start churn /\
        cancelled (ur_markers r) = opt_list churn /\
        Forall (Marker (user_id u) start) (ur_markers r)
  | None =>
      ur_subs r = [] /\ cancelled (ur_markers r) = [] /\
      Forall (Marker (user_id u) (signup_ts u + days 7)) (ur_markers r)
  end.

(** The plan table as the specification words it: tier and monthly price
    by company size, and the fixed price of each tier. *)
Definition spec_plan_for_size (size : string) : option (string * Q) :=
  dict_get
    [("solo", ("starter", 29%Q)); ("2-10", ("pro", 79%Q));
     ("11-50", ("pro", 79%Q)); ("51-200", ("business", 199%Q))] size.

(** The fixed monthly price of a tier. *)
Definition spec_tier_price (tier : string) : option Q :=
  dict_get [("starter", 29%Q); ("pro", 79%Q); ("business", 199%Q)] tier.

(** The activation table as the specification words it: a base value by
    channel, the sum of the adjustments, and a clamp to the unit interval. *)
Definition spec_activation_base : list (string * Q) :=
  [("organic", 0.52%Q); ("paid_search", 0.42%Q); ("paid_social", 0.28%Q);
   ("partner", 0.38%Q); ("referral", 0.58%Q)].

Definition spec_activation_adjustment (device persona company_size : string)
  : Q :=
  ((if String.eqb device "mobile" then - 0.05 else 0) +
   (if String.eqb persona "maker" || String.eqb persona "agency"
    then 0.03 else 0) +
   (if String.eqb persona "analyst" then 0.01 else 0) +
   (if String.eqb company_size "51-200" then - 0.02 else 0))%Q.

Definition spec_clamp (x : Q) : Q := Qmax 0 (Qmin 1 x).

(** The same table evaluated as the program would: the base value as a
    double, adjusted one step after the other in the order the specification
    lists the adjustments, then clamped. *)
Definition spec_activation_double (base : Q)
  (device persona company_size : string) : PrimFloat.float :=
  let x := Binary64.literal base in
  let x := Binary64.adjusted x (String.eqb device "mobile") (- 0.05) in
  let x :=
    Binary64.adjusted x
      (String.eqb persona "maker" || String.eqb persona "agency") 0.03 in
  let x := Binary64.adjusted x (String.eqb persona "analyst") 0.01 in
  let x := Binary64.adjusted x (String.eqb company_size "51-200") (- 0.02) in
  Binary64.spec_clamp x.

(** A retention marker rolled with no eligibility guard. *)
Definition roll_marker (u : User) (name : string) (n : Z) (p : Q)
  (start : datetime) : M unit :=
  r <- random_random ;;
  if Qltb r p then
    sid <- fresh_session_id ;;
    add_event (user_id u) (start + days n) name sid (Some "/app") None None
  else ret tt.

(** The subscribed branch of the resolver with both guards taken out. *)
Definition resolve_subscribed_unguarded (u : User) (start : datetime) : M unit :=
  let '(plan_name, price) := pick_plan (company_size u) in
  churn <- roll_churn u plan_name start ;;
  append_subscription
    (mkSubscription (user_id u) plan_name (inject_Z price) "" start churn) ;;
  roll_marker u "active_day_7" 7 0.60%Q start ;;
  roll_marker u "active_day_30" 30 0.45%Q start.

(** [Before l x y]: [x] occurs in [l] at an earlier position than [y]. *)
Definition Before {A} (l : list A) (x y : A) : Prop :=
  exists a b c, l = a ++ x :: b ++ y :: c.

(** The events of a session carry its identifier and are stamped strictly
    later one after the other. *)
Definition SessionOrdered (l : SessionLog) : Prop :=
  Forall (fun e => session_id e = sl_id l) (sl_events l) /\
  StronglySorted Z.lt (map event_ts (sl_events l)).

(** [chain ids w runs w']: the user loop over [ids], started in [w], ends in
    [w'], and [runs] lists what each iteration appended. *)
Fixpoint chain (ids : list Z) (w : World) (runs : list UserRun) (w' : World)
  : Prop :=
  match ids, runs with
  | [], [] => w' = w
  | uid :: ids', r :: runs' =>
      exists w1, runs_as uid w r w1 /\ UserRunOK uid r /\ chain ids' w1 runs' w'
  | _, _ => False
  end.

(** The records of a user in the subscriptions table. *)
Definition records_of (uid : Z) (subs : list Subscription) : list Subscription :=
  filter (fun s => sub_user_id s =? uid) subs.

(** What a command appended to the event log and to the subscriptions,
    read off the worlds before and after it. *)
Definition emitted (w w' : World) : list Event :=
  skipn (List.length (events w)) (events w').

Definition recorded (w w' : World) : list Subscription :=
  skipn (List.length (subscriptions w)) (subscriptions w').

(** One pass of the session loop, as [session_body] runs it, returning the
    log of the pass beside the flags. *)
Definition session_log (u : User) (t0 : datetime) (s : Z) (j : Journey)
  : M (SessionLog * Journey) :=
  fun w =>
    match session_start_time t0 w with
    | Some (start, wa) =>
        match fresh_session_id wa with
        | Some (sid, wb) =>
            match pick_referrer (acquisition_channel u) wb with
            | Some (ref, wc) =>
                match session_events u s sid ref start j wc with
                | Some (c, w') =>
                    Some (mkSessionLog t0 start sid (emitted w w'), snd c, w')
                | None => None
                end
            | None => None
            end
        | None => None
        end
    | None => None
    end.

Fixpoint session_logs (u : User) (t0 : datetime) (xs : list Z) (j : Journey)
  (w : World) : option (list SessionLog * Journey * World) :=
  match xs with
  | [] => Some ([], j, w)
  | s :: xs' =>
      match session_log u t0 s j w with
      | Some (l, j1, w1) =>
          match session_logs u t0 xs' j1 w1 with
          | Some (logs, j', w') => Some (l :: logs, j', w')
          | None => None
          end
      | None => None
      end
  end.

(** One iteration of the user loop, as [simulate_user] runs it, returning
    what the iteration drew and appended. *)
Definition user_log (uid : Z) : M UserRun :=
  fun w =>
    match generate_user uid w with
    | Some (u, w1) =>
        match append_user u w1 with
        | Some (_, w2) =>
            match draw_sessions w2 with
            | Some (n, wn) =>
                match session_logs u (signup_ts u) (range 0 n) journey_init wn with
                | Some (logs, j, w3) =>
                    match resolve u j w3 with
                    | Some (_, w') =>
                        Some (mkUserRun u j logs (emitted w3 w') (recorded w3 w'),
                              w')
                    | None => None
                    end
                | None => None
                end
            | None => None
            end
        | None => None
        end
    | None => None
    end.

(** The user loop over [ids], returning the log of every iteration. *)
Fixpoint user_logs (ids : list Z) (w : World)
  : option (list UserRun * World) :=
  match ids with
  | [] => Some ([], w)
  | uid :: ids' =>
      match user_log uid w with
      | Some (r, w1) =>
          match user_logs ids' w1 with
          | Some (runs, w') => Some (r :: runs, w')
          | None => None
          end
      | None => None
      end
  end.

(** The session identifiers drawn during a run of the user loop, in the
    order of the draws: one per session, and one per event emitted after the
    sessions. *)
Definition ids_drawn (runs : list UserRun) : list string :=
  flat_map (fun r => map sl_id (ur_sessions r) ++ map session_id (ur_markers r))
    runs.

(** No string occurs twice. *)
Fixpoint distinct (l : list string) : bool :=
  match l with
  | [] => true
  | x :: l' => negb (str_in x l') && distinct l'
  end.

(** The stretches of the log that were stamped with one drawn identifier:
    every session, and every event after the sessions on its own. *)
Definition marker_block (e : Event) : SessionLog :=
  mkSessionLog (event_ts e) (event_ts e) (session_id e) [e].

Definition blocks (r : UserRun) : list SessionLog :=
  ur_sessions r ++ map marker_block (ur_markers r).

(** The largest tape entry read as a [random.random()] just below one. *)
Definition HI : Z := 9007199254740991.

(** A tape on which user 1 has two sessions, the first starting 48 hours
    after signup and the second at signup, with two different identifiers. *)
Definition tape_two_sessions : list Z :=
  [0; 0; 0; 0; 0; 0; 0; 0; 0; 4503599627370496; HI; 0;
   12345678901234567890123456789012345678; 0; 0; 1; 0; 2; 0; HI; HI; HI; HI;
   0; 0; 22345678901234567890123456789012345678; 0; 0; 3; 0; HI; HI].

(** The same tape with the second [uuid4] equal to the first. *)
Definition tape_same_id : list Z :=
  [0; 0; 0; 0; 0; 0; 0; 0; 0; 4503599627370496; HI; 0;
   12345678901234567890123456789012345678; 0; 0; 1; 0; 2; 0; HI; HI; HI; HI;
   0; 0; 12345678901234567890123456789012345678; 0; 0; 3; 0; HI; HI].

(* ------------------------------------------------------------------ *)
(** ** Vocabulary of the further properties *)

(** The three tiers with their monthly prices. *)
Definition PLANS : list (string * Z) :=
  [("starter", 29); ("pro", 79); ("business", 199)].

(** The characters of a string. *)
Definition chars (s : string) : list ascii := list_ascii_of_string s.

(** A lower-case hexadecimal digit. *)
Definition is_hex (c : ascii) : bool :=
  existsb (Ascii.eqb c) (chars "0123456789abcdef").

(** [s] is made of exactly [n] lower-case hexadecimal digits. *)
Definition hex_string (n : nat) (s : string) : Prop :=
  List.length (chars s) = n /\ forallb is_hex (chars s) = true.

(** A flag as 0 or 1. *)
Definition b2z (b : bool) : Z := if b then 1 else 0.

(** The number of events called [n] in a log, and the length of a log. *)
Definition count (n : string) (evs : list Event) : Z :=
  Z.of_nat (List.length (filter (named n) evs)).

Definition size (evs : list Event) : Z := Z.of_nat (List.length evs).

(** All the events of a log have their name in [names]. *)
Definition only (names : list string) (evs : list Event) : bool :=
  forallb (fun e => str_in (event_name e) names) evs.

(** The events that the one-off stages may still emit: at most 6 from the
    activation and at most 7 from the trial. *)
Definition budget (j : Journey) : Z :=
  (if activated j then 0 else 6) + (if trial_started j then 0 else 7).

(** The minutes by which the one-off stages may still advance the clock: at
    most 185 for the activation and at most 135 for the trial. *)
Definition tbudget (j : Journey) : Z :=
  (if activated j then 0 else 185) + (if trial_started j then 0 else 135).

(** [Tally k c j evs j']: the stretch [evs] holds [k] signups, its funnel
    milestones are exactly the flags that went up between [j] and [j'] (the
    value moment provided it was not flagged before the activation), its
    checkout events stay within what a trial allows, and it is at most [c]
    events long beyond what it took from the budget. *)
Definition Tally (k c : Z) (j : Journey) (evs : list Event) (j' : Journey)
  : Prop :=
  count "signup" evs = k /\
  count "email_verified" evs <= k /\
  count "onboarding_start" evs <= k /\
  count "onboarding_complete" evs <= count "onboarding_start" evs /\
  count "create_first_project" evs = b2z (activated j') - b2z (activated j) /\
  count "trial_start" evs = b2z (trial_started j') - b2z (trial_started j) /\
  count "subscription_created" evs = b2z (subscribed j') - b2z (subscribed j) /\
  count "trial_start" evs <= count "checkout_start" evs /\
  count "checkout_start" evs <= 3 * count "trial_start" evs /\
  count "subscription_created" evs + count "payment_failed" evs <=
    count "checkout_start" evs /\
  (b2z (value_moment j) <= b2z (activated j) ->
   count "invite_teammate" evs + count "connect_integration" evs =
     b2z (value_moment j') - b2z (value_moment j) /\
   b2z (value_moment j') <= b2z (activated j')) /\
  (b2z (subscribed j) <= b2z (trial_started j) ->
   b2z (subscribed j') <= b2z (trial_started j')) /\
  size evs + budget j' <= budget j + c.

(** [Span d c c']: between [c] and [c'] the clock advanced by at most [d]
    minutes beyond what it took from the time budget. *)
Definition Span (d : Z) (c c' : Clocked) : Prop :=
  fst c' - fst c + tbudget (snd c') * us_per_minute <=
  (tbudget (snd c) + d) * us_per_minute.

(** A run of [n] noise events drawn from [names], each followed by a clock
    increment of at most [m] minutes. *)
Definition NoiseRun (names : list string) (m n : Z) (t : datetime)
  (evs : list Event) (t' : datetime) : Prop :=
  only names evs = true /\ size evs = n /\ t' - t <= m * n * us_per_minute.

(** What [n] passes of the checkout loop may do: emit only checkout events,
    between one and [n] attempts when [n] is positive, each with at most
    one outcome event, touch no flag but the subscription, and advance the
    clock by at most 35 minutes a pass. *)
Definition CheckoutRun (n : Z) (c : Clocked) (evs : list Event)
  (c' : Clocked) : Prop :=
  let j := snd c in
  let j' := snd c' in
  only ["checkout_start"; "payment_failed"; "subscription_created"] evs = true /\
  (0 < n -> 1 <= count "checkout_start" evs) /\
  count "checkout_start" evs <= n /\
  count "subscription_created" evs + count "payment_failed" evs <=
    count "checkout_start" evs /\
  count "subscription_created" evs = b2z (subscribed j') - b2z (subscribed j) /\
  activated j' = activated j /\ value_moment j' = value_moment j /\
  trial_started j' = trial_started j /\
  size evs <= 2 * n /\
  fst c' - fst c <= 35 * n * us_per_minute.

(** The funnel flags are consistent: a value moment only after activation. *)
Definition flags_ok (j : Journey) : Prop :=
  value_moment j = true -> activated j = true.

(** The number of first passes among the indices of a session loop. *)
Definition first_passes (xs : list Z) : Z :=
  Z.of_nat (List.length (filter (Z.eqb 0) xs)).

(** An event as the analyst sees it: its name and its timestamp. *)
Definition view (e : Event) : string * datetime := (event_name e, event_ts e).

(** The events and records that [resolve] may append for the user [u]
    after a journey that ended with the flags [j]. *)
Definition MarkersOK (u : User) (j : Journey) (post : list Event)
  (subs : list Subscription) : Prop :=
  match owed_start j with
  | Some start =>
      exists churn (b7 b30 : bool),
        subs =
          [mkSubscription (user_id u) (fst (pick_plan (company_size u)))
             (inject_Z (snd (pick_plan (company_size u)))) "" start churn] /\
        map view post =
          match churn with
          | Some c => [("cancel_subscription", c)]
          | None => []
          end ++
          (if b7 then [("active_day_7", start + days 7)] else []) ++
          (if b30 then [("active_day_30", start + days 30)] else [])
  | None =>
      subs = [] /\
      (post = [] \/
       activated j = true /\
       exists e, post = [e] /\ event_name e = "active_day_7" /\
                 signup_ts u + days 7 <= event_ts e <=
                 signup_ts u + days 7 + minutes 600)
  end.

(** A session as the log shows it: it opens on a browsing event stamped
    with the session start, and its clock stops at most 570 minutes after
    the start. *)
Definition SessionSpan (u : User) (l : SessionLog) : Prop :=
  (exists e rest,
      sl_events l = e :: rest /\ event_ts e = sl_start l /\
      In (event_name e) BROWSING_EVENTS) /\
  exists hi,
    Chrono (user_id u) (sl_id l) (sl_start l) (sl_events l) hi /\
    hi <= sl_start l + minutes 570.

(** What the log of one iteration of the user loop adds up to. *)
Definition UserLedger (r : UserRun) : Prop :=
  let n := Z.of_nat (List.length (ur_sessions r)) in
  valid_user (ur_user r) = true /\
  1 <= n <= 5 /\
  Tally 1 (5 * n + 4) journey_init (ur_session_events r) (ur_journey r) /\
  flags_ok (ur_journey r) /\
  n + 1 <= size (ur_session_events r) /\
  Forall (SessionSpan (ur_user r)) (ur_sessions r) /\
  MarkersOK (ur_user r) (ur_journey r) (ur_markers r) (ur_subs r).

(** The counts of one iteration of the user loop, over all the events and
    records it appends; [n] is the number of its sessions. *)
Definition UserTotals (r : UserRun) : Prop :=
  let evs := ur_events r in
  let j := ur_journey r in
  let n := Z.of_nat (List.length (ur_sessions r)) in
  1 <= n <= 5 /\
  count "signup" evs = 1 /\
  count "email_verified" evs <= 1 /\
  count "onboarding_start" evs <= 1 /\
  count "onboarding_complete" evs <= count "onboarding_start" evs /\
  count "create_first_project" evs = b2z (activated j) /\
  count "invite_teammate" evs + count "connect_integration" evs =
    b2z (value_moment j) /\
  count "trial_start" evs = b2z (trial_started j) /\
  count "subscription_created" evs = b2z (subscribed j) /\
  b2z (value_moment j) <= b2z (activated j) /\
  b2z (subscribed j) <= b2z (trial_started j) /\
  count "trial_start" evs <= count "checkout_start" evs /\
  count "checkout_start" evs <= 3 * count "trial_start" evs /\
  count "subscription_created" evs + count "payment_failed" evs <=
    count "checkout_start" evs /\
  Z.of_nat (List.length (ur_subs r)) = b2z (subscribed j) /\
  count "cancel_subscription" evs <= b2z (subscribed j) /\
  count "active_day_30" evs <= b2z (subscribed j) /\
  count "active_day_7" evs <= 1 /\
  count "active_day_7" evs <= b2z (activated j) + b2z (subscribed j) /\
  n + 1 <= size evs /\
  size evs <= 5 * n + 20.

(* ------------------------------------------------------------------ *)
(** ** Specifications of commands *)

Lemma Emits_ret {A} (a : A) (R : A -> list Event -> Prop) :
  R a [] -> Emits (ret a) R.
Proof.
  intros H w. exists a, w, []. rewrite app_nil_r. auto.
Qed.

Lemma Emits_bind {A B} (c : M A) (k : A -> M B) R1 (R : B -> list Event -> Prop) :
  Emits c R1 ->
  (forall a e1, R1 a e1 -> Emits (k a) (fun b e2 => R b (e1 ++ e2))) ->
  Emits (bind c k) R.
Proof.
  intros Hc Hk w.
  destruct (Hc w) as (a & w1 & e1 & Hrun & Hu & Hs & He & HR).
  destruct (Hk a e1 HR w1) as (b & w2 & e2 & Hrun2 & Hu2 & Hs2 & He2 & HR2).
  exists b, w2, (e1 ++ e2). unfold bind. rewrite Hrun.
  repeat split; try congruence.
  rewrite He2, He, app_assoc. reflexivity.
Qed.

Lemma Emits_mono {A} (c : M A) (R R' : A -> list Event -> Prop) :
  Emits c R -> (forall a e, R a e -> R' a e) -> Emits c R'.
Proof.
  intros Hc Himp w.
  destruct (Hc w) as (a & w1 & e1 & Hrun & Hu & Hs & He & HR).
  exists a, w1, e1. auto 6.
Qed.

(** A command that emits nothing, bound to a continuation. *)
Lemma Emits_bind_quiet {A B} (c : M A) (k : A -> M B) (P : A -> Prop)
  (R : B -> list Event -> Prop) :
  Emits c (fun a e => e = [] /\ P a) ->
  (forall a, P a -> Emits (k a) R) ->
  Emits (bind c k) R.
Proof.
  intros Hc Hk. eapply Emits_bind; [exact Hc|].
  intros a e1 [-> Ha]. simpl. eapply Emits_mono; [apply Hk, Ha|]. auto.
Qed.

Lemma draw_quiet : Emits draw (fun _ e => e = [] /\ True).
Proof.
  intros w. unfold draw.
  destruct (entropy w) as [|x rest].
  - exists 0, w, []. rewrite app_nil_r. auto 6.
  - eexists x, _, []. split; [reflexivity|]. simpl. rewrite app_nil_r. auto.
Qed.

Lemma random_random_quiet : Emits random_random (fun _ e => e = [] /\ True).
Proof.
  unfold random_random. eapply Emits_bind_quiet; [apply draw_quiet|].
  intros x _. apply Emits_ret. auto.
Qed.

Lemma random_random_range :
  Emits random_random (fun r e => e = [] /\ (0 <= r /\ r < 1)%Q).
Proof.
  unfold random_random. eapply Emits_bind_quiet; [apply draw_quiet|].
  intros x _. apply Emits_ret. split; [reflexivity|].
  pose proof (Z.mod_pos_bound x (Zpos two53) eq_refl) as Hb.
  unfold Qle, Qlt. simpl. lia.
Qed.

Lemma randint_quiet (a b : Z) :
  a <= b -> Emits (randint a b) (fun x e => e = [] /\ a <= x <= b).
Proof.
  intros Hab. unfold randint.
  destruct (Z.ltb_spec b a) as [Hlt|_]; [lia|].
  eapply Emits_bind_quiet; [apply draw_quiet|].
  intros x _. apply Emits_ret. split; [reflexivity|].
  pose proof (Z.mod_pos_bound x (b - a + 1)). lia.
Qed.

Lemma random_choice_quiet {A} (l : list A) :
  l <> [] -> Emits (random_choice l) (fun a e => e = [] /\ In a l).
Proof.
  intros Hl. unfold random_choice. eapply Emits_bind_quiet; [apply draw_quiet|].
  intros x _.
  assert (Hlen : 0 < Z.of_nat (List.length l)) by (destruct l; [congruence | simpl; lia]).
  pose proof (Z.mod_pos_bound x _ Hlen) as Hb.
  destruct (nth_error l (Z.to_nat (x mod Z.of_nat (List.length l)))) as [a|] eqn:E.
  - apply Emits_ret. split; [reflexivity|]. eapply nth_error_In, E.
  - apply nth_error_None in E. lia.
Qed.

Lemma searchsorted_right_lt (u : Q) (p : list Q) :
  forall acc, p <> [] -> (u < acc + Qsum p)%Q ->
  (searchsorted_right (cumsum acc p) u < List.length p)%nat.
Proof.
  induction p as [|a p IH]; intros acc Hne Hlt; [congruence|].
  simpl. destruct (Qle_bool (acc + a) u) eqn:E; [|lia].
  apply Qle_bool_iff in E.
  destruct p as [|b p].
  - simpl in Hlt. exfalso. lra.
  - apply -> Nat.succ_lt_mono. apply IH; [congruence|].
    change (Qsum (a :: b :: p)) with (a + Qsum (b :: p))%Q in Hlt. lra.
Qed.

Lemma np_random_choice_quiet {A} (items : list A) (p : list Q) :
  items <> [] ->
  choice_ok items p = true ->
  Emits (np_random_choice items p) (fun a e => e = [] /\ In a items).
Proof.
  intros Hne Hok. unfold np_random_choice. rewrite Hok. simpl.
  unfold choice_ok in Hok.
  apply andb_true_iff in Hok. destruct Hok as [Hok Hsum].
  apply andb_true_iff in Hok. destruct Hok as [Hlen _].
  apply Nat.eqb_eq in Hlen. apply Qeq_bool_iff in Hsum.
  eapply Emits_bind_quiet; [apply random_random_range|].
  intros u [_ Hu].
  assert (Hp : p <> []) by (destruct p; [destruct items; simpl in *; congruence | congruence]).
  pose proof (searchsorted_right_lt u p 0 Hp) as Hidx.
  destruct (nth_error items (searchsorted_right (cumsum 0 p) u)) as [a|] eqn:E.
  - apply Emits_ret. split; [reflexivity|]. eapply nth_error_In, E.
  - apply nth_error_None in E. exfalso.
    assert (u < 0 + Qsum p)%Q by lra. specialize (Hidx H). lia.
Qed.

Lemma fresh_session_id_quiet : Emits fresh_session_id (fun _ e => e = [] /\ True).
Proof.
  unfold fresh_session_id, uuid4_hex.
  apply (Emits_bind_quiet _ _ (fun _ => True)).
  - eapply Emits_bind_quiet; [apply draw_quiet|]. intros x _.
    apply Emits_ret. split; [reflexivity | exact I].
  - intros h _. apply Emits_ret. auto.
Qed.

Lemma add_event_emits uid ts name sid pg ref props :
  Emits (add_event uid ts name sid pg ref props)
    (fun _ e => exists eid pr,
         e = [mkEvent eid uid ts sid name (or_empty pg) (or_empty ref) pr] /\
         pr = match props with
              | None | Some [] => "{}"
              | Some d => replace_char squote dquote (str_dict d)
              end).
Proof.
  intros w. unfold add_event, uuid4_hex, bind, draw, ret, append_event.
  destruct (entropy w) as [|x rest]; simpl;
    eexists tt, _, _; (split; [reflexivity|]); simpl; eauto 8.
Qed.

(** An emitted event, bound to a continuation: the event is pushed in front
    of whatever the continuation emits. *)
Lemma Emits_bind_add_event {B} uid ts name sid pg ref props (k : unit -> M B)
  (R : B -> list Event -> Prop) :
  (forall eid,
      Emits (k tt)
        (fun b e =>
           R b (mkEvent eid uid ts sid name (or_empty pg) (or_empty ref)
                  (match props with
                   | None | Some [] => "{}"
                   | Some d => replace_char squote dquote (str_dict d)
                   end) :: e))) ->
  Emits (bind (add_event uid ts name sid pg ref props) k) R.
Proof.
  intros Hk. eapply Emits_bind; [apply add_event_emits|].
  intros [] e1 (eid & pr & -> & ->). simpl. apply Hk.
Qed.

Lemma advance_quiet (a b t : Z) :
  a <= b ->
  Emits (advance a b t)
    (fun t' e => e = [] /\ t + a * us_per_minute <= t' <= t + b * us_per_minute).
Proof.
  intros Hab. unfold advance. eapply Emits_bind_quiet; [apply randint_quiet, Hab|].
  intros dt Hdt. apply Emits_ret. split; [reflexivity|].
  cbv beta in Hdt.
  unfold minutes, timedelta, us_per_minute, us_per_hour, us_per_day. lia.
Qed.

Lemma bind_assoc {A B C} (c : M A) (k1 : A -> M B) (k2 : B -> M C) w :
  bind (bind c k1) k2 w = bind c (fun a => bind (k1 a) k2) w.
Proof.
  unfold bind. destruct (c w) as [[a w']|]; reflexivity.
Qed.

Lemma bind_run {A B} (c : M A) (k : A -> M B) w a w' :
  c w = Some (a, w') -> bind c k w = k a w'.
Proof.
  intros H. unfold bind. rewrite H. reflexivity.
Qed.

Lemma Emits_ext {A} (c c' : M A) (R : A -> list Event -> Prop) :
  (forall w, c w = c' w) -> Emits c' R -> Emits c R.
Proof.
  intros Heq H w. rewrite Heq. apply H.
Qed.

Lemma Emits_bind_assoc {A B C} (c : M A) (k1 : A -> M B) (k2 : B -> M C) R :
  Emits (bind c (fun a => bind (k1 a) k2)) R -> Emits (bind (bind c k1) k2) R.
Proof.
  apply Emits_ext. intros w. apply bind_assoc.
Qed.

Lemma Emits_ret_bind {A B} (a : A) (k : A -> M B) R :
  Emits (k a) R -> Emits (bind (ret a) k) R.
Proof.
  apply Emits_ext. reflexivity.
Qed.

(* ------------------------------------------------------------------ *)
(** ** What a stretch of the event log says *)

Section LogAlgebra.

Variables (uid : Z) (sid : string).

Lemma Chrono_lo_weaken evs : forall lo lo' hi,
  lo' <= lo -> Chrono uid sid lo evs hi -> Chrono uid sid lo' evs hi.
Proof.
  destruct evs as [|e evs]; simpl; intros lo lo' hi Hle H; [lia|].
  intuition lia.
Qed.

Lemma Chrono_le evs : forall lo hi, Chrono uid sid lo evs hi -> lo <= hi.
Proof.
  induction evs as [|e evs IH]; simpl; intros lo hi H; [lia|].
  destruct H as (_ & Hlo & H). apply IH in H. lia.
Qed.

Lemma Chrono_app e1 : forall e2 lo mid hi,
  Chrono uid sid lo e1 mid -> Chrono uid sid mid e2 hi ->
  Chrono uid sid lo (e1 ++ e2) hi.
Proof.
  induction e1 as [|e e1 IH]; simpl; intros e2 lo mid hi H1 H2.
  - eapply Chrono_lo_weaken; eassumption.
  - destruct H1 as (Hin & Hlo & H1). eauto.
Qed.

Lemma Chrono_Forall evs : forall lo hi,
  Chrono uid sid lo evs hi ->
  Forall (fun e => InSession uid sid e /\ lo <= event_ts e < hi) evs.
Proof.
  induction evs as [|e evs IH]; simpl; intros lo hi H; constructor.
  - destruct H as (Hin & Hlo & H). apply Chrono_le in H. auto with zarith.
  - destruct H as (Hin & Hlo & H). apply IH in H.
    eapply Forall_impl; [|exact H]. simpl. intuition lia.
Qed.

Lemma Chrono_increasing evs : forall lo hi,
  Chrono uid sid lo evs hi -> StronglySorted Z.lt (map event_ts evs).
Proof.
  induction evs as [|e evs IH]; simpl; intros lo hi H; constructor.
  - destruct H as (_ & _ & H). eapply IH, H.
  - destruct H as (_ & _ & H). apply Chrono_Forall in H.
    apply Forall_map. eapply Forall_impl; [|exact H]. simpl. intuition lia.
Qed.

End LogAlgebra.

Lemma created_app e1 e2 : created (e1 ++ e2) = created e1 ++ created e2.
Proof. unfold created. now rewrite filter_app, map_app. Qed.

Lemma attempts_app e1 e2 : attempts (e1 ++ e2) = attempts e1 ++ attempts e2.
Proof. unfold attempts. now rewrite filter_app, map_app. Qed.

Lemma cancelled_app e1 e2 : cancelled (e1 ++ e2) = cancelled e1 ++ cancelled e2.
Proof. unfold cancelled. now rewrite filter_app, map_app. Qed.

Lemma attempts_nil_names evs :
  attempts evs = [] -> ~ In "checkout_start" (map event_name evs).
Proof.
  unfold attempts, named. induction evs as [|e evs IH]; simpl; [tauto|].
  destruct (String.eqb_spec (event_name e) "checkout_start") as [E|E]; simpl.
  - discriminate.
  - intros H [H'|H']; [congruence | now apply IH].
Qed.

Lemma quiet_app e1 e2 : quiet (e1 ++ e2) = quiet e1 && quiet e2.
Proof. apply forallb_app. Qed.

Lemma quiet_created evs : quiet evs = true -> created evs = [].
Proof.
  unfold quiet, created. induction evs as [|e evs IH]; simpl; [reflexivity|].
  intros H. apply andb_true_iff in H. destruct H as [He H].
  apply andb_true_iff in He. destruct He as [_ He].
  apply negb_true_iff in He. rewrite He. auto.
Qed.

Lemma quiet_attempts evs : quiet evs = true -> attempts evs = [].
Proof.
  unfold quiet, attempts. induction evs as [|e evs IH]; simpl; [reflexivity|].
  intros H. apply andb_true_iff in H. destruct H as [He H].
  apply andb_true_iff in He. destruct He as [He _].
  apply negb_true_iff in He. rewrite He. auto.
Qed.

Lemma settled_no_checkout names : ~ In "checkout_start" names -> settled names.
Proof.
  induction names as [|n names IH]; simpl; [tauto|].
  intros H. split; [intros ->; tauto | apply IH; tauto].
Qed.

Lemma settled_app a : forall b,
  settled a -> settled b ->
  ~ In "checkout_start" a \/ ~ In "checkout_start" b ->
  settled (a ++ b).
Proof.
  induction a as [|n a IH]; simpl; intros b Ha Hb Hor; [exact Hb|].
  destruct Ha as [Hn Ha]. split.
  - intros ->. destruct Hor as [Hor|Hor]; [tauto|].
    destruct (Hn eq_refl) as [Hhd|Hno].
    + left. destruct a; simpl in *; congruence.
    + right. rewrite in_app_iff. tauto.
  - apply IH; tauto.
Qed.

Lemma SubPart_same j evs j' :
  created evs = [] ->
  subscribed j' = subscribed j ->
  js_subscription_start_ts j' = js_subscription_start_ts j ->
  SubPart j evs j'.
Proof.
  unfold SubPart. intros H H1 H2. rewrite H1, H2.
  destruct (subscribed j) eqn:E; auto.
Qed.

Lemma SubPart_trans j e1 j1 e2 j2 :
  SubPart j e1 j1 -> SubPart j1 e2 j2 -> SubPart j (e1 ++ e2) j2.
Proof.
  unfold SubPart. rewrite created_app.
  destruct (subscribed j) eqn:E.
  - intros (H1 & H2 & H3). rewrite H1. intros (H4 & H5 & H6).
    rewrite H3, H6. repeat split; congruence.
  - intros [(H1 & H2 & H3)|(H1 & ts & H2 & H3)]; rewrite H1.
    + intros [(H4 & H5 & H6)|(H4 & ts & H5 & H6)]; rewrite H3, H6.
      * left. repeat split; congruence.
      * right. split; [assumption|]. exists ts. auto.
    + intros (H4 & H5 & H6). rewrite H3, H6. right.
      split; [assumption|]. exists ts. split; [congruence | reflexivity].
Qed.

Lemma TrialPart_same j evs j' :
  attempts evs = [] -> trial_started j' = trial_started j -> TrialPart j evs j'.
Proof.
  unfold TrialPart. intros H H1. rewrite H1.
  destruct (trial_started j) eqn:E; auto.
Qed.

Lemma TrialPart_trans j e1 j1 e2 j2 :
  TrialPart j e1 j1 -> TrialPart j1 e2 j2 -> TrialPart j (e1 ++ e2) j2.
Proof.
  unfold TrialPart. rewrite attempts_app.
  destruct (trial_started j) eqn:E.
  - intros (H1 & H2). rewrite H1. intros (H4 & H5). rewrite H2, H5. auto.
  - intros [(H1 & H2)|(H1 & k & Hk & H2)]; rewrite H1.
    + intros [(H4 & H5)|(H4 & k & Hk & H5)]; rewrite H2, H5; simpl; eauto.
    + intros (H4 & H5). rewrite H2, H5, app_nil_r. eauto.
Qed.

Lemma TrialPart_once j e1 j1 e2 j2 :
  TrialPart j e1 j1 -> TrialPart j1 e2 j2 -> attempts e1 = [] \/ attempts e2 = [].
Proof.
  unfold TrialPart.
  destruct (trial_started j); [tauto|].
  intros [(H1 & H2)|(H1 & _)]; [tauto|]. rewrite H1. tauto.
Qed.

(** Quiet events, and flags that keep the subscription and trial state. *)
Lemma Funnel_quiet j evs j' :
  quiet evs = true ->
  subscribed j' = subscribed j ->
  js_subscription_start_ts j' = js_subscription_start_ts j ->
  trial_started j' = trial_started j ->
  (activated j = true -> activated j' = true) ->
  Funnel j evs j'.
Proof.
  intros H H1 H2 H3 H4. repeat split.
  - apply SubPart_same; [apply quiet_created, H | assumption..].
  - apply TrialPart_same; [apply quiet_attempts, H | assumption].
  - apply settled_no_checkout, attempts_nil_names, quiet_attempts, H.
  - exact H4.
Qed.

Lemma Funnel_trans j e1 j1 e2 j2 :
  Funnel j e1 j1 -> Funnel j1 e2 j2 -> Funnel j (e1 ++ e2) j2.
Proof.
  intros (S1 & T1 & D1 & A1) (S2 & T2 & D2 & A2). repeat split.
  - eapply SubPart_trans; eassumption.
  - eapply TrialPart_trans; eassumption.
  - rewrite map_app. apply settled_app; try assumption.
    destruct (TrialPart_once _ _ _ _ _ T1 T2) as [H|H];
      [left | right]; apply attempts_nil_names, H.
  - auto.
Qed.

Lemma Step_trans uid sid c e1 c1 e2 c2 :
  Step uid sid c e1 c1 -> Step uid sid c1 e2 c2 -> Step uid sid c (e1 ++ e2) c2.
Proof.
  intros [C1 F1] [C2 F2]. split.
  - eapply Chrono_app; eassumption.
  - eapply Funnel_trans; eassumption.
Qed.

(* ------------------------------------------------------------------ *)
(** ** Loops *)

Lemma range_cons lo hi : lo < hi -> range lo hi = lo :: range (lo + 1) hi.
Proof.
  intros H. unfold range.
  replace (Z.to_nat (hi - lo)) with (S (Z.to_nat (hi - (lo + 1)))) by lia.
  simpl. f_equal; [lia|].
  rewrite <- seq_shift, map_map. apply map_ext. intros i. lia.
Qed.

Lemma range_nil lo hi : hi <= lo -> range lo hi = [].
Proof.
  intros H. unfold range. replace (Z.to_nat (hi - lo)) with O by lia. reflexivity.
Qed.

Lemma range_length lo hi : lo <= hi -> Z.of_nat (List.length (range lo hi)) = hi - lo.
Proof.
  intros H. unfold range. rewrite length_map, length_seq. lia.
Qed.

Section ForIn.

Context {X V : Type}.
Variable body : X -> V -> M (Flow * V).
Variable Inv : V -> list Event -> V -> Prop.
Hypothesis Inv_refl : forall v, Inv v [] v.
Hypothesis Inv_trans : forall v1 e1 v2 e2 v3,
    Inv v1 e1 v2 -> Inv v2 e2 v3 -> Inv v1 (e1 ++ e2) v3.

(** A loop whose body keeps a reflexive, transitive relation between the
    loop-carried variables keeps it as a whole, with or without [break]. *)
Lemma Emits_for_in (xs : list X) :
  (forall x v, Emits (body x v) (fun r e => Inv v e (snd r))) ->
  forall v, Emits (for_in xs body v) (fun v' e => Inv v e v').
Proof.
  intros Hbody. induction xs as [|x xs IH]; intros v; simpl.
  - apply Emits_ret, Inv_refl.
  - eapply Emits_bind; [apply Hbody|].
    intros [f v1] e1 H1. simpl in *. destruct f.
    + eapply Emits_mono; [apply IH|]. intros v2 e2 H2. simpl.
      eapply Inv_trans; eassumption.
    + apply Emits_ret. rewrite app_nil_r. exact H1.
Qed.

(** The same, remembering what the first pass did. *)
Lemma Emits_for_in_first (First : V -> list Event -> Prop) (xs : list X) :
  xs <> [] ->
  (forall x v, Emits (body x v) (fun r e => Inv v e (snd r) /\ First v e)) ->
  forall v, Emits (for_in xs body v)
              (fun v' e => Inv v e v' /\
                           exists e1 e2, e = e1 ++ e2 /\ First v e1).
Proof.
  intros Hne Hbody v. destruct xs as [|x xs]; [congruence|]. simpl.
  eapply Emits_bind; [apply Hbody|].
  intros [f v1] e1 [H1 HF]. simpl in *. destruct f.
  - eapply Emits_mono.
    + apply Emits_for_in. intros y v'.
      eapply Emits_mono; [apply Hbody|]. simpl. tauto.
    + intros v2 e2 H2. simpl. split; [eapply Inv_trans; eassumption|].
      exists e1, e2. auto.
  - apply Emits_ret. split; [rewrite app_nil_r; exact H1|].
    exists e1, []. auto.
Qed.

End ForIn.

(* ------------------------------------------------------------------ *)
(** ** Symbolic execution of a stage *)

Ltac emit_step :=
  lazymatch goal with
  | |- Emits (bind (bind _ _) _) _ => apply Emits_bind_assoc
  | |- Emits (bind (ret _) _) _ => apply Emits_ret_bind
  | |- Emits (bind (add_event _ _ _ _ _ _ _) _) _ =>
      apply Emits_bind_add_event; intros ?eid
  | |- Emits (add_event _ _ _ _ _ _ _) _ =>
      eapply Emits_mono; [apply add_event_emits |
                          cbv beta; intros [] ? (?eid & ?pr & -> & ->)]
  | |- Emits (bind (advance _ _ _) _) _ =>
      eapply Emits_bind_quiet;
      [apply advance_quiet; lia | cbv beta; intros ?t ?Ht]
  | |- Emits (advance _ _ _) _ =>
      eapply Emits_mono;
      [apply advance_quiet; lia | cbv beta; intros ?t ? [-> ?Ht]]
  | |- Emits (bind (randint _ _) _) _ =>
      eapply Emits_bind_quiet;
      [apply randint_quiet; lia | cbv beta; intros ?n ?Hn]
  | |- Emits (bind random_random _) _ =>
      eapply Emits_bind_quiet;
      [apply random_random_quiet | cbv beta; intros ?r _]
  | |- Emits (bind fresh_session_id _) _ =>
      eapply Emits_bind_quiet;
      [apply fresh_session_id_quiet | cbv beta; intros ?sid _]
  | |- Emits (bind (random_choice _) _) _ =>
      eapply Emits_bind_quiet;
      [apply random_choice_quiet; discriminate | cbv beta; intros ?x ?Hx]
  | |- Emits (bind (np_random_choice _ _) _) _ =>
      eapply Emits_bind_quiet;
      [apply np_random_choice_quiet; [discriminate | reflexivity]
      | cbv beta; intros ?x ?Hx]
  | |- Emits (bind (if ?b then _ else _) _) _ => destruct b eqn:?
  | |- Emits (if ?b then _ else _) _ => destruct b eqn:?
  | |- Emits (ret _) _ => apply Emits_ret
  end.

Ltac emit_steps := repeat emit_step.

Ltac unfold_time :=
  unfold minutes, hours, days, timedelta, us_per_minute, us_per_hour,
    us_per_day in *.

(** Close the clock obligations of a concrete stretch of events. *)
Ltac chrono :=
  simpl; unfold_time; repeat split; try reflexivity; try lia.

(** Split an [In x [a; b; ...]] hypothesis into its cases. *)
Ltac in_cases H :=
  simpl in H;
  repeat (destruct H as [H|H]; [try subst|]); [..|contradiction].

Lemma Noise_refl uid sid t : Noise uid sid t [] t.
Proof. split; simpl; [lia | reflexivity]. Qed.

Lemma Noise_trans uid sid t1 e1 t2 e2 t3 :
  Noise uid sid t1 e1 t2 -> Noise uid sid t2 e2 t3 -> Noise uid sid t1 (e1 ++ e2) t3.
Proof.
  intros [C1 Q1] [C2 Q2]. split.
  - eapply Chrono_app; eassumption.
  - rewrite quiet_app, Q1, Q2. reflexivity.
Qed.

Lemma browsing_noise_spec u sid ref t :
  Emits (browsing_noise u sid ref t)
    (fun t' evs => Noise (user_id u) sid t evs t' /\
                   exists e rest, evs = e :: rest /\ event_ts e = t).
Proof.
  unfold browsing_noise. emit_step.
  eapply Emits_mono.
  - apply (Emits_for_in_first _ (Noise (user_id u) sid) (Noise_refl _ _)
             (Noise_trans _ _) StartsAt).
    + in_cases Hx; discriminate.
    + intros _ v. emit_steps. simpl.
      in_cases Hx0; (split; [split; [chrono | reflexivity] | eexists; eauto]).
  - cbv beta. intros t' evs (HN & e1 & e2 & -> & ev & -> & Hts).
    split; [exact HN|]. exists ev, e2. auto.
Qed.

(* ------------------------------------------------------------------ *)
(** ** Users whose attributes come from the configured sets *)

Lemma str_in_In x l : str_in x l = true <-> In x l.
Proof.
  unfold str_in. rewrite existsb_exists. split.
  - intros (y & Hy & E). apply String.eqb_eq in E. now subst.
  - intros H. exists x. split; [assumption | apply String.eqb_refl].
Qed.

Lemma onboarding_start_probability_total ch :
  str_in ch (map fst CHANNELS) = true ->
  exists p, onboarding_start_probability ch = Some p.
Proof.
  intros H. apply str_in_In in H. in_cases H; eexists; reflexivity.
Qed.

Lemma activation_probability_total ch dev pers size :
  str_in ch (map fst CHANNELS) = true ->
  exists p, activation_probability ch dev pers size = Some p.
Proof.
  intros H. apply str_in_In in H. unfold activation_probability.
  in_cases H; eexists; reflexivity.
Qed.

Lemma value_moment_probability_total pers :
  str_in pers PERSONAS = true ->
  exists p, value_moment_probability pers = Some p.
Proof.
  intros H. apply str_in_In in H. in_cases H; eexists; reflexivity.
Qed.

Lemma churn_probability_total size :
  exists p, churn_probability (fst (pick_plan size)) = Some p.
Proof.
  unfold pick_plan.
  destruct (String.eqb size "solo"); [eexists; reflexivity|].
  destruct (str_in size ["2-10"; "11-50"]); eexists; reflexivity.
Qed.

Lemma valid_user_channel u :
  valid_user u = true -> str_in (acquisition_channel u) (map fst CHANNELS) = true.
Proof. unfold valid_user. rewrite !andb_true_iff. tauto. Qed.

Lemma valid_user_persona u :
  valid_user u = true -> str_in (persona u) PERSONAS = true.
Proof. unfold valid_user. rewrite !andb_true_iff. tauto. Qed.

Lemma valid_user_company_size u :
  valid_user u = true -> str_in (company_size u) (map fst COMPANY_SIZES) = true.
Proof. unfold valid_user. rewrite !andb_true_iff. tauto. Qed.

Lemma Emits_bind_lift {A B} (o : option A) (a : A) (k : A -> M B) R :
  o = Some a -> Emits (k a) R -> Emits (bind (lift o) k) R.
Proof.
  intros -> H. apply Emits_ret_bind, H.
Qed.

(* ------------------------------------------------------------------ *)
(** ** The stages of a session *)

Section Stages.

Variable u : User.
Variable sid : string.
Hypothesis u_valid : valid_user u = true.

Lemma signup_flow_spec ref t :
  Emits (signup_flow u sid ref t)
    (fun t' evs => Noise (user_id u) sid t evs t').
Proof.
  destruct (onboarding_start_probability_total _ (valid_user_channel _ u_valid))
    as [p Hp].
  unfold signup_flow. emit_steps.
  all: eapply Emits_bind_lift; [exact Hp|].
  all: emit_steps.
  all: split; [chrono | reflexivity].
Qed.

Lemma usage_noise_spec (xs : list Z) t :
  Emits
    (for_in xs
       (fun _ t =>
          pe <- random_choice PRODUCT_EVENTS ;;
          add_event (user_id u) t pe sid (Some "/app") None None ;;
          t <- advance 1 25 t ;;
          ret (Continue, t)) t)
    (fun t' evs => Noise (user_id u) sid t evs t').
Proof.
  apply (Emits_for_in _ (Noise (user_id u) sid) (Noise_refl _ _)
           (Noise_trans _ _)).
  intros _ v. emit_steps. simpl.
  in_cases Hx; (split; [chrono | reflexivity]).
Qed.

Lemma value_moment_step_spec c :
  Emits (value_moment_step u sid c)
    (fun c' evs => Step (user_id u) sid c evs c').
Proof.
  destruct (value_moment_probability_total _ (valid_user_persona _ u_valid))
    as [p Hp].
  destruct c as [t j]. unfold value_moment_step. emit_step.
  eapply Emits_bind_lift; [exact Hp|].
  emit_steps.
  all: split; [chrono | apply Funnel_quiet; auto].
Qed.

Lemma Noise_Step t evs t' j :
  Noise (user_id u) sid t evs t' -> Step (user_id u) sid (t, j) evs (t', j).
Proof.
  intros [HC HQ]. split; [exact HC | apply Funnel_quiet; auto].
Qed.

Lemma Step_cons c e c1 evs c2 :
  Step (user_id u) sid c [e] c1 -> Step (user_id u) sid c1 evs c2 ->
  Step (user_id u) sid c (e :: evs) c2.
Proof.
  intros H1 H2. apply (Step_trans _ _ _ [e] c1 evs c2 H1 H2).
Qed.

Lemma try_activate_spec c :
  Emits (try_activate u sid c)
    (fun c' evs => Step (user_id u) sid c evs c').
Proof.
  destruct (activation_probability_total _ (device u) (persona u)
              (company_size u) (valid_user_channel _ u_valid)) as [p Hp].
  destruct c as [t j]. unfold try_activate.
  destruct (activated j) eqn:Hact; simpl negb; cbv iota.
  { apply Emits_ret. apply Noise_Step, Noise_refl. }
  emit_step. eapply Emits_bind_lift; [exact Hp|].
  emit_step; [|apply Emits_ret; apply Noise_Step, Noise_refl].
  emit_steps.
  eapply Emits_bind; [apply usage_noise_spec|].
  cbv beta. intros t1 e1 HN.
  eapply Emits_mono; [apply value_moment_step_spec|].
  cbv beta. intros c' e2 HS.
  apply Step_cons with (c1 := (t0, set_activated j)).
  - split; [chrono | apply Funnel_quiet; auto].
  - eapply Step_trans; [apply Noise_Step, HN | exact HS].
Qed.

Lemma checkout_attempt_spec i t j :
  Emits (checkout_attempt u sid i (t, j))
    (fun r evs =>
       Chrono (user_id u) sid t evs (fst (snd r)) /\
       SubPart j evs (snd (snd r)) /\
       trial_started (snd (snd r)) = trial_started j /\
       activated (snd (snd r)) = activated j /\
       attempts evs = [attempt_props (i + 1)] /\
       AttemptShape (fst r) (map event_name evs)).
Proof.
  unfold checkout_attempt.
  destruct (subscribed j) eqn:Hs; simpl negb; cbv iota; emit_steps.
  all: simpl; unfold SubPart, InSession; rewrite Hs.
  all: repeat match goal with |- _ /\ _ => split end.
  all: try reflexivity; try (unfold_time; lia); auto 6.
  right. split; [reflexivity|]. eexists. split; reflexivity.
Qed.

Lemma checkout_loop_spec (n : nat) : forall lo hi t j,
  lo <= hi -> Z.to_nat (hi - lo) = n ->
  Emits (for_in (range lo hi) (checkout_attempt u sid) (t, j))
    (fun c evs =>
       Chrono (user_id u) sid t evs (fst c) /\
       SubPart j evs (snd c) /\
       trial_started (snd c) = trial_started j /\
       activated (snd c) = activated j /\
       settled (map event_name evs) /\
       exists k, 0 <= k <= hi - lo /\ (lo < hi -> 1 <= k) /\
                 attempts evs = map attempt_props (range (lo + 1) (lo + 1 + k))).
Proof.
  induction n as [|n IH]; intros lo hi t j Hle Hn.
  - rewrite range_nil by lia. apply Emits_ret. simpl.
    repeat split; try lia; auto.
    + apply SubPart_same; reflexivity.
    + exists 0. rewrite range_nil by lia. repeat split; lia.
  - rewrite range_cons by lia. simpl for_in.
    eapply Emits_bind; [apply checkout_attempt_spec|].
    cbv beta. intros [f [t1 j1]] e1 (C1 & S1 & T1 & A1 & Hatt1 & Hshape).
    simpl in *. destruct f.
    + eapply Emits_mono; [apply (IH (lo + 1) hi t1 j1); lia|].
      cbv beta. intros [t2 j2] e2 (C2 & S2 & T2 & A2 & Hset & k & Hk & Hk1 & Hatt2).
      simpl in *. repeat split.
      * eapply Chrono_app; eassumption.
      * eapply SubPart_trans; eassumption.
      * congruence.
      * congruence.
      * rewrite map_app, Hshape. simpl. repeat split; auto.
        intros; discriminate.
      * exists (k + 1). repeat split; try lia.
        rewrite attempts_app, Hatt1, Hatt2.
        rewrite (range_cons (lo + 1)) by lia. simpl.
        do 3 f_equal. lia.
    + apply Emits_ret. rewrite app_nil_r. repeat split; auto.
      * destruct Hshape as [->|[->| ->]]; simpl; repeat split; intros;
          first [discriminate | left; reflexivity
                | right; simpl; intuition discriminate].
      * exists 1. repeat split; try lia.
        rewrite Hatt1, (range_cons (lo + 1)) by lia.
        rewrite range_nil by lia. reflexivity.
Qed.

Lemma try_trial_spec c :
  Emits (try_trial u sid c)
    (fun c' evs => Step (user_id u) sid c evs c').
Proof.
  destruct c as [t j]. unfold try_trial.
  destruct (trial_started j) eqn:Htr; simpl negb; cbv iota.
  { apply Emits_ret. apply Noise_Step, Noise_refl. }
  emit_step.
  emit_step; [|apply Emits_ret; apply Noise_Step, Noise_refl].
  emit_steps.
  assert (Hx' : 1 <= x <= 3) by (in_cases Hx; lia).
  eapply Emits_mono;
    [apply (checkout_loop_spec (Z.to_nat (x - 0)) 0 x); [lia | reflexivity]|].
  cbv beta. intros [t1 j1] evs (C & S & T & A & Hset & k & Hk & Hk1 & Hatt).
  simpl in *. split; simpl.
  - repeat split; try lia. eapply Chrono_lo_weaken; [|exact C].
    unfold_time. lia.
  - split; [|split; [|split]].
    + unfold SubPart, created in *. simpl in *. exact S.
    + unfold TrialPart. rewrite Htr. right. split; [exact T|].
      exists k. split; [lia|]. unfold attempts in *. simpl. exact Hatt.
    + simpl. split; [intros; discriminate | exact Hset].
    + congruence.
Qed.

Lemma retention_proxy_spec c :
  Emits (retention_proxy u sid c)
    (fun c' evs => Step (user_id u) sid c evs c').
Proof.
  destruct c as [t j]. unfold retention_proxy. emit_steps.
  all: split; [chrono | apply Funnel_quiet; auto].
Qed.

(** One session: its events carry the session identifier, start exactly at
    the session start and are stamped strictly later one after the other. *)
Lemma session_events_spec s ref start j :
  Emits (session_events u s sid ref start j)
    (fun c evs =>
       Step (user_id u) sid (start, j) evs c /\
       exists e rest, evs = e :: rest /\ event_ts e = start).
Proof.
  unfold session_events.
  eapply Emits_bind; [apply browsing_noise_spec|].
  cbv beta. intros t1 e1 (N1 & e & rest & -> & Hts).
  eapply Emits_bind with (R1 := fun t' evs => Noise (user_id u) sid t1 evs t').
  { destruct (s =? 0); [apply signup_flow_spec | apply Emits_ret, Noise_refl]. }
  cbv beta. intros t2 e2 N2.
  eapply Emits_bind; [apply try_activate_spec|].
  cbv beta. intros c3 e3 S3.
  eapply Emits_bind; [apply try_trial_spec|].
  cbv beta. intros c4 e4 S4.
  eapply Emits_mono; [apply retention_proxy_spec|].
  cbv beta. intros c5 e5 S5. split.
  - eapply Step_trans; [apply Noise_Step, N1|].
    eapply Step_trans; [apply Noise_Step, N2|].
    eapply Step_trans; [exact S3|].
    eapply Step_trans; eassumption.
  - exists e. eexists. split; [reflexivity | exact Hts].
Qed.

End Stages.

(* ------------------------------------------------------------------ *)
(** ** The session loop *)

Lemma session_start_time_spec t0 :
  Emits (session_start_time t0)
    (fun s e => e = [] /\ t0 <= s <= t0 + hours 48 + minutes 120).
Proof.
  unfold session_start_time. emit_steps. split; [reflexivity|].
  in_cases Hx; unfold_time; lia.
Qed.

Lemma pick_referrer_quiet ch : Emits (pick_referrer ch) (fun _ e => e = [] /\ True).
Proof.
  unfold pick_referrer. emit_steps; auto.
  eapply Emits_mono;
    [apply np_random_choice_quiet; [discriminate | reflexivity]|].
  cbv beta. tauto.
Qed.

Lemma Funnel_refl j : Funnel j [] j.
Proof. apply Funnel_quiet; auto. Qed.

Section Sessions.

Variable u : User.
Hypothesis u_valid : valid_user u = true.

Lemma session_run_exists s j w :
  exists l j1 w1,
    session_run u (signup_ts u) s j w l j1 w1 /\
    SessionOK u l /\ Funnel j (sl_events l) j1 /\
    users w1 = users w /\ subscriptions w1 = subscriptions w.
Proof.
  destruct (session_start_time_spec (signup_ts u) w)
    as (start & wa & ? & Hr1 & Hu1 & Hs1 & He1 & -> & Hstart).
  destruct (fresh_session_id_quiet wa)
    as (sid & wb & ? & Hr2 & Hu2 & Hs2 & He2 & -> & _).
  destruct (pick_referrer_quiet (acquisition_channel u) wb)
    as (ref & wc & ? & Hr3 & Hu3 & Hs3 & He3 & -> & _).
  destruct (session_events_spec u sid u_valid s ref start j wc)
    as (c & w1 & evs & Hr4 & Hu4 & Hs4 & He4 & [HC HF] & e & rest & Hevs & Hts).
  rewrite app_nil_r in He1, He2, He3. simpl in HC, HF.
  exists (mkSessionLog (signup_ts u) start sid evs), (snd c), w1.
  split; [|split; [|split; [|split]]].
  - exists wa, wb, wc, ref, c. simpl.
    repeat split; try assumption. congruence.
  - split; [reflexivity|]. split; [exact Hstart|]. simpl. split; eauto.
  - exact HF.
  - congruence.
  - congruence.
Qed.

Lemma session_chain_exists (xs : list Z) : forall j w,
  exists logs j' w',
    session_chain u (signup_ts u) xs j w logs j' w' /\
    List.length logs = List.length xs /\
    Forall (SessionOK u) logs /\
    Funnel j (flat_map sl_events logs) j' /\
    users w' = users w /\ subscriptions w' = subscriptions w.
Proof.
  induction xs as [|s xs IH]; intros j w.
  - exists [], j, w. simpl. repeat split; auto; apply Funnel_refl.
  - destruct (session_run_exists s j w) as (l & j1 & w1 & Hrun & Hl & HF1 & Hu1 & Hs1).
    destruct (IH j1 w1) as (logs & j' & w' & Hchain & Hlen & Hall & HF & Hu & Hs).
    exists (l :: logs), j', w'. simpl.
    split; [eauto|]. split; [congruence|]. split; [auto|].
    split; [eapply Funnel_trans; eassumption|]. split; congruence.
Qed.

End Sessions.

Lemma session_run_body u t0 s j w l j' w' :
  session_run u t0 s j w l j' w' ->
  session_body u t0 s j w = Some ((Continue, j'), w').
Proof.
  intros (wa & wb & wc & ref & c & H1 & H2 & H3 & H4 & -> & _).
  unfold session_body.
  rewrite (bind_run _ _ _ _ _ H1), (bind_run _ _ _ _ _ H2),
    (bind_run _ _ _ _ _ H3), (bind_run _ _ _ _ _ H4).
  reflexivity.
Qed.

Lemma session_chain_for_in u t0 xs : forall j w logs j' w',
  session_chain u t0 xs j w logs j' w' ->
  for_in xs (session_body u t0) j w = Some (j', w').
Proof.
  induction xs as [|s xs IH]; intros j w [|l logs] j' w' H; simpl in H;
    try contradiction.
  - destruct H as [-> ->]. reflexivity.
  - destruct H as (j1 & w1 & Hrun & Hchain).
    simpl for_in. rewrite (bind_run _ _ _ _ _ (session_run_body _ _ _ _ _ _ _ _ Hrun)).
    simpl. eapply IH, Hchain.
Qed.

Lemma session_chain_events u t0 xs : forall j w logs j' w',
  session_chain u t0 xs j w logs j' w' ->
  events w' = events w ++ flat_map sl_events logs.
Proof.
  induction xs as [|s xs IH]; intros j w [|l logs] j' w' H; simpl in H;
    try contradiction.
  - destruct H as [_ ->]. simpl. now rewrite app_nil_r.
  - destruct H as (j1 & w1 & Hrun & Hchain).
    destruct Hrun as (_ & _ & _ & _ & _ & _ & _ & _ & _ & _ & _ & He).
    rewrite (IH _ _ _ _ _ Hchain), He. simpl. now rewrite app_assoc.
Qed.

Lemma draw_sessions_spec :
  Emits draw_sessions (fun n e => e = [] /\ 1 <= n <= 5).
Proof.
  unfold draw_sessions. eapply Emits_mono;
    [apply np_random_choice_quiet; [discriminate | reflexivity]|].
  cbv beta. intros n e [-> Hn]. split; [reflexivity|]. in_cases Hn; lia.
Qed.

Lemma generate_user_spec uid :
  Emits (generate_user uid)
    (fun u e => e = [] /\ user_id u = uid /\ valid_user u = true).
Proof.
  unfold generate_user, random_timestamp_within_last_n_days, datetime_now,
    weighted_choice, DAYS_LOOKBACK.
  apply Emits_bind_assoc.
  eapply Emits_bind_quiet; [apply draw_quiet|]. cbv beta. intros now _.
  apply Emits_bind_assoc. emit_step.
  apply Emits_bind_assoc. emit_step.
  emit_steps. split; [reflexivity|]. split; [reflexivity|].
  unfold valid_user. cbn [acquisition_channel persona device country company_size].
  rewrite !andb_true_iff. repeat split; apply str_in_In; assumption.
Qed.

(* ------------------------------------------------------------------ *)
(** ** After the sessions *)

Lemma roll_churn_spec u plan_name start p :
  churn_probability plan_name = Some p ->
  Emits (roll_churn u plan_name start)
    (fun churn evs =>
       ChurnOK start churn /\ cancelled evs = opt_list churn /\
       Forall (Marker (user_id u) start) evs).
Proof.
  intros Hp. unfold roll_churn. emit_step.
  eapply Emits_bind_lift; [exact Hp|].
  emit_steps.
  - simpl. split; [exists n; auto|]. split; [reflexivity|].
    repeat constructor. simpl. unfold_time. lia.
  - simpl. auto.
Qed.

Lemma retention_marker_spec u name n p churn start :
  0 <= n -> In name ["active_day_7"; "active_day_30"] ->
  Emits (retention_marker u name n p churn start)
    (fun _ evs =>
       cancelled evs = [] /\ Forall (Marker (user_id u) start) evs /\
       (evs = [] \/
        exists e, evs = [e] /\ event_name e = name /\
                  event_ts e = start + days n)).
Proof.
  intros Hn Hname. unfold retention_marker. emit_steps; auto.
  in_cases Hname.
  all: split; [reflexivity|]; split; [|right; eexists; eauto].
  all: repeat constructor; simpl; unfold_time; lia.
Qed.

Lemma resolve_unsubscribed_spec u j :
  Emits (resolve_unsubscribed u j)
    (fun _ evs =>
       cancelled evs = [] /\ Forall (Marker (user_id u) (signup_ts u + days 7)) evs).
Proof.
  unfold resolve_unsubscribed. emit_steps; auto.
  split; [reflexivity|]. repeat constructor. simpl. unfold_time. lia.
Qed.

(** The subscribed branch of the resolver: exactly one record is appended,
    built from [pick_plan], the subscription start and the churn roll. *)
Lemma resolve_subscribed_spec u start w :
  exists w' churn post,
    resolve_subscribed u start w = Some (tt, w') /\
    users w' = users w /\
    subscriptions w' =
      subscriptions w ++
      [mkSubscription (user_id u) (fst (pick_plan (company_size u)))
         (inject_Z (snd (pick_plan (company_size u)))) "" start churn] /\
    events w' = events w ++ post /\
    ChurnOK start churn /\
    cancelled post = opt_list churn /\
    Forall (Marker (user_id u) start) post.
Proof.
  unfold resolve_subscribed.
  destruct (churn_probability_total (company_size u)) as [p Hp].
  destruct (pick_plan (company_size u)) as [plan_name price]. simpl in Hp.
  destruct (roll_churn_spec u plan_name start p Hp w)
    as (churn & w1 & e1 & Hrun1 & Hu1 & Hs1 & He1 & Hc1 & Hx1 & Hm1).
  set (r := mkSubscription (user_id u) plan_name (inject_Z price) "" start churn).
  set (w2 := mkWorld (entropy w1) (users w1) (events w1) (subscriptions w1 ++ [r])).
  destruct (retention_marker_spec u "active_day_7" 7 0.60%Q churn start
              ltac:(lia) ltac:(simpl; auto) w2)
    as ([] & w3 & e2 & Hrun2 & Hu2 & Hs2 & He2 & Hx2 & Hm2 & _).
  destruct (retention_marker_spec u "active_day_30" 30 0.45%Q churn start
              ltac:(lia) ltac:(simpl; auto) w3)
    as ([] & w4 & e3 & Hrun3 & Hu3 & Hs3 & He3 & Hx3 & Hm3 & _).
  exists w4, churn, (e1 ++ e2 ++ e3).
  split.
  { unfold bind at 1. rewrite Hrun1.
    unfold bind at 1. unfold append_subscription. fold r. fold w2.
    unfold bind. rewrite Hrun2. exact Hrun3. }
  subst w2. simpl in *. repeat split.
  - congruence.
  - rewrite Hs3, Hs2, Hs1. reflexivity.
  - rewrite He3, He2, He1, <- !app_assoc. reflexivity.
  - exact Hc1.
  - rewrite !cancelled_app, Hx1, Hx2, Hx3, !app_nil_r. reflexivity.
  - rewrite !Forall_app. auto.
Qed.

(* ------------------------------------------------------------------ *)
(** ** One iteration of the user loop *)

Lemma runs_as_simulate_user uid w r w' :
  runs_as uid w r w' -> simulate_user uid w = Some (tt, w').
Proof.
  intros (w1 & w2 & n & wn & w3 & H1 & H2 & H3 & H4 & H5 & _).
  apply session_chain_for_in in H4.
  unfold simulate_user.
  rewrite (bind_run _ _ _ _ _ H1), (bind_run _ _ _ _ _ H2).
  unfold journey. rewrite bind_assoc, (bind_run _ _ _ _ _ H3).
  rewrite (bind_run _ _ _ _ _ H4). exact H5.
Qed.

Lemma resolve_spec u j w :
  exists w' post subs,
    resolve u j w = Some (tt, w') /\
    users w' = users w /\
    events w' = events w ++ post /\
    subscriptions w' = subscriptions w ++ subs /\
    match owed_start j with
    | Some start =>
        exists churn,
          subs =
            [mkSubscription (user_id u) (fst (pick_plan (company_size u)))
               (inject_Z (snd (pick_plan (company_size u)))) "" start churn] /\
          ChurnOK start churn /\
          cancelled post = opt_list churn /\
          Forall (Marker (user_id u) start) post
    | None =>
        subs = [] /\ cancelled post = [] /\
        Forall (Marker (user_id u) (signup_ts u + days 7)) post
    end.
Proof.
  unfold resolve. fold (owed_start j).
  destruct (owed_start j) as [start|].
  - destruct (resolve_subscribed_spec u start w)
      as (w' & churn & post & Hrun & Hu & Hs & He & Hc & Hx & Hm).
    exists w', post. eexists. repeat split; try eassumption. eauto.
  - destruct (resolve_unsubscribed_spec u j w)
      as ([] & w' & post & Hrun & Hu & Hs & He & Hx & Hm).
    exists w', post, []. rewrite app_nil_r. auto 10.
Qed.

Lemma simulate_user_spec uid w :
  exists r w', runs_as uid w r w' /\ UserRunOK uid r.
Proof.
  destruct (generate_user_spec uid w)
    as (u & w1 & ? & Hrun1 & Hu1 & Hs1 & He1 & -> & Huid & Hval).
  rewrite app_nil_r in He1.
  set (w2 := mkWorld (entropy w1) (users w1 ++ [u]) (events w1) (subscriptions w1)).
  destruct (draw_sessions_spec w2)
    as (n & wn & ? & Hrun2 & Hu2 & Hs2 & He2 & -> & Hn).
  rewrite app_nil_r in He2.
  destruct (session_chain_exists u Hval (range 0 n) journey_init wn)
    as (logs & j & w3 & Hchain & Hlen & Hlogs & HF & Hu3 & Hs3).
  pose proof (session_chain_events _ _ _ _ _ _ _ _ Hchain) as He3.
  destruct (resolve_spec u j w3)
    as (w4 & post & subs & Hrun4 & Hu4 & He4 & Hs4 & Hres).
  subst w2. simpl in *.
  exists (mkUserRun u j logs post subs), w4. split.
  - exists w1, (mkWorld (entropy w1) (users w1 ++ [u]) (events w1) (subscriptions w1)),
      n, wn, w3.
    unfold ur_events, ur_session_events. simpl.
    repeat split; try assumption.
    + congruence.
    + rewrite He4, He3, He2, He1, app_assoc. reflexivity.
    + rewrite Hs4, Hs3, Hs2, Hs1. reflexivity.
  - unfold UserRunOK, ur_session_events. simpl.
    split; [exact Huid|]. split; [exact Hval|]. split.
    { rewrite Hlen. pose proof (range_length 0 n ltac:(lia)) as Hr. lia. }
    split; [exact Hlogs|]. split; [exact HF|]. exact Hres.
Qed.

(* ------------------------------------------------------------------ *)
(** ** Reading the log of one user *)

Lemma Marker_name uid lo e :
  Marker uid lo e ->
  named "subscription_created" e = false /\
  named "checkout_start" e = false /\
  event_name e <> "checkout_start".
Proof.
  intros (_ & _ & Hn). apply str_in_In in Hn. unfold named.
  in_cases Hn; rewrite <- Hn; repeat split; discriminate.
Qed.

Lemma Marker_names uid lo evs :
  Forall (Marker uid lo) evs ->
  created evs = [] /\ attempts evs = [] /\
  ~ In "checkout_start" (map event_name evs).
Proof.
  unfold created, attempts.
  induction 1 as [|e evs He _ (IH1 & IH2 & IH3)]; simpl; [tauto|].
  apply Marker_name in He. destruct He as (-> & -> & Hne).
  repeat split; auto. intros [E|E]; [congruence | tauto].
Qed.

Lemma InSession_not_cancel uid sid e :
  InSession uid sid e -> named "cancel_subscription" e = false.
Proof.
  intros (_ & _ & Hn). apply str_in_In in Hn. unfold named.
  in_cases Hn; rewrite <- Hn; reflexivity.
Qed.

Lemma sessions_cancelled u logs :
  Forall (SessionOK u) logs -> cancelled (flat_map sl_events logs) = [].
Proof.
  induction 1 as [|l logs (_ & _ & _ & hi & HC) _ IH]; simpl; [reflexivity|].
  rewrite cancelled_app, IH, app_nil_r.
  apply Chrono_Forall in HC. unfold cancelled.
  induction HC as [|e evs [Hin _] _ IHe]; simpl; [reflexivity|].
  rewrite (InSession_not_cancel _ _ _ Hin). exact IHe.
Qed.

Lemma sessions_after_signup u logs :
  Forall (SessionOK u) logs ->
  Forall (fun e => ev_user_id e = user_id u /\ signup_ts u <= event_ts e)
    (flat_map sl_events logs).
Proof.
  induction 1 as [|l logs (Hb & Hs & _ & hi & HC) _ IH]; simpl; [constructor|].
  apply Forall_app. split; [|exact IH].
  apply Chrono_Forall in HC. eapply Forall_impl; [|exact HC].
  cbv beta. intros e ((Hu & _) & Hlo & _). split; [exact Hu | lia].
Qed.

Lemma created_In ts evs :
  In ts (created evs) -> exists e, In e evs /\ event_ts e = ts.
Proof.
  unfold created. rewrite in_map_iff. intros (e & Hts & Hin).
  apply filter_In in Hin. exists e. tauto.
Qed.

(** After the session loop, the funnel flags and the log agree: the journey
    is subscribed exactly when it recorded a start time, and that time is
    the timestamp of the one [subscription_created] event. *)
Lemma journey_subscription j evs :
  Funnel journey_init evs j ->
  match owed_start j with
  | Some start => subscribed j = true /\ created evs = [start]
  | None => subscribed j = false /\ created evs = []
  end.
Proof.
  intros (HS & _). unfold SubPart, owed_start in *. simpl in HS.
  destruct HS as [(H1 & H2 & H3)|(H1 & ts & H2 & H3)]; rewrite H1.
  - auto.
  - rewrite H2. auto.
Qed.

Lemma UserRunOK_start_after_signup uid r start :
  UserRunOK uid r -> owed_start (ur_journey r) = Some start ->
  signup_ts (ur_user r) <= start.
Proof.
  intros (_ & _ & _ & Hlogs & HF & _) Hst.
  apply journey_subscription in HF. rewrite Hst in HF. destruct HF as [_ Hc].
  destruct (created_In start (ur_session_events r)) as (e & Hin & Hts).
  { rewrite Hc. simpl. auto. }
  apply sessions_after_signup in Hlogs.
  rewrite Forall_forall in Hlogs. apply Hlogs in Hin. lia.
Qed.

Lemma UserRunOK_subs uid r :
  UserRunOK uid r ->
  match owed_start (ur_journey r) with
  | Some start =>
      subscribed (ur_journey r) = true /\
      exists churn,
        ChurnOK start churn /\
        cancelled (ur_markers r) = opt_list churn /\
        ur_subs r =
          [mkSubscription uid (fst (pick_plan (company_size (ur_user r))))
             (inject_Z (snd (pick_plan (company_size (ur_user r))))) ""
             start churn]
  | None => subscribed (ur_journey r) = false /\ ur_subs r = []
  end.
Proof.
  intros (Huid & _ & _ & _ & HF & Hres).
  apply journey_subscription in HF.
  destruct (owed_start (ur_journey r)) as [start|].
  - destruct Hres as (churn & Hsubs & Hc & Hx & _).
    split; [tauto|]. exists churn. rewrite <- Huid. auto.
  - tauto.
Qed.

Lemma UserRunOK_events uid r :
  UserRunOK uid r ->
  Forall (fun e => ev_user_id e = uid /\
                   signup_ts (ur_user r) <= event_ts e)
    (ur_events r).
Proof.
  intros HOK.
  pose proof (fun start => UserRunOK_start_after_signup uid r start HOK) as Hstart.
  destruct HOK as (Huid & _ & _ & Hlogs & _ & Hres).
  unfold ur_events, ur_session_events. apply Forall_app. split.
  - apply sessions_after_signup in Hlogs.
    eapply Forall_impl; [|exact Hlogs]. cbv beta. intros e [H1 H2].
    split; [congruence | exact H2].
  - destruct (owed_start (ur_journey r)) as [start|].
    + destruct Hres as (churn & _ & _ & _ & Hm).
      specialize (Hstart start eq_refl).
      eapply Forall_impl; [|exact Hm]. cbv beta. intros e (H1 & H2 & _).
      split; [congruence | lia].
    + destruct Hres as (_ & _ & Hm).
      eapply Forall_impl; [|exact Hm]. cbv beta. intros e (H1 & H2 & _).
      split; [congruence | unfold_time; lia].
Qed.

Lemma UserRunOK_record uid r :
  UserRunOK uid r ->
  (List.length (ur_subs r) <= 1)%nat /\
  (ur_subs r <> [] <-> subscribed (ur_journey r) = true) /\
  Forall (fun s => sub_user_id s = uid) (ur_subs r).
Proof.
  intros HOK. apply UserRunOK_subs in HOK.
  destruct (owed_start (ur_journey r)) as [start|].
  - destruct HOK as (Hs & churn & _ & _ & ->). simpl.
    repeat split; auto; try discriminate.
  - destruct HOK as (Hs & ->). simpl. rewrite Hs.
    repeat split; auto; try discriminate; try congruence.
Qed.

Lemma pick_plan_table size :
  In size (map fst COMPANY_SIZES) ->
  spec_plan_for_size size =
    Some (fst (pick_plan size), inject_Z (snd (pick_plan size))) /\
  spec_tier_price (fst (pick_plan size)) = Some (inject_Z (snd (pick_plan size))).
Proof.
  intros H. in_cases H; split; reflexivity.
Qed.

Lemma settled_split names : forall pre n post,
  settled names -> names = pre ++ n :: post -> n = "checkout_start" ->
  hd_error post = Some "payment_failed" \/ ~ In "checkout_start" post.
Proof.
  intros pre. revert names.
  induction pre as [|x pre IH]; intros names n post Hs -> Hn; simpl in Hs.
  - apply Hs, Hn.
  - eapply IH; [apply Hs | reflexivity | exact Hn].
Qed.

Lemma ChurnOK_guard n start churn :
  n <= 30 -> ChurnOK start churn -> not_churned_before n churn start = true.
Proof.
  intros Hn. destruct churn as [c|]; simpl; [|reflexivity].
  intros (d & Hd & ->). unfold td_days.
  replace (start + days d - start) with (d * us_per_day) by (unfold_time; lia).
  rewrite Z.div_mul by (unfold us_per_day; lia). lia.
Qed.

Lemma Before_app {A} (l1 l2 : list A) x y :
  Before (l1 ++ l2) x y ->
  Before l1 x y \/ (In x l1 /\ In y l2) \/ Before l2 x y.
Proof.
  intros (a & b & c & H).
  apply app_eq_app in H. destruct H as (l & [[H1 H2]|[H1 H2]]).
  - destruct l as [|x' l'].
    + right. right. exists [], b, c. simpl in *. congruence.
    + simpl in H2. injection H2 as <- H2.
      symmetry in H2. apply app_eq_app in H2.
      destruct H2 as (l'' & [[H3 H4]|[H3 H4]]).
      * destruct l'' as [|y' l'''].
        -- right. left. simpl in H4. subst.
           rewrite app_nil_r. split; [rewrite in_app_iff|]; simpl; auto.
        -- simpl in H4. injection H4 as <- H4. left.
           exists a, b, l'''. subst. reflexivity.
      * right. left. subst. split.
        -- rewrite in_app_iff. simpl. auto.
        -- rewrite in_app_iff. simpl. auto.
  - right. right. exists l, b, c. exact H2.
Qed.

Lemma Before_increasing (l : list Event) e1 e2 :
  StronglySorted Z.lt (map event_ts l) -> Before l e1 e2 ->
  event_ts e1 < event_ts e2.
Proof.
  intros Hs (a & b & c & ->). induction a as [|x a IH]; simpl in Hs.
  - inversion Hs as [|? ? _ Hall]; subst.
    rewrite Forall_forall in Hall. apply Hall.
    rewrite map_app, in_app_iff. simpl. auto.
  - inversion Hs; subst. auto.
Qed.

Lemma Before_distinct {A B} (f : A -> B) (l : list A) x y :
  NoDup (map f l) -> Before l x y -> f x <> f y.
Proof.
  intros Hnd (a & b & c & ->). rewrite map_app in Hnd. simpl in Hnd.
  apply NoDup_remove_2 in Hnd. intros E. apply Hnd.
  rewrite map_app, !in_app_iff. simpl. rewrite E. auto.
Qed.

Lemma SessionOK_ordered u l : SessionOK u l -> SessionOrdered l.
Proof.
  intros (_ & _ & _ & hi & HC). split.
  - apply Chrono_Forall in HC. eapply Forall_impl; [|exact HC].
    cbv beta. unfold InSession. tauto.
  - eapply Chrono_increasing, HC.
Qed.

Lemma In_flat_map_session_id logs e :
  Forall SessionOrdered logs -> In e (flat_map sl_events logs) ->
  In (session_id e) (map sl_id logs).
Proof.
  intros Hall Hin. apply in_flat_map in Hin. destruct Hin as (l & Hl & He).
  rewrite Forall_forall in Hall. destruct (Hall l Hl) as [Hid _].
  rewrite Forall_forall in Hid. rewrite (Hid e He). apply in_map, Hl.
Qed.

Lemma sessions_ordered_by_id logs : forall markers,
  Forall SessionOrdered logs ->
  NoDup (map sl_id logs ++ map session_id markers) ->
  forall e1 e2,
    Before (flat_map sl_events logs ++ markers) e1 e2 ->
    session_id e1 = session_id e2 -> event_ts e1 < event_ts e2.
Proof.
  induction logs as [|l logs IH]; intros markers Hall Hnd e1 e2 Hb Hid.
  - simpl in *. exfalso. eapply Before_distinct; eassumption.
  - inversion Hall as [|? ? Hl Hrest]; subst.
    simpl in Hb, Hnd. rewrite <- app_assoc in Hb.
    apply Before_app in Hb. destruct Hb as [Hb|[[H1 H2]|Hb]].
    + eapply Before_increasing; [apply Hl | exact Hb].
    + exfalso. inversion Hnd as [|? ? Hnotin _]; subst. apply Hnotin.
      destruct Hl as [Hids _]. rewrite Forall_forall in Hids.
      rewrite <- (Hids e1 H1), Hid.
      apply in_app_iff in H2. rewrite in_app_iff. destruct H2 as [H2|H2].
      * left. apply In_flat_map_session_id; assumption.
      * right. apply in_map, H2.
    + inversion Hnd; subst. eapply IH; eassumption.
Qed.

(* ------------------------------------------------------------------ *)
(** ** The user loop *)

Lemma generate_users_spec ids : forall w,
  exists runs w', generate_users ids w = Some (tt, w') /\ chain ids w runs w'.
Proof.
  unfold generate_users.
  induction ids as [|uid ids IH]; intros w.
  - exists [], w. simpl. auto.
  - destruct (simulate_user_spec uid w) as (r & w1 & Hrun & HOK).
    destruct (IH w1) as (runs & w' & Hrest & Hchain).
    exists (r :: runs), w'. split.
    + simpl for_in. unfold bind at 1. unfold bind at 1.
      rewrite (runs_as_simulate_user _ _ _ _ Hrun). simpl. exact Hrest.
    + simpl. eauto.
Qed.

Lemma chain_outputs ids : forall w runs w',
  chain ids w runs w' ->
  users w' = users w ++ map ur_user runs /\
  events w' = events w ++ flat_map ur_events runs /\
  subscriptions w' = subscriptions w ++ flat_map ur_subs runs /\
  map (fun r => user_id (ur_user r)) runs = ids /\
  Forall (fun r => UserRunOK (user_id (ur_user r)) r) runs.
Proof.
  induction ids as [|uid ids IH]; intros w [|r runs] w' H; simpl in H;
    try contradiction.
  - subst. simpl. rewrite !app_nil_r. auto.
  - destruct H as (w1 & Hrun & HOK & Hchain).
    destruct (IH _ _ _ Hchain) as (Hu & He & Hs & Hids & Hall).
    destruct Hrun as (_ & _ & _ & _ & _ & _ & _ & _ & _ & _ & _ & _ & Hu1 & He1 & Hs1).
    assert (Huid : user_id (ur_user r) = uid) by apply HOK.
    simpl. rewrite Hu, He, Hs, Hu1, He1, Hs1, <- !app_assoc, Hids, Huid.
    repeat split; auto. constructor; [rewrite Huid; exact HOK | exact Hall].
Qed.

Lemma NoDup_range lo hi : NoDup (range lo hi).
Proof.
  unfold range. apply Injective_map_NoDup; [|apply seq_NoDup].
  intros i j H. lia.
Qed.

Lemma filter_none {A} (f : A -> bool) (l : list A) :
  Forall (fun x => f x = false) l -> filter f l = [].
Proof.
  induction 1 as [|x l Hx _ IH]; simpl; [reflexivity|]. now rewrite Hx.
Qed.

Lemma filter_all {A} (f : A -> bool) (l : list A) :
  Forall (fun x => f x = true) l -> filter f l = l.
Proof.
  induction 1 as [|x l Hx _ IH]; simpl; [reflexivity|]. now rewrite Hx, IH.
Qed.

Lemma records_of_run runs :
  NoDup (map (fun r => user_id (ur_user r)) runs) ->
  Forall (fun r => Forall (fun s => sub_user_id s = user_id (ur_user r))
                     (ur_subs r)) runs ->
  forall r, In r runs ->
    records_of (user_id (ur_user r)) (flat_map ur_subs runs) = ur_subs r.
Proof.
  unfold records_of.
  induction runs as [|r0 runs IH]; intros Hnd Hall r Hin; [contradiction|].
  inversion Hnd as [|? ? Hnotin Hnd']; subst.
  inversion Hall as [|? ? H0 Hall']; subst.
  simpl. rewrite filter_app. destruct Hin as [->|Hin].
  - rewrite filter_all.
    + rewrite filter_none; [apply app_nil_r|].
      apply Forall_flat_map. rewrite Forall_forall. intros r' Hr'.
      rewrite Forall_forall in Hall'. specialize (Hall' r' Hr').
      eapply Forall_impl; [|exact Hall']. cbv beta. intros s Hs.
      apply Z.eqb_neq. rewrite Hs. intros E. apply Hnotin.
      rewrite <- E. apply (in_map (fun r => user_id (ur_user r))), Hr'.
    + eapply Forall_impl; [|exact H0]. cbv beta. intros s Hs.
      apply Z.eqb_eq, Hs.
  - rewrite filter_none; [apply IH; assumption|].
    eapply Forall_impl; [|exact H0]. cbv beta. intros s Hs.
    apply Z.eqb_neq. rewrite Hs. intros E. apply Hnotin.
    rewrite E. apply (in_map (fun r => user_id (ur_user r))), Hin.
Qed.

Lemma NoDup_map_eq {A B} (f : A -> B) (l : list A) x y :
  NoDup (map f l) -> In x l -> In y l -> f x = f y -> x = y.
Proof.
  induction l as [|a l IH]; simpl; intros Hnd Hx Hy E; [contradiction|].
  inversion Hnd as [|? ? Hnotin Hnd']; subst.
  destruct Hx as [->|Hx], Hy as [->|Hy]; auto.
  - exfalso. apply Hnotin. rewrite E. apply in_map, Hy.
  - exfalso. apply Hnotin. rewrite <- E. apply in_map, Hx.
Qed.

(* ------------------------------------------------------------------ *)
(** ** The logs of a run, computed *)

Lemma skipn_app_exact {A} (l l' : list A) :
  skipn (List.length l) (l ++ l') = l'.
Proof.
  rewrite skipn_app, skipn_all, Nat.sub_diag. reflexivity.
Qed.

Lemma session_run_log u t0 s j w l j' w' :
  session_run u t0 s j w l j' w' ->
  session_log u t0 s j w = Some (l, j', w').
Proof.
  intros (wa & wb & wc & ref & c & H1 & H2 & H3 & H4 & -> & Hb & He).
  unfold session_log. rewrite H1, H2, H3, H4.
  unfold emitted. rewrite He, skipn_app_exact.
  destruct l as [b st sid evs]. simpl in *. subst. reflexivity.
Qed.

Lemma session_chain_logs u t0 xs : forall j w logs j' w',
  session_chain u t0 xs j w logs j' w' ->
  session_logs u t0 xs j w = Some (logs, j', w').
Proof.
  induction xs as [|s xs IH]; intros j w [|l logs] j' w' H; simpl in H;
    try contradiction.
  - destruct H as [-> ->]. reflexivity.
  - destruct H as (j1 & w1 & Hrun & Hchain). simpl.
    rewrite (session_run_log _ _ _ _ _ _ _ _ Hrun), (IH _ _ _ _ _ Hchain).
    reflexivity.
Qed.

Lemma runs_as_log uid w r w' :
  runs_as uid w r w' -> user_log uid w = Some (r, w').
Proof.
  intros (w1 & w2 & n & wn & w3 & H1 & H2 & H3 & H4 & H5 & He & Hs & _).
  unfold user_log.
  rewrite H1, H2, H3, (session_chain_logs _ _ _ _ _ _ _ _ H4), H5.
  unfold emitted, recorded. rewrite He, Hs, !skipn_app_exact.
  destruct r. reflexivity.
Qed.

Lemma chain_logs ids : forall w runs w',
  chain ids w runs w' -> user_logs ids w = Some (runs, w').
Proof.
  induction ids as [|uid ids IH]; intros w [|r runs] w' H; simpl in H;
    try contradiction.
  - subst. reflexivity.
  - destruct H as (w1 & Hrun & _ & Hchain). simpl.
    rewrite (runs_as_log _ _ _ _ Hrun), (IH _ _ _ Hchain). reflexivity.
Qed.

Lemma generate_users_cons uid ids w w1 :
  simulate_user uid w = Some (tt, w1) ->
  generate_users (uid :: ids) w = generate_users ids w1.
Proof.
  intros H. unfold generate_users. simpl for_in.
  unfold bind at 1. unfold bind at 1. rewrite H. reflexivity.
Qed.

Lemma distinct_NoDup l : distinct l = true -> NoDup l.
Proof.
  induction l as [|x l IH]; simpl; intros H; constructor.
  - apply andb_true_iff in H. destruct H as [H _].
    intros Hin. apply negb_true_iff in H.
    assert (str_in x l = true); [|congruence].
    unfold str_in. apply existsb_exists. exists x.
    split; [exact Hin | apply String.eqb_refl].
  - apply andb_true_iff in H. apply IH, H.
Qed.

Lemma blocks_events r : flat_map sl_events (blocks r) = ur_events r.
Proof.
  unfold blocks, ur_events, ur_session_events. rewrite flat_map_app. f_equal.
  induction (ur_markers r) as [|e ms IH]; simpl; congruence.
Qed.

Lemma blocks_ids r :
  map sl_id (blocks r) =
  map sl_id (ur_sessions r) ++ map session_id (ur_markers r).
Proof.
  unfold blocks. rewrite map_app, map_map. reflexivity.
Qed.

Lemma blocks_ordered uid r :
  UserRunOK uid r -> Forall SessionOrdered (blocks r).
Proof.
  intros (_ & _ & _ & Hlogs & _). unfold blocks. apply Forall_app. split.
  - eapply Forall_impl; [|exact Hlogs]. apply SessionOK_ordered.
  - apply Forall_map, Forall_forall. intros e _. split; simpl.
    + constructor; [reflexivity | constructor].
    + constructor; constructor.
Qed.

Lemma all_blocks runs :
  Forall (fun r => UserRunOK (user_id (ur_user r)) r) runs ->
  flat_map sl_events (flat_map blocks runs) = flat_map ur_events runs /\
  map sl_id (flat_map blocks runs) = ids_drawn runs /\
  Forall SessionOrdered (flat_map blocks runs).
Proof.
  unfold ids_drawn.
  induction 1 as [|r runs Hr _ (IH1 & IH2 & IH3)]; simpl.
  - repeat split; constructor.
  - rewrite flat_map_app, map_app, blocks_events, blocks_ids, IH1, IH2.
    repeat split. apply Forall_app. split; [|exact IH3].
    eapply blocks_ordered, Hr.
Qed.

(* ------------------------------------------------------------------ *)
(** ** Properties of the generator *)

(** C1. A user has one to five sessions.  Every session is offset from the
    same baseline, the user's signup timestamp: its first event is stamped
    with the session start, which lies between the baseline and the baseline
    plus 48 hours and 120 minutes.  So for consecutive sessions the later one
    starts at or after the baseline of the earlier one, and the baseline
    never falls behind the signup timestamp. *)
Theorem session_baseline_monotone (uid : Z) (w : World) :
  exists r w',
    runs_as uid w r w' /\
    (1 <= List.length (ur_sessions r) <= 5)%nat /\
    Forall (fun l =>
              sl_baseline l = signup_ts (ur_user r) /\
              sl_baseline l <= sl_start l <= sl_baseline l + hours 48 + minutes 120 /\
              exists e rest, sl_events l = e :: rest /\ event_ts e = sl_start l)
      (ur_sessions r) /\
    (forall pre a b post,
        ur_sessions r = pre ++ a :: b :: post ->
        sl_baseline a <= sl_start b /\
        sl_baseline a <= sl_baseline b /\
        signup_ts (ur_user r) <= sl_baseline a).
Proof.
  destruct (simulate_user_spec uid w) as (r & w' & Hrun & HOK).
  exists r, w'. split; [exact Hrun|].
  destruct HOK as (_ & _ & Hlen & Hlogs & _).
  split; [exact Hlen|]. split.
  - eapply Forall_impl; [|exact Hlogs]. unfold SessionOK. tauto.
  - intros pre a b post Heq. rewrite Heq in Hlogs.
    apply Forall_app in Hlogs. destruct Hlogs as [_ Hlogs].
    inversion Hlogs as [|? ? (Ha & _) Hrest]; subst.
    inversion Hrest as [|? ? (Hb & Hsb & _) _]; subst.
    lia.
Qed.

(** C2. Every event that an iteration of the user loop appends (session
    events, churn event, retention markers) belongs to the iteration's user
    and is stamped at or after that user's signup timestamp.  In the whole
    dataset, every event that carries the identifier of a user is stamped
    at or after that user's signup timestamp. *)
Theorem events_not_before_signup :
  (forall (uid : Z) (w : World),
      exists r w',
        runs_as uid w r w' /\
        Forall (fun e => ev_user_id e = uid /\
                         signup_ts (ur_user r) <= event_ts e)
          (ur_events r)) /\
  (forall tape : list Z,
      exists w',
        generate_data (empty_world tape) = Some (tt, w') /\
        forall u e,
          In u (users w') -> In e (events w') ->
          ev_user_id e = user_id u -> signup_ts u <= event_ts e).
Proof.
  split.
  - intros uid w.
    destruct (simulate_user_spec uid w) as (r & w' & Hrun & HOK).
    exists r, w'. split; [exact Hrun | apply UserRunOK_events, HOK].
  - intros tape. unfold generate_data.
    destruct (generate_users_spec (range 1 (NUM_USERS + 1)) (empty_world tape))
      as (runs & w' & Hrun & Hchain).
    exists w'. split; [exact Hrun|].
    destruct (chain_outputs _ _ _ _ Hchain) as (Hu & He & _ & Hids & Hall).
    simpl in Hu, He. rewrite Hu, He. intros u e Hin_u Hin_e Hid.
    assert (Hnd : NoDup (map (fun r => user_id (ur_user r)) runs)).
    { rewrite Hids. apply NoDup_range. }
    apply in_map_iff in Hin_u. destruct Hin_u as (ru & <- & Hru).
    apply in_flat_map in Hin_e. destruct Hin_e as (re & Hre & Hin_e).
    rewrite Forall_forall in Hall. pose proof (Hall re Hre) as HOK.
    apply UserRunOK_events in HOK. rewrite Forall_forall in HOK.
    destruct (HOK e Hin_e) as [Hid_e Hts].
    assert (re = ru) as ->.
    { apply (NoDup_map_eq (fun r => user_id (ur_user r)) runs); auto. congruence. }
    exact Hts.
Qed.

(** C3, as amended.  Whatever the list of user identifiers and the tape,
    the user loop returns, and the events of every pass of the session loop
    carry the identifier drawn for the pass and are stamped strictly later
    one after the other in emission order.  Identifiers are random tokens
    with no check for uniqueness: whenever the ones drawn during the run are
    pairwise distinct, any two events of the log that share an identifier
    are stamped in their emission order. *)
Theorem session_events_increasing (ids : list Z) (w : World) :
  exists runs w',
    user_logs ids w = Some (runs, w') /\
    generate_users ids w = Some (tt, w') /\
    events w' = events w ++ flat_map ur_events runs /\
    Forall (fun r => Forall SessionOrdered (ur_sessions r)) runs /\
    (distinct (ids_drawn runs) = true ->
     forall e1 e2,
       Before (flat_map ur_events runs) e1 e2 ->
       session_id e1 = session_id e2 -> event_ts e1 < event_ts e2).
Proof.
  destruct (generate_users_spec ids w) as (runs & w' & Hrun & Hchain).
  exists runs, w'. split; [eapply chain_logs, Hchain|]. split; [exact Hrun|].
  destruct (chain_outputs _ _ _ _ Hchain) as (_ & He & _ & _ & Hall).
  split; [exact He|]. split.
  - eapply Forall_impl; [|exact Hall]. cbv beta.
    intros r (_ & _ & _ & Hlogs & _).
    eapply Forall_impl; [|exact Hlogs]. apply SessionOK_ordered.
  - intros Hd e1 e2 Hb Hid. apply distinct_NoDup in Hd.
    destruct (all_blocks runs Hall) as (Hev & Hids & Hord).
    apply (sessions_ordered_by_id (flat_map blocks runs) []); auto.
    + simpl. rewrite app_nil_r, Hids. exact Hd.
    + rewrite app_nil_r, Hev. exact Hb.
Qed.

Lemma session_events_increasing_witness :
  exists runs w',
    user_logs [1] (empty_world tape_two_sessions) = Some (runs, w') /\
    distinct (ids_drawn runs) = true /\
    ids_drawn runs = ["sess_0949b0f6f0"; "sess_10cf9f07c5"] /\
    forall e1 e2,
      Before (flat_map ur_events runs) e1 e2 ->
      session_id e1 = session_id e2 -> event_ts e1 < event_ts e2.
Proof.
  destruct (session_events_increasing [1] (empty_world tape_two_sessions))
    as (runs & w' & Hlog & _ & _ & _ & Hord).
  assert (D : option_map (fun p => ids_drawn (fst p))
                (user_logs [1] (empty_world tape_two_sessions)) =
              Some ["sess_0949b0f6f0"; "sess_10cf9f07c5"])
    by (vm_compute; reflexivity).
  rewrite Hlog in D. simpl in D. injection D as D.
  assert (Hd : distinct (ids_drawn runs) = true) by (rewrite D; reflexivity).
  exists runs, w'. split; [exact Hlog|]. split; [exact Hd|].
  split; [exact D|]. exact (Hord Hd).
Defined.

(** C3, as first stated, fails: on [tape_same_id] the two sessions of user 1
    draw the same identifier, the first starts 48 hours after signup and the
    second at signup, so the [signup] event of the first session comes
    before the first event of the second in the log, shares its identifier,
    and is stamped later. *)
Lemma session_id_collision :
  exists w' e1 e2,
    generate_data (empty_world tape_same_id) = Some (tt, w') /\
    Before (events w') e1 e2 /\
    session_id e1 = session_id e2 /\
    event_ts e2 < event_ts e1.
Proof.
  assert (D : option_map
                (fun p => map (fun e => (session_id e, event_ts e))
                            (events (snd p)))
                (simulate_user 1 (empty_world tape_same_id)) =
              Some [("sess_0949b0f6f0", 172800000000);
                    ("sess_0949b0f6f0", 172860000000);
                    ("sess_0949b0f6f0", 0)])
    by (vm_compute; reflexivity).
  destruct (simulate_user 1 (empty_world tape_same_id)) as [[[] w1]|] eqn:E1;
    [|discriminate D].
  simpl in D. injection D as D.
  destruct (generate_users_spec (range (1 + 1) (NUM_USERS + 1)) w1)
    as (runs & w' & Hrun & Hchain).
  destruct (chain_outputs _ _ _ _ Hchain) as (_ & He & _).
  destruct (events w1) as [|ea [|eb [|ec [|ed rest]]]]; try discriminate D.
  simpl in D. injection D as Ha1 Ha2 Hb1 Hb2 Hc1 Hc2.
  exists w', eb, ec. split; [|split; [|split]].
  - unfold generate_data.
    rewrite range_cons by (unfold NUM_USERS; lia).
    rewrite (generate_users_cons _ _ _ _ E1). exact Hrun.
  - rewrite He. exists [ea], [], (flat_map ur_events runs). reflexivity.
  - congruence.
  - lia.
Qed.

(** C4. One iteration of the user loop appends a subscription record
    exactly when its session loop ended with [subscribed] set, and never
    more than one.  In the whole dataset, the records that carry a user's
    identifier are exactly the ones that user's iteration appended: at most
    one per user, present exactly when the user's journey ended subscribed. *)
Theorem subscription_record_iff_subscribed :
  (forall (uid : Z) (w : World),
      exists r w',
        runs_as uid w r w' /\
        (List.length (ur_subs r) <= 1)%nat /\
        (ur_subs r <> [] <-> subscribed (ur_journey r) = true) /\
        Forall (fun s => sub_user_id s = uid) (ur_subs r)) /\
  (forall tape : list Z,
      exists runs w',
        generate_data (empty_world tape) = Some (tt, w') /\
        chain (range 1 (NUM_USERS + 1)) (empty_world tape) runs w' /\
        users w' = map ur_user runs /\
        subscriptions w' = flat_map ur_subs runs /\
        Forall (fun r =>
                  (List.length (ur_subs r) <= 1)%nat /\
                  (ur_subs r <> [] <-> subscribed (ur_journey r) = true) /\
                  records_of (user_id (ur_user r)) (subscriptions w') = ur_subs r)
          runs).
Proof.
  split.
  - intros uid w.
    destruct (simulate_user_spec uid w) as (r & w' & Hrun & HOK).
    exists r, w'. split; [exact Hrun|]. apply UserRunOK_record, HOK.
  - intros tape. unfold generate_data.
    destruct (generate_users_spec (range 1 (NUM_USERS + 1)) (empty_world tape))
      as (runs & w' & Hrun & Hchain).
    exists runs, w'. split; [exact Hrun|]. split; [exact Hchain|].
    destruct (chain_outputs _ _ _ _ Hchain) as (Hu & _ & Hs & Hids & Hall).
    simpl in Hu, Hs. split; [exact Hu|]. split; [exact Hs|].
    assert (Hnd : NoDup (map (fun r => user_id (ur_user r)) runs)).
    { rewrite Hids. apply NoDup_range. }
    assert (Hrec : Forall (fun r => Forall (fun s => sub_user_id s = user_id (ur_user r))
                                      (ur_subs r)) runs).
    { eapply Forall_impl; [|exact Hall]. cbv beta. intros r HOK.
      apply UserRunOK_record, HOK. }
    rewrite Forall_forall. intros r Hr.
    rewrite Forall_forall in Hall. pose proof (Hall r Hr) as HOK.
    apply UserRunOK_record in HOK. destruct HOK as (H1 & H2 & _).
    split; [exact H1|]. split; [exact H2|].
    rewrite Hs. apply records_of_run; assumption.
Qed.

(** C5. A churn timestamp on a subscription record is strictly after the
    subscription start, by a whole number of days between 30 and 75. *)
Theorem churn_30_to_75_days_after_start (uid : Z) (w : World) :
  exists r w',
    runs_as uid w r w' /\
    Forall (fun s =>
              forall c, churn_ts s = Some c ->
                subscription_start_ts s < c /\
                days 30 <= c - subscription_start_ts s <= days 75 /\
                exists d, 30 <= d <= 75 /\ c - subscription_start_ts s = days d)
      (ur_subs r).
Proof.
  destruct (simulate_user_spec uid w) as (r & w' & Hrun & HOK).
  exists r, w'. split; [exact Hrun|].
  apply UserRunOK_subs in HOK.
  destruct (owed_start (ur_journey r)) as [start|].
  - destruct HOK as (_ & churn & Hc & _ & ->).
    constructor; [|constructor]. simpl. intros c ->.
    destruct Hc as (d & Hd & ->).
    repeat split; try (unfold_time; lia).
    exists d. split; [exact Hd | lia].
  - destruct HOK as (_ & ->). constructor.
Qed.

(** C6. The plan and the monthly price of every subscription record follow
    the plan table from the user's company size (solo: starter at 29; 2-10
    and 11-50: pro at 79; 51-200: business at 199), and the record's mrr is
    the fixed price of its tier. *)
Theorem plan_and_mrr_follow_company_size (uid : Z) (w : World) :
  exists r w',
    runs_as uid w r w' /\
    Forall (fun s =>
              spec_plan_for_size (company_size (ur_user r)) =
                Some (plan s, mrr s) /\
              spec_tier_price (plan s) = Some (mrr s))
      (ur_subs r).
Proof.
  destruct (simulate_user_spec uid w) as (r & w' & Hrun & HOK).
  exists r, w'. split; [exact Hrun|].
  assert (Hsize : In (company_size (ur_user r)) (map fst COMPANY_SIZES)).
  { apply str_in_In, valid_user_company_size. apply HOK. }
  apply pick_plan_table in Hsize.
  apply UserRunOK_subs in HOK.
  destruct (owed_start (ur_journey r)) as [start|].
  - destruct HOK as (_ & churn & _ & _ & ->).
    constructor; [|constructor]. exact Hsize.
  - destruct HOK as (_ & ->). constructor.
Qed.

(** C7. For each channel of the table and any device, persona and company
    size, [activation_probability] returns the channel's base value adjusted
    by -0.05 on mobile, +0.03 for maker or agency, +0.01 for analyst and
    -0.02 for 51-200, clamped to [0, 1]: the double it returns is the one
    these adjustments give when applied in this order, and it lies within
    [10^-15] of the exact decimal sum. *)
Theorem activation_probability_table
  (channel device persona size : string) (base : Q) :
  In (channel, base) spec_activation_base ->
  exists p,
    Binary64.activation_probability channel device persona size = Some p /\
    p = spec_activation_double base device persona size /\
    Binary64.near p
      (spec_clamp (base + spec_activation_adjustment device persona size)).
Proof.
  intros Hin.
  unfold Binary64.activation_probability, spec_activation_double,
    spec_activation_adjustment, Binary64.adjusted, Binary64.near, str_in.
  simpl existsb.
  in_cases Hin; injection Hin as <- <-; simpl dict_get; eexists;
    (split; [reflexivity|]);
    destruct (String.eqb device "mobile");
    destruct (String.eqb_spec persona "maker") as [->|_];
    try destruct (String.eqb_spec persona "agency") as [->|_];
    try destruct (String.eqb_spec persona "analyst") as [->|_];
    destruct (String.eqb size "51-200");
    (split; [vm_compute; reflexivity | apply Qle_bool_iff; vm_compute; reflexivity]).
Qed.

Lemma activation_probability_table_witness :
  In ("paid_social", 0.28%Q) spec_activation_base /\
  exists p,
    Binary64.activation_probability "paid_social" "mobile" "analyst" "51-200" =
      Some p /\
    p = spec_activation_double 0.28 "mobile" "analyst" "51-200" /\
    Binary64.near p
      (spec_clamp (0.28 + spec_activation_adjustment "mobile" "analyst" "51-200")).
Proof.
  split; [simpl; auto|].
  apply (activation_probability_table "paid_social" "mobile" "analyst" "51-200").
  simpl; auto.
Defined.

(** C8. The [checkout_start] events of a user carry the attempt numbers
    1, 2, ..., k in this order, for some k of at most 3, and there is at
    least one exactly when the user started a trial.  A [checkout_start]
    that is not directly followed by [payment_failed] is the last one: the
    attempt loop is left right after an attempt that did not fail. *)
Theorem checkout_attempts_numbered (uid : Z) (w : World) :
  exists r w',
    runs_as uid w r w' /\
    (exists k,
        0 <= k <= 3 /\
        attempts (ur_events r) = map attempt_props (range 1 (1 + k)) /\
        (trial_started (ur_journey r) = true <-> 1 <= k)) /\
    (forall pre e post,
        ur_events r = pre ++ e :: post ->
        event_name e = "checkout_start" ->
        hd_error (map event_name post) <> Some "payment_failed" ->
        ~ In "checkout_start" (map event_name post)).
Proof.
  destruct (simulate_user_spec uid w) as (r & w' & Hrun & HOK).
  exists r, w'. split; [exact Hrun|].
  destruct HOK as (_ & _ & _ & _ & (_ & HT & Hset & _) & Hres).
  assert (Hm : attempts (ur_markers r) = [] /\
               ~ In "checkout_start" (map event_name (ur_markers r))).
  { destruct (owed_start (ur_journey r)).
    - destruct Hres as (churn & _ & _ & _ & Hm). apply Marker_names in Hm. tauto.
    - destruct Hres as (_ & _ & Hm). apply Marker_names in Hm. tauto. }
  destruct Hm as [Hm1 Hm2]. split.
  - unfold ur_events. rewrite attempts_app, Hm1, app_nil_r.
    unfold TrialPart in HT. simpl in HT.
    destruct HT as [(H1 & H2)|(H1 & k & Hk & H2)]; rewrite H1, H2.
    + exists 0. rewrite range_nil by lia.
      repeat split; try lia; try discriminate.
    + exists k. repeat split; try lia; auto.
  - intros pre e post Hev Hname Hnext.
    assert (Hall : settled (map event_name (ur_events r))).
    { unfold ur_events. rewrite map_app. apply settled_app; auto.
      apply settled_no_checkout, Hm2. }
    destruct (settled_split _ (map event_name pre) (event_name e)
                (map event_name post) Hall) as [H|H];
      [rewrite Hev, map_app; reflexivity | exact Hname | contradiction | exact H].
Qed.

(** C9. When the session loop ends subscribed, the one subscription record
    starts at the timestamp of the user's one [subscription_created] event;
    the user's [cancel_subscription] events are exactly one, stamped with
    the record's churn timestamp, when there is a churn, and none
    otherwise. *)
Theorem record_timestamps_match_events (uid : Z) (w : World) :
  exists r w',
    runs_as uid w r w' /\
    (subscribed (ur_journey r) = true ->
     exists s,
       ur_subs r = [s] /\
       created (ur_events r) = [subscription_start_ts s] /\
       cancelled (ur_events r) = opt_list (churn_ts s)).
Proof.
  destruct (simulate_user_spec uid w) as (r & w' & Hrun & HOK).
  exists r, w'. split; [exact Hrun|]. intros Hsub.
  pose proof (UserRunOK_subs uid r HOK) as Hsubs.
  destruct HOK as (_ & _ & _ & Hlogs & HF & Hres).
  apply journey_subscription in HF.
  apply sessions_cancelled in Hlogs.
  unfold ur_events. rewrite created_app, cancelled_app.
  fold (ur_session_events r) in Hlogs. rewrite Hlogs.
  destruct (owed_start (ur_journey r)) as [start|].
  - destruct Hsubs as (_ & churn & _ & Hx & ->).
    destruct Hres as (churn' & _ & _ & _ & Hm).
    apply Marker_names in Hm. destruct Hm as (Hc & _).
    destruct HF as [_ HF]. rewrite HF, Hc, Hx.
    eexists. split; [reflexivity|]. simpl. auto.
  - destruct HF as [HF _]. congruence.
Qed.

(** C10. For a subscriber the two eligibility guards always hold, because a
    churn timestamp lies at least 30 whole days after the subscription
    start: for a journey that subscribed at [start] the resolver behaves as
    if the guards were not there, rolling [active_day_7] at 0.60 and
    [active_day_30] at 0.45 whatever the churn roll gave. *)
Theorem retention_guards_vacuous
  (u : User) (j : Journey) (start : datetime) (w : World) :
  resolve u (set_subscribed j start) w =
    resolve_subscribed_unguarded u start w /\
  exists churn w',
    roll_churn u (fst (pick_plan (company_size u))) start w = Some (churn, w') /\
    not_churned_before 7 churn start = true /\
    not_churned_before 30 churn start = true.
Proof.
  unfold resolve. simpl.
  unfold resolve_subscribed, resolve_subscribed_unguarded.
  destruct (churn_probability_total (company_size u)) as [p Hp].
  destruct (pick_plan (company_size u)) as [plan_name price]. simpl in *.
  destruct (roll_churn_spec u plan_name start p Hp w)
    as (churn & w1 & e1 & Hrun & _ & _ & _ & Hc & _).
  pose proof (ChurnOK_guard 7 start churn ltac:(lia) Hc) as G7.
  pose proof (ChurnOK_guard 30 start churn ltac:(lia) Hc) as G30.
  split; [|eauto].
  rewrite !(bind_run _ _ _ _ _ Hrun).
  unfold retention_marker, roll_marker. rewrite G7, G30. reflexivity.
Qed.

(* ------------------------------------------------------------------ *)
(** ** Further properties: the probability helpers *)

Lemma Qltb_lt (x y : Q) : Qltb x y = true <-> (x < y)%Q.
Proof.
  unfold Qltb. rewrite negb_true_iff. split.
  - intros H. apply Qnot_le_lt. intros Hle.
    apply Qle_bool_iff in Hle. congruence.
  - intros H. destruct (Qle_bool y x) eqn:E; [|reflexivity].
    apply Qle_bool_iff in E. apply Qlt_not_le in H. contradiction.
Qed.

Lemma Qltb_ge (x y : Q) : Qltb x y = false <-> (y <= x)%Q.
Proof.
  unfold Qltb. rewrite negb_false_iff. apply Qle_bool_iff.
Qed.

(** X1. [clamp01] returns a value of the unit interval; it returns its
    argument when that lies in the unit interval, 0 below it and 1 above
    it, and clamping twice is clamping once. *)
Theorem clamp01_contract (x : Q) :
  (0 <= clamp01 x <= 1)%Q /\
  ((0 <= x <= 1)%Q -> (clamp01 x == x)%Q) /\
  ((x < 0)%Q -> clamp01 x = 0.0%Q) /\
  ((1 < x)%Q -> clamp01 x = 1.0%Q) /\
  clamp01 (clamp01 x) = clamp01 x.
Proof.
  unfold clamp01, py_max, py_min.
  destruct (Qltb x 1.0) eqn:E1; [apply Qltb_lt in E1 | apply Qltb_ge in E1];
    [destruct (Qltb 0.0 x) eqn:E2;
       [apply Qltb_lt in E2 | apply Qltb_ge in E2]|];
    cbn; rewrite ?E1, ?E2;
    repeat split; intros; try lra; try reflexivity; try (exfalso; lra).
  all: try (rewrite (proj2 (Qltb_lt x 1.0) E1)).
  all: try (rewrite (proj2 (Qltb_lt 0.0 x) E2)).
  all: try reflexivity.
Qed.

(** X2. On every input, also on channels, devices, countries and company
    sizes outside the configured ones, the doubles that the three
    string-driven helpers return are within [10^-15] of the exact decimal
    sums of the rational model, and well inside the unit interval, so their
    clamp never changes the value: trial start between 0.0499 and 0.6501,
    payment failure between 0.0449 and 0.1601, trial to paid between 0.0099
    and 0.5101. *)
Theorem helper_probabilities_in_range
  (activated : bool) (channel device country size : string) :
  let p_trial := Binary64.trial_probability activated channel in
  let p_fail := Binary64.payment_failure_probability device country in
  let p_paid := Binary64.trial_to_paid_probability activated channel size in
  Binary64.near p_trial (trial_probability activated channel) /\
  Binary64.near p_fail (payment_failure_probability device country) /\
  Binary64.near p_paid (trial_to_paid_probability activated channel size) /\
  (0.0499 <= Binary64.value p_trial <= 0.6501)%Q /\
  (0.0449 <= Binary64.value p_fail <= 0.1601)%Q /\
  (0.0099 <= Binary64.value p_paid <= 0.5101)%Q.
Proof.
  cbv zeta.
  unfold Binary64.near, Binary64.trial_probability, trial_probability,
    Binary64.payment_failure_probability, payment_failure_probability,
    Binary64.trial_to_paid_probability, trial_to_paid_probability, str_in.
  simpl existsb.
  repeat split.
  all: destruct activated;
    destruct (String.eqb channel "referral");
    destruct (String.eqb channel "organic");
    destruct (String.eqb channel "paid_social");
    destruct (String.eqb device "web");
    destruct (String.eqb country "IN");
    destruct (String.eqb size "11-50");
    destruct (String.eqb size "51-200");
    apply Qle_bool_iff; vm_compute; reflexivity.
Qed.

(** X3. Activation drives the funnel: for any channel and company size the
    double an activated user gets as trial probability lies 0.55 above the
    one of a user who is not, and the trial-to-paid probability 0.36 above,
    each up to [10^-15]. *)
Theorem activation_lifts_trial_and_paid (channel size : string) :
  (Qabs (Binary64.value (Binary64.trial_probability true channel) -
         Binary64.value (Binary64.trial_probability false channel) - 0.55)
   <= 1 # 1000000000000000)%Q /\
  (Qabs (Binary64.value (Binary64.trial_to_paid_probability true channel size) -
         Binary64.value (Binary64.trial_to_paid_probability false channel size) -
         0.36)
   <= 1 # 1000000000000000)%Q.
Proof.
  unfold Binary64.trial_probability, Binary64.trial_to_paid_probability, str_in.
  simpl existsb.
  split.
  all: destruct (String.eqb channel "referral");
    destruct (String.eqb channel "organic");
    destruct (String.eqb channel "paid_social");
    destruct (String.eqb size "11-50");
    destruct (String.eqb size "51-200");
    apply Qle_bool_iff; vm_compute; reflexivity.
Qed.

(** X4. Only the device ["web"] gets the low payment-failure rate: every
    other device string, known or not, fails exactly like mobile, 0.075
    above web, and the country ["IN"] adds 0.04 on any device, each up to
    [10^-15]. *)
Theorem payment_failure_by_device_and_country (device country : string) :
  device <> "web" ->
  Binary64.payment_failure_probability device country =
    Binary64.payment_failure_probability "mobile" country /\
  (Qabs (Binary64.value (Binary64.payment_failure_probability device country) -
         Binary64.value (Binary64.payment_failure_probability "web" country) -
         0.075)
   <= 1 # 1000000000000000)%Q /\
  (Qabs (Binary64.value (Binary64.payment_failure_probability device "IN") -
         Binary64.value (Binary64.payment_failure_probability device "US") -
         0.04)
   <= 1 # 1000000000000000)%Q.
Proof.
  intros Hdev. unfold Binary64.payment_failure_probability.
  destruct (String.eqb_spec device "web") as [E|_]; [contradiction|].
  simpl String.eqb.
  split; [reflexivity|].
  split; destruct (String.eqb country "IN");
    apply Qle_bool_iff; vm_compute; reflexivity.
Qed.

Lemma payment_failure_by_device_and_country_witness :
  "tablet" <> "web" /\
  Binary64.payment_failure_probability "tablet" "IN" =
    Binary64.payment_failure_probability "mobile" "IN" /\
  (Qabs (Binary64.value (Binary64.payment_failure_probability "tablet" "IN") -
         Binary64.value (Binary64.payment_failure_probability "web" "IN") -
         0.075)
   <= 1 # 1000000000000000)%Q /\
  (Qabs (Binary64.value (Binary64.payment_failure_probability "tablet" "IN") -
         Binary64.value (Binary64.payment_failure_probability "tablet" "US") -
         0.04)
   <= 1 # 1000000000000000)%Q.
Proof.
  split; [discriminate|].
  apply (payment_failure_by_device_and_country "tablet" "IN"). discriminate.
Defined.

(** X5. Channel quality: whatever the device, persona and company size, the
    activation probability is defined for the five channels and strictly
    ordered referral > organic > paid_search > partner > paid_social, and it
    always lies between 0.21 and 0.61, so its clamp never bites. *)
Theorem activation_ordered_by_channel (device persona size : string) :
  exists p1 p2 p3 p4 p5,
    activation_probability "referral" device persona size = Some p1 /\
    activation_probability "organic" device persona size = Some p2 /\
    activation_probability "paid_search" device persona size = Some p3 /\
    activation_probability "partner" device persona size = Some p4 /\
    activation_probability "paid_social" device persona size = Some p5 /\
    (0.21 <= p5 /\ p5 < p4 /\ p4 < p3 /\ p3 < p2 /\ p2 < p1 /\ p1 <= 0.61)%Q.
Proof.
  unfold activation_probability, str_in. simpl existsb. simpl dict_get.
  do 5 eexists. repeat (split; [reflexivity|]).
  destruct (String.eqb device "mobile");
    destruct (String.eqb persona "maker");
    destruct (String.eqb persona "agency");
    destruct (String.eqb persona "analyst");
    destruct (String.eqb size "51-200");
    vm_compute; intuition discriminate.
Qed.

Lemma dict_get_None {V} (d : list (string * V)) (k : string) :
  dict_get d k = None <-> ~ In k (map fst d).
Proof.
  induction d as [|[k' v] d IH]; simpl; [tauto|].
  destruct (String.eqb_spec k k') as [->|Hne].
  - split; [discriminate | intros H; exfalso; apply H; auto].
  - rewrite IH. split; [intros H [E|E]; [congruence | tauto] | tauto].
Qed.

(** X6. The lookup tables of the helpers cover exactly the values the
    sampler can draw: the channel tables raise a [KeyError] exactly for a
    channel that is not a key of [CHANNELS], the persona table exactly for a
    persona outside [PERSONAS], and the churn table exactly for a plan that
    is none of the three tiers. *)
Theorem key_errors_exactly_outside_config
  (channel device persona size plan_name : string) :
  (onboarding_start_probability channel = None <->
   ~ In channel (map fst CHANNELS)) /\
  (activation_probability channel device persona size = None <->
   ~ In channel (map fst CHANNELS)) /\
  (value_moment_probability persona = None <-> ~ In persona PERSONAS) /\
  (churn_probability plan_name = None <-> ~ In plan_name (map fst PLANS)).
Proof.
  split; [|split; [|split]].
  - unfold onboarding_start_probability. rewrite dict_get_None. simpl. tauto.
  - unfold activation_probability.
    destruct (dict_get activation_base channel) as [b|] eqn:E.
    + split; [discriminate|]. intros Hnot. exfalso.
      assert (H : dict_get activation_base channel <> None) by congruence.
      apply H, dict_get_None. simpl. simpl in Hnot. tauto.
    + split; [|reflexivity]. intros _.
      apply dict_get_None in E. simpl in *. tauto.
  - unfold value_moment_probability. rewrite dict_get_None. simpl. tauto.
  - unfold churn_probability. rewrite dict_get_None. simpl. tauto.
Qed.

(** X7. [pick_plan] is total on strings: every company size other than
    solo, 2-10 and 11-50, a configured one or not, falls to business at 199.
    Its result is always one of the three tiers, so [churn_probability]
    never raises on it, and of two company sizes the one with the dearer
    plan has the lower churn probability. *)
Theorem pick_plan_total (size : string) :
  In (pick_plan size) PLANS /\
  (size <> "solo" -> size <> "2-10" -> size <> "11-50" ->
   pick_plan size = ("business", 199)) /\
  exists p,
    churn_probability (fst (pick_plan size)) = Some p /\
    forall size' p',
      churn_probability (fst (pick_plan size')) = Some p' ->
      snd (pick_plan size) < snd (pick_plan size') -> (p' < p)%Q.
Proof.
  assert (Hcases : forall s,
             pick_plan s = ("starter", 29) \/ pick_plan s = ("pro", 79) \/
             pick_plan s = ("business", 199)).
  { intros s. unfold pick_plan.
    destruct (String.eqb s "solo"); [auto|].
    destruct (str_in s ["2-10"; "11-50"]); auto. }
  split; [|split].
  - destruct (Hcases size) as [->|[->| ->]]; simpl; auto.
  - intros H1 H2 H3. unfold pick_plan, str_in. simpl existsb.
    apply String.eqb_neq in H1, H2, H3. rewrite H1, H2, H3. reflexivity.
  - destruct (Hcases size) as [->|[->| ->]]; eexists;
      (split; [reflexivity|]); intros size' p';
      destruct (Hcases size') as [->|[->| ->]]; simpl;
      intros [= <-] Hlt; try lia; vm_compute; reflexivity.
Qed.

(* ------------------------------------------------------------------ *)
(** ** Further properties: identifiers and [add_event] *)

Lemma chars_append (a b : string) : chars (a +++ b) = chars a ++ chars b.
Proof.
  unfold chars. induction a as [|c a IH]; simpl; [reflexivity | now rewrite IH].
Qed.

Lemma chars_substring_0 (n : nat) : forall s,
  chars (substring 0 n s) = firstn n (chars s).
Proof.
  unfold chars. induction n as [|n IH]; intros [|c s]; simpl; try reflexivity.
  now rewrite IH.
Qed.

Lemma digit_char_hex (n : Z) : 0 <= n < 16 -> is_hex (digit_char n) = true.
Proof.
  intros H. unfold digit_char.
  assert (Hk : (Z.to_nat n < 16)%nat) by lia.
  destruct (Z.to_nat n) as [|k]; [reflexivity|].
  do 15 (destruct k as [|k]; [reflexivity|]). lia.
Qed.

Lemma hex_fixed_hex (w : nat) : forall n, hex_string w (hex_fixed w n).
Proof.
  unfold hex_string.
  induction w as [|w IH]; intros n; simpl; [split; reflexivity|].
  rewrite chars_append, length_app, forallb_app.
  destruct (IH (n / 16)) as [Hlen Hall]. rewrite Hlen, Hall. simpl.
  rewrite digit_char_hex by (apply Z.mod_pos_bound; lia).
  split; [lia | reflexivity].
Qed.

Lemma forallb_firstn {A} (f : A -> bool) (n : nat) : forall l,
  forallb f l = true -> forallb f (firstn n l) = true.
Proof.
  induction n as [|n IH]; intros [|x l]; simpl; auto.
  intros H. apply andb_true_iff in H. destruct H as [-> H]. simpl. auto.
Qed.

Lemma replace_char_absent (a b : ascii) (s : string) :
  a <> b -> ~ In a (chars (replace_char a b s)).
Proof.
  intros Hab. unfold chars. induction s as [|c s IH]; simpl; [tauto|].
  intros [E|E]; [|tauto].
  destruct (Ascii.eqb_spec c a) as [->|Hne]; congruence.
Qed.

(** X8. [add_event] never fails.  It reads one entry of the entropy tape,
    leaves the users and the subscriptions alone and appends exactly one
    event at the end of the log, keeping every earlier event in place.  The
    new event carries the arguments as given, an empty string for a page or
    referrer that was not passed, an identifier made of [evt_] and 32
    hexadecimal digits, and a property string that is [{}] when no
    properties (or an empty bag) were passed and never holds a single
    quote. *)
Theorem add_event_appends_one
  (uid : Z) (ts : datetime) (name sid : string) (pg ref : option string)
  (props : option Props) (w : World) :
  exists e w' h,
    add_event uid ts name sid pg ref props w = Some (tt, w') /\
    events w' = events w ++ [e] /\
    users w' = users w /\ subscriptions w' = subscriptions w /\
    entropy w' = tl (entropy w) /\
    ev_user_id e = uid /\ event_ts e = ts /\ event_name e = name /\
    session_id e = sid /\
    page e = or_empty pg /\ referrer e = or_empty ref /\
    event_id e = "evt_" +++ h /\ hex_string 32 h /\
    (props = None \/ props = Some [] -> event_properties e = "{}") /\
    ~ In squote (chars (event_properties e)).
Proof.
  unfold add_event, uuid4_hex, bind, draw, ret, append_event.
  assert (Hq : forall d : Props,
             ~ In squote (chars (match Some d with
                                 | None | Some [] => "{}"
                                 | Some d' => replace_char squote dquote (str_dict d')
                                 end))).
  { intros [|x d]; [simpl; intuition discriminate|].
    apply replace_char_absent. discriminate. }
  assert (Hprops : ~ In squote (chars (match props with
                                       | None | Some [] => "{}"
                                       | Some d => replace_char squote dquote (str_dict d)
                                       end))).
  { destruct props as [d|]; [apply Hq | simpl; intuition discriminate]. }
  assert (Hempty : props = None \/ props = Some [] ->
                   match props with
                   | None | Some [] => "{}"
                   | Some d => replace_char squote dquote (str_dict d)
                   end = "{}").
  { intros [-> | ->]; reflexivity. }
  destruct (entropy w) as [|x rest] eqn:E.
  - eexists _, _, (hex_fixed 32 (uuid4_int 0)).
    split; [reflexivity|]. cbn [events users subscriptions entropy tl].
    rewrite E. cbn [ev_user_id event_ts event_name session_id page referrer
                    event_id event_properties tl].
    repeat split; auto; apply hex_fixed_hex.
  - eexists _, _, (hex_fixed 32 (uuid4_int x)).
    split; [reflexivity|]. cbn [events users subscriptions entropy tl].
    cbn [ev_user_id event_ts event_name session_id page referrer
         event_id event_properties].
    repeat split; auto; apply hex_fixed_hex.
Qed.

(** X9. A session identifier is [sess_] followed by 10 hexadecimal digits,
    drawn with one read of the tape; nothing is written anywhere. *)
Theorem fresh_session_id_format (w : World) :
  exists h w',
    fresh_session_id w = Some ("sess_" +++ h, w') /\
    hex_string 10 h /\
    entropy w' = tl (entropy w) /\
    users w' = users w /\ events w' = events w /\
    subscriptions w' = subscriptions w.
Proof.
  assert (Hh : forall x, hex_string 10 (substring 0 10 (hex_fixed 32 (uuid4_int x)))).
  { intros x. destruct (hex_fixed_hex 32 (uuid4_int x)) as [Hlen Hall].
    unfold hex_string. rewrite chars_substring_0. split.
    - rewrite length_firstn, Hlen. reflexivity.
    - apply forallb_firstn, Hall. }
  unfold fresh_session_id, uuid4_hex, bind, draw, ret.
  destruct (entropy w) as [|x rest] eqn:E.
  - eexists _, _. split; [reflexivity|]. split; [apply Hh|].
    rewrite E. simpl tl. auto.
  - eexists _, _. split; [reflexivity|]. split; [apply Hh|].
    cbn [entropy users events subscriptions tl]. auto.
Qed.

(* ------------------------------------------------------------------ *)
(** ** Further properties: the population sampler *)

(** X10. On a non-empty table whose weights are not negative and sum to
    one, [weighted_choice] never fails and returns one of the table's keys,
    reading one entry of the tape and writing nothing. *)
Theorem weighted_choice_returns_key (d : list (string * Q)) (w : World) :
  d <> [] ->
  Forall (fun kv => (0 <= snd kv)%Q) d ->
  (Qsum (map snd d) == 1)%Q ->
  exists k w',
    weighted_choice d w = Some (k, w') /\
    In k (map fst d) /\
    entropy w' = tl (entropy w) /\
    users w' = users w /\ events w' = events w /\
    subscriptions w' = subscriptions w.
Proof.
  intros Hne Hpos Hsum. unfold weighted_choice.
  assert (Hok : choice_ok (map fst d) (map snd d) = true).
  { unfold choice_ok. rewrite !length_map, Nat.eqb_refl. simpl.
    apply andb_true_iff. split; [|apply Qeq_bool_iff, Hsum].
    rewrite forallb_forall. intros x Hx. apply in_map_iff in Hx.
    destruct Hx as (kv & <- & Hkv). rewrite Forall_forall in Hpos.
    apply Qle_bool_iff, Hpos, Hkv. }
  assert (Hne' : map fst d <> []) by (destruct d; [congruence | discriminate]).
  destruct (np_random_choice_quiet (map fst d) (map snd d) Hne' Hok w)
    as (k & w' & e & Hrun & Hu & Hs & He & -> & Hin).
  rewrite app_nil_r in He. exists k, w'.
  split; [exact Hrun|]. split; [exact Hin|]. split; [|auto].
  unfold np_random_choice in Hrun. rewrite Hok in Hrun. simpl in Hrun.
  unfold random_random, bind, draw, ret, lift in Hrun.
  destruct (entropy w) as [|x tape] eqn:E;
    match type of Hrun with
    | context [nth_error ?l ?i] => destruct (nth_error l i)
    end; try discriminate Hrun;
    injection Hrun as _ <-; [exact E | reflexivity].
Qed.

Lemma weighted_choice_returns_key_witness :
  CHANNELS <> [] /\
  Forall (fun kv => (0 <= snd kv)%Q) CHANNELS /\
  (Qsum (map snd CHANNELS) == 1)%Q /\
  exists k w',
    weighted_choice CHANNELS (empty_world [7]) = Some (k, w') /\
    In k (map fst CHANNELS) /\
    entropy w' = tl (entropy (empty_world [7])) /\
    users w' = users (empty_world [7]) /\
    events w' = events (empty_world [7]) /\
    subscriptions w' = subscriptions (empty_world [7]).
Proof.
  assert (Hpos : Forall (fun kv => (0 <= snd kv)%Q) CHANNELS)
    by (repeat constructor; apply Qle_bool_iff; reflexivity).
  split; [discriminate|]. split; [exact Hpos|]. split; [reflexivity|].
  apply (weighted_choice_returns_key CHANNELS (empty_world [7]));
    [discriminate | exact Hpos | reflexivity].
Defined.

Lemma timestamp_offset_window (now n_days : Z) :
  0 <= n_days ->
  Emits (d <- randint 0 n_days ;; m <- randint 0 1440 ;;
         ret (now - timedelta d 0 m))
    (fun ts e => e = [] /\ now - days (n_days + 1) <= ts <= now).
Proof.
  intros Hn. emit_steps. split; [reflexivity|]. unfold_time. lia.
Qed.

(** X11. For a lookback of [n >= 0] days the sampled timestamp is never
    after the clock reading it starts from and at most [n] days and 1440
    minutes before it: the window is one day longer than [n] days. *)
Theorem random_timestamp_window (n_days : Z) (w : World) :
  0 <= n_days ->
  exists now w0 ts w',
    datetime_now w = Some (now, w0) /\
    random_timestamp_within_last_n_days n_days w = Some (ts, w') /\
    now - days (n_days + 1) <= ts <= now /\
    users w' = users w /\ events w' = events w /\
    subscriptions w' = subscriptions w.
Proof.
  intros Hn. unfold datetime_now.
  destruct (draw_quiet w) as (now & w0 & ? & Hrun & Hu & Hs & He & -> & _).
  rewrite app_nil_r in He.
  destruct (timestamp_offset_window now n_days Hn w0)
    as (ts & w' & ? & Hrun' & Hu' & Hs' & He' & -> & Hts).
  rewrite app_nil_r in He'.
  exists now, w0, ts, w'. split; [exact Hrun|]. split.
  - unfold random_timestamp_within_last_n_days, datetime_now.
    rewrite (bind_run _ _ _ _ _ Hrun). exact Hrun'.
  - split; [exact Hts|]. repeat split; congruence.
Qed.

Lemma random_timestamp_window_witness :
  0 <= 90 /\
  exists now w0 ts w',
    datetime_now (empty_world [1000; 90; 1440]) = Some (now, w0) /\
    random_timestamp_within_last_n_days 90 (empty_world [1000; 90; 1440]) =
      Some (ts, w') /\
    now - days (90 + 1) <= ts <= now /\
    users w' = users (empty_world [1000; 90; 1440]) /\
    events w' = events (empty_world [1000; 90; 1440]) /\
    subscriptions w' = subscriptions (empty_world [1000; 90; 1440]).
Proof.
  split; [lia|].
  apply (random_timestamp_window 90 (empty_world [1000; 90; 1440])). lia.
Defined.

(** X12. [generate_user] never fails and writes nothing.  The user it
    returns carries the identifier it was given, a channel, device, country
    and company size that are keys of the configured tables, a persona of
    [PERSONAS], and a signup timestamp at most 91 days before the clock
    reading of the call and never after it. *)
Theorem generate_user_attributes (uid : Z) (w : World) :
  exists now w0 u w',
    datetime_now w = Some (now, w0) /\
    generate_user uid w = Some (u, w') /\
    user_id u = uid /\
    In (acquisition_channel u) (map fst CHANNELS) /\
    In (device u) (map fst DEVICES) /\
    In (country u) (map fst COUNTRIES) /\
    In (company_size u) (map fst COMPANY_SIZES) /\
    In (persona u) PERSONAS /\
    now - days 91 <= signup_ts u <= now /\
    users w' = users w /\ events w' = events w /\
    subscriptions w' = subscriptions w.
Proof.
  destruct (draw_quiet w) as (now & w0 & ? & Hnow & Hu0 & Hs0 & He0 & -> & _).
  rewrite app_nil_r in He0.
  destruct (timestamp_offset_window now DAYS_LOOKBACK
              ltac:(unfold DAYS_LOOKBACK; lia) w0)
    as (ts & w1 & ? & Hrun0 & Hu1 & Hs1 & He1 & -> & Hts).
  rewrite app_nil_r in He1.
  assert (Hrun : random_timestamp_within_last_n_days DAYS_LOOKBACK w = Some (ts, w1)).
  { unfold random_timestamp_within_last_n_days, datetime_now.
    rewrite (bind_run _ _ _ _ _ Hnow). exact Hrun0. }
  assert (Hu : users w1 = users w) by congruence.
  assert (He : events w1 = events w) by congruence.
  assert (Hs : subscriptions w1 = subscriptions w) by congruence.
  assert (Hrest :
            Emits (channel <- weighted_choice CHANNELS ;;
                   dev <- weighted_choice DEVICES ;;
                   ctry <- weighted_choice COUNTRIES ;;
                   size <- weighted_choice COMPANY_SIZES ;;
                   pers <- random_choice PERSONAS ;;
                   r <- random_random ;;
                   ret (mkUser uid ts channel dev ctry size pers (Qltb r 0.65%Q)))
              (fun u e =>
                 e = [] /\ user_id u = uid /\ signup_ts u = ts /\
                 In (acquisition_channel u) (map fst CHANNELS) /\
                 In (device u) (map fst DEVICES) /\
                 In (country u) (map fst COUNTRIES) /\
                 In (company_size u) (map fst COMPANY_SIZES) /\
                 In (persona u) PERSONAS)).
  { unfold weighted_choice. emit_steps. simpl. auto 10. }
  destruct (Hrest w1)
    as (u & w' & ? & Hrun' & Hu' & Hs' & He' & -> & Huid & Hsig & Hattrs).
  rewrite app_nil_r in He'.
  exists now, w0, u, w'. split; [exact Hnow|]. split.
  - unfold generate_user. rewrite (bind_run _ _ _ _ _ Hrun). exact Hrun'.
  - split; [exact Huid|]. rewrite Hsig. unfold DAYS_LOOKBACK in Hts.
    replace (90 + 1) with 91 in Hts by lia.
    repeat split; try tauto; try lia; congruence.
Qed.

(* ------------------------------------------------------------------ *)
(** ** Further properties: the three tables *)

(** X13. Whatever the tape, [generate_data] returns; its users table holds
    exactly [NUM_USERS] users whose identifiers are 1, 2, ..., [NUM_USERS]
    in this order, each with attributes from the configured sets. *)
Theorem users_table_complete (tape : list Z) :
  exists w',
    generate_data (empty_world tape) = Some (tt, w') /\
    map user_id (users w') = range 1 (NUM_USERS + 1) /\
    Z.of_nat (List.length (users w')) = NUM_USERS /\
    Forall (fun u => valid_user u = true) (users w').
Proof.
  unfold generate_data.
  destruct (generate_users_spec (range 1 (NUM_USERS + 1)) (empty_world tape))
    as (runs & w' & Hrun & Hchain).
  exists w'. split; [exact Hrun|].
  destruct (chain_outputs _ _ _ _ Hchain) as (Hu & _ & _ & Hids & Hall).
  simpl in Hu. rewrite Hu, map_map. split; [exact Hids|]. split.
  - rewrite length_map, <- (length_map (fun r => user_id (ur_user r))), Hids.
    rewrite range_length; unfold NUM_USERS; lia.
  - apply Forall_map. eapply Forall_impl; [|exact Hall].
    cbv beta. intros r HOK. apply HOK.
Qed.

(** X14. Referential integrity of the dataset: every event and every
    subscription record carries the identifier of a user of the users
    table, and there are never more subscription records than users. *)
Theorem dataset_references_users (tape : list Z) :
  exists w',
    generate_data (empty_world tape) = Some (tt, w') /\
    (forall e, In e (events w') ->
               exists u, In u (users w') /\ user_id u = ev_user_id e) /\
    (forall s, In s (subscriptions w') ->
               exists u, In u (users w') /\ user_id u = sub_user_id s) /\
    (List.length (subscriptions w') <= List.length (users w'))%nat.
Proof.
  unfold generate_data.
  destruct (generate_users_spec (range 1 (NUM_USERS + 1)) (empty_world tape))
    as (runs & w' & Hrun & Hchain).
  exists w'. split; [exact Hrun|].
  destruct (chain_outputs _ _ _ _ Hchain) as (Hu & He & Hs & _ & Hall).
  simpl in Hu, He, Hs. rewrite Hu, He, Hs.
  rewrite Forall_forall in Hall. split; [|split].
  - intros e Hin. apply in_flat_map in Hin. destruct Hin as (r & Hr & Hin).
    exists (ur_user r). split; [apply in_map, Hr|].
    pose proof (UserRunOK_events _ _ (Hall r Hr)) as Hev.
    rewrite Forall_forall in Hev. symmetry. apply Hev, Hin.
  - intros s Hin. apply in_flat_map in Hin. destruct Hin as (r & Hr & Hin).
    exists (ur_user r). split; [apply in_map, Hr|].
    destruct (UserRunOK_record _ _ (Hall r Hr)) as (_ & _ & Hsub).
    rewrite Forall_forall in Hsub. symmetry. apply Hsub, Hin.
  - rewrite length_map. clear - Hall.
    induction runs as [|r runs IH]; simpl; [lia|].
    rewrite length_app.
    destruct (UserRunOK_record _ _ (Hall r (or_introl eq_refl))) as (Hlen & _).
    assert (IH' : (List.length (flat_map ur_subs runs) <= List.length runs)%nat).
    { apply IH. intros x Hx. apply Hall. right. exact Hx. }
    lia.
Qed.

(* ------------------------------------------------------------------ *)
(** ** Further properties: counting the events of a journey *)

Lemma Emits_conj {A} (c : M A) (R1 R2 : A -> list Event -> Prop) :
  Emits c R1 -> Emits c R2 -> Emits c (fun a e => R1 a e /\ R2 a e).
Proof.
  intros H1 H2 w.
  destruct (H1 w) as (a & w' & e & Hrun & Hu & Hs & He & HR1).
  destruct (H2 w) as (a2 & w2 & e2 & Hrun2 & _ & _ & He2 & HR2).
  rewrite Hrun in Hrun2. injection Hrun2 as <- <-.
  rewrite He in He2. apply app_inv_head in He2. subst e2.
  exists a, w', e. auto 6.
Qed.

(** What a specification says of a run that is known. *)
Lemma Emits_run {A} (c : M A) (R : A -> list Event -> Prop) w a w' :
  Emits c R -> c w = Some (a, w') ->
  exists evs, events w' = events w ++ evs /\ R a evs.
Proof.
  intros H Hrun. destruct (H w) as (a1 & w1 & e & Hrun1 & _ & _ & He & HR).
  rewrite Hrun in Hrun1. injection Hrun1 as <- <-. eauto.
Qed.

Lemma count_nil n : count n [] = 0.
Proof. reflexivity. Qed.

Lemma count_cons n e evs : count n (e :: evs) = b2z (named n e) + count n evs.
Proof.
  unfold count, b2z. cbn [filter]. destruct (named n e); cbn [List.length];
    rewrite ?Nat2Z.inj_succ; lia.
Qed.

Lemma count_app n e1 e2 : count n (e1 ++ e2) = count n e1 + count n e2.
Proof.
  unfold count. rewrite filter_app, length_app. lia.
Qed.

Lemma count_nonneg n evs : 0 <= count n evs.
Proof. unfold count. lia. Qed.

Lemma size_nonneg evs : 0 <= size evs.
Proof. unfold size. lia. Qed.

Lemma size_nil : size [] = 0.
Proof. reflexivity. Qed.

Lemma size_cons e evs : size (e :: evs) = 1 + size evs.
Proof. unfold size. cbn [List.length]. rewrite Nat2Z.inj_succ. lia. Qed.

Lemma size_app e1 e2 : size (e1 ++ e2) = size e1 + size e2.
Proof. unfold size. rewrite length_app. lia. Qed.

Lemma only_app names e1 e2 :
  only names (e1 ++ e2) = only names e1 && only names e2.
Proof. apply forallb_app. Qed.

Lemma only_count_zero names n evs :
  only names evs = true -> str_in n names = false -> count n evs = 0.
Proof.
  intros Hall Hn. unfold count.
  replace (filter (named n) evs) with (@nil Event); [reflexivity|].
  symmetry. apply filter_none.
  unfold only in Hall. rewrite forallb_forall in Hall.
  apply Forall_forall. intros e He. specialize (Hall e He).
  unfold named. destruct (String.eqb_spec (event_name e) n) as [E|E]; [|reflexivity].
  congruence.
Qed.

Lemma count_le_size n evs : count n evs <= size evs.
Proof.
  unfold count, size. pose proof (filter_length_le (named n) evs). lia.
Qed.

Lemma Tally_trans k1 c1 k2 c2 j e1 j1 e2 j2 :
  Tally k1 c1 j e1 j1 -> Tally k2 c2 j1 e2 j2 ->
  Tally (k1 + k2) (c1 + c2) j (e1 ++ e2) j2.
Proof.
  unfold Tally. rewrite !count_app, size_app.
  pose proof (count_nonneg "onboarding_start" e1).
  pose proof (count_nonneg "onboarding_start" e2).
  pose proof (count_nonneg "trial_start" e1).
  pose proof (count_nonneg "trial_start" e2).
  intros T1 T2. repeat split; try lia.
Qed.

Lemma Span_trans d1 d2 c c1 c2 :
  Span d1 c c1 -> Span d2 c1 c2 -> Span (d1 + d2) c c2.
Proof.
  unfold Span, us_per_minute. lia.
Qed.

(** Events that are no milestone of the funnel leave the tally alone. *)
Lemma Tally_noise names evs j :
  only names evs = true ->
  forallb (fun n => negb (str_in n names))
    ["signup"; "email_verified"; "onboarding_start"; "onboarding_complete";
     "create_first_project"; "invite_teammate"; "connect_integration";
     "trial_start"; "subscription_created"; "checkout_start";
     "payment_failed"] = true ->
  Tally 0 (size evs) j evs j.
Proof.
  intros Hall Hdis. simpl in Hdis.
  repeat (apply andb_true_iff in Hdis; destruct Hdis as [?H Hdis]).
  repeat match goal with
         | H : negb (str_in ?n names) = true |- _ =>
             apply negb_true_iff in H;
             pose proof (only_count_zero names n evs Hall H); clear H
         end.
  unfold Tally. repeat split; lia.
Qed.

Section ForInCounted.

Context {X V : Type}.
Variable body : X -> V -> M (Flow * V).
Variable Inv : Z -> V -> list Event -> V -> Prop.
Hypothesis Inv_zero : forall v, Inv 0 v [] v.
Hypothesis Inv_add : forall a b v1 e1 v2 e2 v3,
    Inv a v1 e1 v2 -> Inv b v2 e2 v3 -> Inv (a + b) v1 (e1 ++ e2) v3.

(** A loop that never breaks runs its body once per element. *)
Lemma Emits_for_in_counted (xs : list X) :
  (forall x v, Emits (body x v) (fun r e => fst r = Continue /\ Inv 1 v e (snd r))) ->
  forall v, Emits (for_in xs body v)
              (fun v' e => Inv (Z.of_nat (List.length xs)) v e v').
Proof.
  intros Hbody. induction xs as [|x xs IH]; intros v.
  - apply Emits_ret, Inv_zero.
  - simpl for_in. eapply Emits_bind; [apply Hbody|].
    cbv beta. intros [f v1] e1 [Hf H1]. cbn [fst snd] in *. subst f.
    eapply Emits_mono; [apply IH|]. cbv beta. intros v2 e2 H2.
    cbn [List.length].
    replace (Z.of_nat (S (List.length xs))) with (1 + Z.of_nat (List.length xs)) by lia.
    eapply Inv_add; eassumption.
Qed.

End ForInCounted.

Lemma NoiseRun_zero names m t : NoiseRun names m 0 t [] t.
Proof. unfold NoiseRun. repeat split; lia. Qed.

Lemma NoiseRun_add names m a b t1 e1 t2 e2 t3 :
  NoiseRun names m a t1 e1 t2 -> NoiseRun names m b t2 e2 t3 ->
  NoiseRun names m (a + b) t1 (e1 ++ e2) t3.
Proof.
  unfold NoiseRun. rewrite only_app, size_app.
  intros (-> & <- & H1) (-> & <- & H2). repeat split; lia.
Qed.

Lemma Tally_refl j : Tally 0 0 j [] j.
Proof.
  unfold Tally. rewrite !count_nil, size_nil. repeat split; lia.
Qed.

Lemma Tally_weaken k c c' j evs j' :
  c <= c' -> Tally k c j evs j' -> Tally k c' j evs j'.
Proof.
  unfold Tally. intros Hc H. decompose [and] H. clear H.
  repeat split; try assumption; try lia.
  all: match goal with H : _ -> _ /\ _ |- _ => apply H; assumption end.
Qed.

Lemma Span_weaken d d' c c' : d <= d' -> Span d c c' -> Span d' c c'.
Proof.
  unfold Span, us_per_minute. lia.
Qed.

(** Close the obligations of a concrete stretch of events. *)
Ltac ledger_leaf :=
  unfold Tally, Span, NoiseRun in *; cbn [fst snd] in *;
  rewrite ?count_cons, ?count_nil, ?size_cons, ?size_nil;
  unfold named, budget, tbudget, us_per_minute in *;
  cbn [event_name String.eqb Ascii.eqb Bool.eqb b2z activated value_moment
       trial_started subscribed js_subscription_start_ts set_activated
       set_value_moment set_trial_started set_subscribed];
  repeat split; intros; try lia; try reflexivity.

Section Ledgers.

Variable u : User.
Variable sid : string.
Hypothesis u_valid : valid_user u = true.

Lemma browsing_noise_ledger ref t :
  Emits (browsing_noise u sid ref t)
    (fun t' evs => exists n, 1 <= n <= 4 /\
                             NoiseRun BROWSING_EVENTS 20 n t evs t').
Proof.
  unfold browsing_noise. emit_step.
  eapply Emits_mono.
  - apply (Emits_for_in_counted _ (NoiseRun BROWSING_EVENTS 20)
             (NoiseRun_zero _ _) (NoiseRun_add _ _)).
    intros _ v. emit_steps. simpl. split; [reflexivity|].
    unfold NoiseRun. rewrite size_cons, size_nil.
    in_cases Hx0; (split; [reflexivity|]); (split; [reflexivity|]);
      unfold us_per_minute in *; lia.
  - cbv beta. intros t' evs H. exists x.
    rewrite range_length in H by (in_cases Hx; lia).
    replace (x - 0) with x in H by lia.
    split; [in_cases Hx; lia | exact H].
Qed.

Lemma usage_noise_ledger (n : Z) t :
  0 <= n ->
  Emits
    (for_in (range 0 n)
       (fun _ t =>
          pe <- random_choice PRODUCT_EVENTS ;;
          add_event (user_id u) t pe sid (Some "/app") None None ;;
          t <- advance 1 25 t ;;
          ret (Continue, t)) t)
    (fun t' evs => NoiseRun PRODUCT_EVENTS 25 n t evs t').
Proof.
  intros Hn. eapply Emits_mono.
  - apply (Emits_for_in_counted _ (NoiseRun PRODUCT_EVENTS 25)
             (NoiseRun_zero _ _) (NoiseRun_add _ _)).
    intros _ v. emit_steps. simpl. split; [reflexivity|].
    unfold NoiseRun. rewrite size_cons, size_nil.
    in_cases Hx; (split; [reflexivity|]); (split; [reflexivity|]);
      unfold us_per_minute in *; lia.
  - cbv beta. intros t' evs H. rewrite range_length in H by lia.
    replace (n - 0) with n in H by lia. exact H.
Qed.

Lemma signup_flow_ledger ref t :
  Emits (signup_flow u sid ref t)
    (fun t' evs =>
       (forall j, Tally 1 4 j evs j) /\ t' - t <= 150 * us_per_minute).
Proof.
  destruct (onboarding_start_probability_total _ (valid_user_channel _ u_valid))
    as [p Hp].
  unfold signup_flow. emit_steps.
  all: eapply Emits_bind_lift; [exact Hp|].
  all: emit_steps.
  all: split; [intros j|]; ledger_leaf.
Qed.

Lemma value_moment_step_ledger t j :
  activated j = true -> value_moment j = false ->
  Emits (value_moment_step u sid (t, j))
    (fun c' evs => Tally 0 1 j evs (snd c') /\ Span 45 (t, j) c').
Proof.
  intros Hact Hvm.
  destruct (value_moment_probability_total _ (valid_user_persona _ u_valid))
    as [p Hp].
  destruct j as [a v tr sb st]. simpl in Hact, Hvm. subst a v.
  unfold value_moment_step. emit_step.
  eapply Emits_bind_lift; [exact Hp|].
  emit_steps.
  all: split; destruct tr, sb; ledger_leaf.
Qed.

Lemma retention_proxy_ledger t j :
  Emits (retention_proxy u sid (t, j))
    (fun c' evs => Tally 0 1 j evs (snd c') /\ Span 20 (t, j) c').
Proof.
  destruct j as [a v tr sb st].
  unfold retention_proxy. emit_steps.
  all: split; destruct a, v, tr, sb; ledger_leaf.
Qed.

Lemma try_activate_ledger t j :
  flags_ok j ->
  Emits (try_activate u sid (t, j))
    (fun c' evs => Tally 0 0 j evs (snd c') /\ Span 0 (t, j) c').
Proof.
  intros Hok.
  destruct (activation_probability_total _ (device u) (persona u)
              (company_size u) (valid_user_channel _ u_valid)) as [p Hp].
  unfold try_activate.
  destruct (activated j) eqn:Hact; simpl negb; cbv iota.
  { apply Emits_ret. split; [apply Tally_refl | unfold Span, us_per_minute; lia]. }
  assert (Hvm : value_moment j = false).
  { unfold flags_ok in Hok. destruct (value_moment j); [|reflexivity].
    specialize (Hok eq_refl). congruence. }
  emit_step. eapply Emits_bind_lift; [exact Hp|].
  emit_step;
    [|apply Emits_ret; split; [apply Tally_refl | unfold Span, us_per_minute; lia]].
  emit_steps.
  assert (Hx' : 1 <= x <= 4) by (in_cases Hx; lia).
  eapply Emits_bind; [apply usage_noise_ledger; lia|].
  cbv beta. intros t1 e1 (Honly & Hsize & Hclock).
  eapply Emits_mono;
    [apply (value_moment_step_ledger t1 (set_activated j)); [reflexivity | exact Hvm]|].
  cbv beta. intros c' e2 [T3 S3].
  assert (T1 : Tally 0 (-5) j
                 [mkEvent eid (user_id u) t sid "create_first_project"
                    (or_empty (Some "/app/new_project")) (or_empty None) "{}"]
                 (set_activated j)).
  { destruct j as [a v tr sb st]. simpl in Hact, Hvm. subst a v.
    destruct tr, sb; ledger_leaf. }
  assert (T2 : Tally 0 4 (set_activated j) e1 (set_activated j)).
  { apply (Tally_weaken 0 (size e1)); [lia|].
    apply (Tally_noise PRODUCT_EVENTS); [exact Honly | reflexivity]. }
  assert (S1 : Span (-145) (t, j) (t0, set_activated j)).
  { destruct j as [a v tr sb st]. simpl in Hact. subst a.
    unfold Span, tbudget, us_per_minute in *. cbn. destruct tr; lia. }
  assert (S2 : Span 100 (t0, set_activated j) (t1, set_activated j)).
  { unfold Span, us_per_minute in *. cbn [fst snd]. nia. }
  split.
  - apply (Tally_trans 0 (-5) 0 5 j [_] (set_activated j)); [exact T1|].
    apply (Tally_trans 0 4 0 1 _ e1 (set_activated j)); assumption.
  - apply (Span_trans (-145) 145 _ (t0, set_activated j)); [exact S1|].
    apply (Span_trans 100 45 _ (t1, set_activated j)); assumption.
Qed.

Lemma checkout_attempt_ledger i t j :
  Emits (checkout_attempt u sid i (t, j))
    (fun r evs => CheckoutRun 1 (t, j) evs (snd r)).
Proof.
  destruct j as [a v tr sb st]. unfold checkout_attempt.
  destruct sb; simpl negb; cbv iota; emit_steps.
  all: unfold CheckoutRun; cbn [fst snd];
    rewrite ?count_cons, ?count_nil, ?size_cons, ?size_nil;
    unfold named, us_per_minute in *;
    cbn [event_name String.eqb Ascii.eqb Bool.eqb b2z activated value_moment
         trial_started subscribed set_subscribed];
    repeat split; intros; try lia; try reflexivity.
Qed.

Lemma CheckoutRun_weaken n m c evs c' :
  n <= m -> 0 < n -> CheckoutRun n c evs c' -> CheckoutRun m c evs c'.
Proof.
  unfold CheckoutRun, us_per_minute. intros Hnm Hn H.
  decompose [and] H. clear H. repeat split; try assumption; try lia.
Qed.

Lemma CheckoutRun_add n m c e1 c1 e2 c2 :
  0 < n -> 0 <= m ->
  CheckoutRun n c e1 c1 -> CheckoutRun m c1 e2 c2 ->
  CheckoutRun (n + m) c (e1 ++ e2) c2.
Proof.
  unfold CheckoutRun, us_per_minute. rewrite only_app, !count_app, size_app.
  intros Hn Hm H1 H2.
  decompose [and] H1. decompose [and] H2. clear H1 H2.
  pose proof (count_nonneg "checkout_start" e2).
  repeat split; try congruence; try lia.
  all: try (apply andb_true_iff; split; assumption).
  all: try (intros _; assert (1 <= count "checkout_start" e1) by auto; lia).
Qed.

Lemma checkout_loop_ledger (m : nat) : forall lo hi t j,
  lo <= hi -> Z.to_nat (hi - lo) = m ->
  Emits (for_in (range lo hi) (checkout_attempt u sid) (t, j))
    (fun c' evs => CheckoutRun (hi - lo) (t, j) evs c').
Proof.
  induction m as [|m IH]; intros lo hi t j Hle Hm.
  - rewrite range_nil by lia. apply Emits_ret.
    replace (hi - lo) with 0 by lia.
    unfold CheckoutRun, us_per_minute. cbn [fst snd].
    rewrite !count_nil, size_nil. repeat split; try lia; try reflexivity.
  - rewrite range_cons by lia. simpl for_in.
    eapply Emits_bind; [apply checkout_attempt_ledger|].
    cbv beta. intros [f c1] e1 H1. cbn [fst snd] in *. destruct f.
    + destruct c1 as [t1 j1].
      eapply Emits_mono; [apply (IH (lo + 1) hi t1 j1); lia|].
      cbv beta. intros c2 e2 H2.
      replace (hi - lo) with (1 + (hi - (lo + 1))) by lia.
      eapply CheckoutRun_add; try eassumption; lia.
    + apply Emits_ret. rewrite app_nil_r.
      apply (CheckoutRun_weaken 1); [lia | lia | exact H1].
Qed.

Lemma try_trial_ledger t j :
  Emits (try_trial u sid (t, j))
    (fun c' evs => Tally 0 0 j evs (snd c') /\ Span 0 (t, j) c').
Proof.
  unfold try_trial.
  destruct (trial_started j) eqn:Htr; simpl negb; cbv iota.
  { apply Emits_ret. split; [apply Tally_refl | unfold Span, us_per_minute; lia]. }
  emit_step.
  emit_step;
    [|apply Emits_ret; split; [apply Tally_refl | unfold Span, us_per_minute; lia]].
  emit_steps.
  assert (Hx' : 1 <= x <= 3) by (in_cases Hx; lia).
  eapply Emits_mono;
    [apply (checkout_loop_ledger (Z.to_nat (x - 0)) 0 x); [lia | reflexivity]|].
  cbv beta. intros [t1 j1] evs HR.
  unfold CheckoutRun in HR. cbn [fst snd] in HR.
  destruct HR as (Honly & Hk1 & Hk2 & Hout & Hsc & Hact & Hvm & Htr' & Hsize & Hclock).
  pose proof (only_count_zero _ "signup" _ Honly eq_refl).
  pose proof (only_count_zero _ "email_verified" _ Honly eq_refl).
  pose proof (only_count_zero _ "onboarding_start" _ Honly eq_refl).
  pose proof (only_count_zero _ "onboarding_complete" _ Honly eq_refl).
  pose proof (only_count_zero _ "create_first_project" _ Honly eq_refl).
  pose proof (only_count_zero _ "invite_teammate" _ Honly eq_refl).
  pose proof (only_count_zero _ "connect_integration" _ Honly eq_refl).
  pose proof (only_count_zero _ "trial_start" _ Honly eq_refl).
  pose proof (count_nonneg "payment_failed" evs).
  pose proof (count_nonneg "subscription_created" evs).
  destruct j as [a v tr sb st]. destruct j1 as [a1 v1 tr1 sb1 st1].
  simpl in Htr, Hact, Hvm, Htr', Hsc. subst tr a1 v1 tr1.
  unfold Tally, Span. cbn [fst snd].
  rewrite !count_cons, size_cons.
  unfold named, budget, tbudget, us_per_minute in *.
  cbn [event_name String.eqb Ascii.eqb Bool.eqb b2z activated value_moment
       trial_started subscribed].
  destruct a, v, sb, sb1; cbn [b2z] in *; repeat split; intros; lia.
Qed.

Lemma session_events_ledger s ref start j :
  flags_ok j ->
  Emits (session_events u s sid ref start j)
    (fun c' evs =>
       let k := if s =? 0 then 1 else 0 in
       Tally k (5 + 4 * k) j evs (snd c') /\
       Span (100 + 150 * k) (start, j) c' /\
       k + 1 <= size evs /\
       exists e rest, evs = e :: rest /\ In (event_name e) BROWSING_EVENTS).
Proof.
  intros Hok. unfold session_events.
  eapply Emits_bind; [apply browsing_noise_ledger|].
  cbv beta. intros t1 e1 (n & Hn & Honly & Hsize & Hclock).
  eapply Emits_bind
    with (R1 := fun t' evs =>
                  let k := if s =? 0 then 1 else 0 in
                  (forall j0, Tally k (4 * k) j0 evs j0) /\
                  t' - t1 <= 150 * k * us_per_minute /\ k <= size evs).
  { destruct (s =? 0).
    - eapply Emits_mono; [apply signup_flow_ledger|].
      cbv beta. intros t' evs [HT Hc]. split; [exact HT|]. split; [lia|].
      specialize (HT j). unfold Tally in HT.
      pose proof (count_le_size "signup" evs). lia.
    - apply Emits_ret. cbv zeta. split; [intros; apply Tally_refl|].
      rewrite size_nil. unfold us_per_minute. lia. }
  cbv beta zeta. intros t2 e2 (T2 & C2 & L2).
  eapply Emits_bind; [apply try_activate_ledger, Hok|].
  cbv beta. intros [t3 j3] e3 [T3 S3].
  eapply Emits_bind; [apply try_trial_ledger|].
  cbv beta. intros [t4 j4] e4 [T4 S4].
  eapply Emits_mono; [apply retention_proxy_ledger|].
  cbv beta zeta. intros [t5 j5] e5 [T5 S5]. cbn [fst snd] in *.
  set (k := if s =? 0 then 1 else 0) in *.
  assert (T1 : Tally 0 4 j e1 j).
  { apply (Tally_weaken 0 (size e1)); [lia|].
    apply (Tally_noise BROWSING_EVENTS); [exact Honly | reflexivity]. }
  split; [|split; [|split]].
  - replace k with (0 + (k + (0 + (0 + 0)))) at 1 by lia.
    replace (5 + 4 * k) with (4 + (4 * k + (0 + (0 + 1)))) by lia.
    apply (Tally_trans _ _ _ _ j e1 j); [exact T1|].
    apply (Tally_trans _ _ _ _ j e2 j); [apply T2|].
    apply (Tally_trans _ _ _ _ j e3 j3); [exact T3|].
    apply (Tally_trans _ _ _ _ j3 e4 j4); [exact T4 | exact T5].
  - unfold Span, us_per_minute in *. cbn [fst snd] in *. nia.
  - rewrite !size_app. pose proof (size_nonneg e3).
    pose proof (size_nonneg e4). pose proof (size_nonneg e5). lia.
  - destruct e1 as [|e rest]; [rewrite size_nil in Hsize; lia|].
    exists e. eexists. split; [reflexivity|].
    unfold only in Honly. simpl in Honly.
    apply andb_true_iff in Honly. apply str_in_In, Honly.
Qed.

End Ledgers.

Lemma flags_ok_b2z j :
  flags_ok j <-> b2z (value_moment j) <= b2z (activated j).
Proof.
  unfold flags_ok. destruct (value_moment j), (activated j); simpl;
    intuition (try lia; try congruence).
Qed.

Lemma Tally_flags_ok k c j evs j' :
  Tally k c j evs j' -> flags_ok j -> flags_ok j'.
Proof.
  unfold Tally. intros H Hok. apply flags_ok_b2z in Hok. apply flags_ok_b2z.
  decompose [and] H. clear H.
  match goal with H : _ -> _ /\ _ |- _ => apply H; assumption end.
Qed.

Lemma session_run_ledger u t0 s j w l j' w' :
  valid_user u = true -> flags_ok j ->
  session_run u t0 s j w l j' w' ->
  let k := if s =? 0 then 1 else 0 in
  Tally k (5 + 4 * k) j (sl_events l) j' /\
  k + 1 <= size (sl_events l) /\
  SessionSpan u l.
Proof.
  intros Hval Hok (wa & wb & wc & ref & c & H1 & H2 & H3 & H4 & -> & Hb & He).
  destruct (Emits_run _ _ _ _ _ (session_start_time_spec t0) H1)
    as (x1 & E1 & -> & _).
  destruct (Emits_run _ _ _ _ _ fresh_session_id_quiet H2)
    as (x2 & E2 & -> & _).
  destruct (Emits_run _ _ _ _ _ (pick_referrer_quiet _) H3)
    as (x3 & E3 & -> & _).
  rewrite app_nil_r in E1, E2, E3.
  destruct (Emits_run _ _ _ _ _
              (Emits_conj _ _ _
                 (session_events_spec u (sl_id l) Hval s ref (sl_start l) j)
                 (session_events_ledger u (sl_id l) Hval s ref (sl_start l) j Hok))
              H4)
    as (evs & E4 & ([HC HF] & e0 & rest0 & Hev0 & Hts0) & HT & HS & HL & Hhead).
  assert (evs = sl_events l) as ->.
  { rewrite E3, E2, E1, He in E4. apply app_inv_head in E4. congruence. }
  cbv zeta in *. split; [exact HT|]. split; [exact HL|]. split.
  - destruct Hhead as (e & rest & Hev & Hname). rewrite Hev in Hev0.
    injection Hev0 as <- <-. exists e, rest. auto.
  - exists (fst c). split; [exact HC|].
    unfold Span, tbudget, us_per_minute in HS. cbn [fst snd] in HS.
    unfold minutes, timedelta, us_per_minute, us_per_hour, us_per_day.
    destruct (activated j), (trial_started j), (activated (snd c)),
      (trial_started (snd c)), (s =? 0); lia.
Qed.

Lemma session_chain_ledger u t0 (xs : list Z) :
  valid_user u = true ->
  forall j w logs j' w',
    flags_ok j ->
    session_chain u t0 xs j w logs j' w' ->
    let n := Z.of_nat (List.length logs) in
    List.length logs = List.length xs /\
    Tally (first_passes xs) (5 * n + 4 * first_passes xs) j
      (flat_map sl_events logs) j' /\
    first_passes xs + n <= size (flat_map sl_events logs) /\
    Forall (SessionSpan u) logs.
Proof.
  intros Hval. unfold first_passes.
  induction xs as [|s xs IH]; intros j w [|l logs] j' w' Hok H; simpl in H;
    try contradiction.
  - destruct H as [-> ->]. cbn [List.length flat_map filter Z.of_nat].
    split; [reflexivity|]. split; [apply Tally_refl|].
    split; [rewrite size_nil; lia | constructor].
  - destruct H as (j1 & w1 & Hrun & Hchain).
    destruct (session_run_ledger _ _ _ _ _ _ _ _ Hval Hok Hrun) as (T1 & L1 & S1).
    pose proof (Tally_flags_ok _ _ _ _ _ T1 Hok) as Hok1.
    destruct (IH _ _ _ _ _ Hok1 Hchain) as (Hlen & T2 & L2 & S2).
    cbv zeta in *. cbn [List.length flat_map filter].
    rewrite size_app, Nat2Z.inj_succ.
    assert (Hk : Z.of_nat (List.length (if 0 =? s then s :: filter (Z.eqb 0) xs
                                        else filter (Z.eqb 0) xs)) =
                 (if s =? 0 then 1 else 0) +
                 Z.of_nat (List.length (filter (Z.eqb 0) xs))).
    { rewrite (Z.eqb_sym 0 s). destruct (s =? 0); cbn [List.length]; lia. }
    rewrite Hk. split; [congruence|]. split; [|split; [lia | auto]].
    eapply Tally_weaken; [|eapply Tally_trans; [exact T1 | exact T2]]. lia.
Qed.

Lemma In_range lo hi x : In x (range lo hi) -> lo <= x < hi.
Proof.
  unfold range. rewrite in_map_iff. intros (i & <- & Hi).
  apply in_seq in Hi. lia.
Qed.

Lemma first_passes_range n : 1 <= n -> first_passes (range 0 n) = 1.
Proof.
  intros Hn. unfold first_passes. rewrite range_cons by lia.
  cbn [filter Z.eqb]. rewrite filter_none; [reflexivity|].
  apply Forall_forall. intros x Hx. apply In_range in Hx.
  apply Z.eqb_neq. lia.
Qed.

Lemma roll_churn_shape u plan_name start p :
  churn_probability plan_name = Some p ->
  Emits (roll_churn u plan_name start)
    (fun churn evs =>
       map view evs = match churn with
                      | Some c => [("cancel_subscription", c)]
                      | None => []
                      end).
Proof.
  intros Hp. unfold roll_churn. emit_step.
  eapply Emits_bind_lift; [exact Hp|].
  emit_steps; reflexivity.
Qed.

Lemma retention_marker_shape u name n p churn start :
  Emits (retention_marker u name n p churn start)
    (fun _ evs =>
       exists b : bool,
         map view evs = if b then [(name, start + days n)] else []).
Proof.
  unfold retention_marker. emit_steps.
  - exists true. reflexivity.
  - exists false. reflexivity.
  - exists false. reflexivity.
Qed.

Lemma resolve_unsubscribed_shape u j :
  Emits (resolve_unsubscribed u j)
    (fun _ evs =>
       evs = [] \/
       activated j = true /\
       exists e, evs = [e] /\ event_name e = "active_day_7" /\
                 signup_ts u + days 7 <= event_ts e <=
                 signup_ts u + days 7 + minutes 600).
Proof.
  unfold resolve_unsubscribed.
  destruct (activated j); [|emit_steps; auto].
  emit_steps; auto.
  right. split; [reflexivity|]. eexists. split; [reflexivity|].
  split; [reflexivity|]. simpl. unfold_time. lia.
Qed.

Lemma resolve_shape u j w :
  exists w' post subs,
    resolve u j w = Some (tt, w') /\
    events w' = events w ++ post /\
    subscriptions w' = subscriptions w ++ subs /\
    MarkersOK u j post subs.
Proof.
  unfold resolve, MarkersOK. fold (owed_start j).
  destruct (owed_start j) as [start|].
  - unfold resolve_subscribed.
    destruct (churn_probability_total (company_size u)) as [p Hp].
    destruct (pick_plan (company_size u)) as [plan_name price]. simpl in Hp.
    destruct (roll_churn_shape u plan_name start p Hp w)
      as (churn & w1 & e1 & Hrun1 & Hu1 & Hs1 & He1 & Hv1).
    set (rec := mkSubscription (user_id u) plan_name (inject_Z price) "" start churn).
    set (w2 := mkWorld (entropy w1) (users w1) (events w1) (subscriptions w1 ++ [rec])).
    destruct (retention_marker_shape u "active_day_7" 7 0.60%Q churn start w2)
      as ([] & w3 & e2 & Hrun2 & Hu2 & Hs2 & He2 & b7 & Hv2).
    destruct (retention_marker_shape u "active_day_30" 30 0.45%Q churn start w3)
      as ([] & w4 & e3 & Hrun3 & Hu3 & Hs3 & He3 & b30 & Hv3).
    exists w4, (e1 ++ e2 ++ e3), [rec]. split.
    { unfold bind at 1. rewrite Hrun1.
      unfold bind at 1. unfold append_subscription. fold rec. fold w2.
      unfold bind. rewrite Hrun2. exact Hrun3. }
    subst w2. simpl in *. split; [|split].
    + rewrite He3, He2, He1, <- !app_assoc. reflexivity.
    + rewrite Hs3, Hs2, Hs1. reflexivity.
    + exists churn, b7, b30. split; [reflexivity|].
      rewrite !map_app, Hv1, Hv2, Hv3. reflexivity.
  - destruct (resolve_unsubscribed_shape u j w)
      as ([] & w' & post & Hrun & Hu & Hs & He & Hshape).
    exists w', post, []. rewrite app_nil_r. auto.
Qed.

(** Every iteration of the user loop adds up as [UserLedger] says. *)
Lemma runs_as_ledger uid w r w' : runs_as uid w r w' -> UserLedger r.
Proof.
  intros (w1 & w2 & n & wn & w3 & H1 & H2 & H3 & H4 & H5 & He & Hs & _).
  destruct (Emits_run _ _ _ _ _ (generate_user_spec uid) H1)
    as (x1 & _ & _ & _ & Hval).
  destruct (Emits_run _ _ _ _ _ draw_sessions_spec H3) as (x2 & _ & _ & Hn).
  assert (Hinit : flags_ok journey_init) by (intros H; discriminate H).
  destruct (session_chain_ledger _ _ _ Hval _ _ _ _ _ Hinit H4)
    as (Hlen & HT & HL & HS).
  cbv zeta in *.
  assert (Hlen' : Z.of_nat (List.length (ur_sessions r)) = n).
  { rewrite Hlen. pose proof (range_length 0 n ltac:(lia)). lia. }
  rewrite first_passes_range in HT, HL by lia.
  unfold UserLedger. cbv zeta. rewrite Hlen' in *.
  split; [exact Hval|]. split; [exact Hn|].
  split; [replace (5 * n + 4) with (5 * n + 4 * 1) by lia; exact HT|].
  split; [eapply Tally_flags_ok; eassumption|].
  split; [unfold ur_session_events; lia|].
  split; [exact HS|].
  destruct (resolve_shape (ur_user r) (ur_journey r) w3)
    as (w4 & post & subs & Hrun & He' & Hs' & HM).
  rewrite H5 in Hrun. injection Hrun as <-.
  rewrite He in He'. apply app_inv_head in He'.
  rewrite Hs in Hs'. apply app_inv_head in Hs'. subst post subs. exact HM.
Qed.

Lemma simulate_user_ledger uid w :
  exists r w', runs_as uid w r w' /\ UserRunOK uid r /\ UserLedger r.
Proof.
  destruct (simulate_user_spec uid w) as (r & w' & Hrun & HOK).
  exists r, w'. split; [exact Hrun|]. split; [exact HOK|].
  eapply runs_as_ledger, Hrun.
Qed.

Lemma Chrono_only uid sid evs : forall lo hi,
  Chrono uid sid lo evs hi -> only SESSION_EVENTS evs = true.
Proof.
  induction evs as [|e evs IH]; intros lo hi H; [reflexivity|].
  destruct H as ((_ & _ & Hn) & _ & H). unfold only. cbn [forallb].
  rewrite Hn. exact (IH _ _ H).
Qed.

Lemma sessions_only u logs :
  Forall (SessionSpan u) logs ->
  only SESSION_EVENTS (flat_map sl_events logs) = true.
Proof.
  induction 1 as [|l logs (_ & hi & HC & _) _ IH]; [reflexivity|].
  cbn [flat_map]. rewrite only_app, IH, (Chrono_only _ _ _ _ _ HC). reflexivity.
Qed.

Lemma count_view n evs :
  count n evs =
  Z.of_nat (List.length (filter (fun p => String.eqb (fst p) n) (map view evs))).
Proof.
  unfold count. f_equal.
  induction evs as [|e evs IH]; [reflexivity|].
  cbn [map filter]. unfold named at 1, view at 1. cbn [fst].
  destruct (String.eqb (event_name e) n); cbn [List.length]; congruence.
Qed.

Lemma size_view evs : size evs = Z.of_nat (List.length (map view evs)).
Proof. unfold size. rewrite length_map. reflexivity. Qed.

Lemma only_view names evs :
  only names evs = forallb (fun p => str_in (fst p) names) (map view evs).
Proof.
  unfold only. induction evs as [|e evs IH]; [reflexivity|].
  cbn [map forallb]. rewrite IH. reflexivity.
Qed.

Lemma MarkersOK_totals u j post subs :
  MarkersOK u j post subs ->
  only MARKER_EVENTS post = true /\
  count "active_day_7" post <= 1 /\
  match owed_start j with
  | Some _ =>
      List.length subs = 1%nat /\
      count "cancel_subscription" post <= 1 /\
      count "active_day_30" post <= 1 /\
      size post <= 3
  | None =>
      subs = [] /\
      count "cancel_subscription" post = 0 /\
      count "active_day_30" post = 0 /\
      count "active_day_7" post <= b2z (activated j) /\
      size post <= 1
  end.
Proof.
  unfold MarkersOK. destruct (owed_start j) as [start|].
  - intros (churn & b7 & b30 & -> & Hv).
    rewrite only_view, !count_view, size_view, Hv.
    destruct churn, b7, b30; cbn; repeat split; lia.
  - intros (-> & [->|(Hact & e & -> & Hn & _)]).
    + cbn. destruct (activated j); cbn; repeat split; lia.
    + rewrite Hact. unfold only. rewrite !count_cons, !count_nil, size_cons, size_nil.
      unfold named. cbn [forallb]. rewrite Hn. cbn. repeat split; lia.
Qed.

Lemma owed_start_subscribed j start :
  owed_start j = Some start -> subscribed j = true.
Proof. unfold owed_start. destruct (subscribed j); [auto | discriminate]. Qed.

Lemma UserLedger_totals uid r : UserRunOK uid r -> UserLedger r -> UserTotals r.
Proof.
  intros HOK (Hval & Hn & HT & Hok & HL & HS & HM).
  cbv zeta in *.
  pose proof (sessions_only _ _ HS) as Hses. fold (ur_session_events r) in Hses.
  destruct (UserRunOK_record _ _ HOK) as (Hlen & Hsub & _).
  apply MarkersOK_totals in HM. destruct HM as (Hmk & H7 & HM).
  assert (Hsubs : Z.of_nat (List.length (ur_subs r)) = b2z (subscribed (ur_journey r))).
  { destruct (subscribed (ur_journey r)) eqn:E; cbn.
    - destruct (ur_subs r) as [|s [|s' l]]; cbn in *; try lia.
      exfalso. exact (proj2 Hsub eq_refl eq_refl).
    - destruct (ur_subs r) as [|s l]; cbn; [reflexivity|].
      pose proof (proj1 Hsub ltac:(discriminate)). discriminate. }
  assert (Hm0 : forall n, str_in n MARKER_EVENTS = false -> count n (ur_markers r) = 0)
    by (intros n; apply only_count_zero, Hmk).
  assert (Hs0 : forall n, str_in n SESSION_EVENTS = false ->
                          count n (ur_session_events r) = 0)
    by (intros n; apply only_count_zero, Hses).
  pose proof (Hs0 "cancel_subscription" eq_refl) as Z1.
  pose proof (Hs0 "active_day_7" eq_refl) as Z2.
  pose proof (Hs0 "active_day_30" eq_refl) as Z3.
  pose proof (Hm0 "signup" eq_refl) as M1.
  pose proof (Hm0 "email_verified" eq_refl) as M2.
  pose proof (Hm0 "onboarding_start" eq_refl) as M3.
  pose proof (Hm0 "onboarding_complete" eq_refl) as M4.
  pose proof (Hm0 "create_first_project" eq_refl) as M5.
  pose proof (Hm0 "invite_teammate" eq_refl) as M6.
  pose proof (Hm0 "connect_integration" eq_refl) as M7.
  pose proof (Hm0 "trial_start" eq_refl) as M8.
  pose proof (Hm0 "subscription_created" eq_refl) as M9.
  pose proof (Hm0 "checkout_start" eq_refl) as M10.
  pose proof (Hm0 "payment_failed" eq_refl) as M11.
  clear Hm0 Hs0.
  pose proof (size_nonneg (ur_markers r)) as Hp.
  pose proof (count_nonneg "active_day_7" (ur_markers r)) as Hp7.
  unfold Tally, budget in HT. cbn [journey_init activated value_moment
    trial_started subscribed b2z] in HT.
  decompose [and] HT. clear HT.
  match goal with
  | H : 0 <= 0 -> _ /\ _ |- _ => destruct (H ltac:(lia)) as [Hvm Hvm']; clear H
  end.
  match goal with
  | H : 0 <= 0 -> _ |- _ => pose proof (H ltac:(lia)) as Hst; clear H
  end.
  unfold UserTotals. cbv zeta. unfold ur_events.
  rewrite !count_app, size_app.
  assert (Hmsize : size (ur_markers r) <= 1 + 2 * b2z (subscribed (ur_journey r)) /\
                   count "cancel_subscription" (ur_markers r) <=
                     b2z (subscribed (ur_journey r)) /\
                   count "active_day_30" (ur_markers r) <=
                     b2z (subscribed (ur_journey r)) /\
                   count "active_day_7" (ur_markers r) <=
                     b2z (activated (ur_journey r)) + b2z (subscribed (ur_journey r))).
  { destruct (owed_start (ur_journey r)) eqn:E.
    - rewrite (owed_start_subscribed _ _ E). cbn [b2z].
      destruct (activated (ur_journey r)); cbn [b2z]; lia.
    - destruct (subscribed (ur_journey r)); cbn [b2z]; lia. }
  destruct (activated (ur_journey r)), (trial_started (ur_journey r)),
    (subscribed (ur_journey r)), (value_moment (ur_journey r));
    cbn [b2z] in *; repeat split; lia.
Qed.

Lemma simulate_user_totals uid w :
  exists r w', runs_as uid w r w' /\ UserTotals r.
Proof.
  destruct (simulate_user_ledger uid w) as (r & w' & Hrun & HOK & HL).
  exists r, w'. split; [exact Hrun|]. eapply UserLedger_totals; eassumption.
Qed.

Lemma chain_totals ids : forall w runs w',
  chain ids w runs w' -> Forall UserTotals runs.
Proof.
  induction ids as [|uid ids IH]; intros w [|r runs] w' H; simpl in H;
    try contradiction.
  - constructor.
  - destruct H as (w1 & Hrun & HOK & Hchain). constructor.
    + eapply UserLedger_totals; [exact HOK|]. eapply runs_as_ledger, Hrun.
    + eapply IH, Hchain.
Qed.

Lemma totals_sum runs :
  Forall UserTotals runs ->
  let evs := flat_map ur_events runs in
  let N := Z.of_nat (List.length runs) in
  count "signup" evs = N /\
  count "email_verified" evs <= N /\
  count "onboarding_complete" evs <= count "onboarding_start" evs /\
  count "onboarding_start" evs <= N /\
  count "invite_teammate" evs + count "connect_integration" evs <=
    count "create_first_project" evs /\
  count "create_first_project" evs <= N /\
  count "subscription_created" evs <= count "trial_start" evs /\
  count "trial_start" evs <= count "checkout_start" evs /\
  count "checkout_start" evs <= 3 * count "trial_start" evs /\
  count "trial_start" evs <= N /\
  count "subscription_created" evs + count "payment_failed" evs <=
    count "checkout_start" evs /\
  Z.of_nat (List.length (flat_map ur_subs runs)) =
    count "subscription_created" evs /\
  count "cancel_subscription" evs <= count "subscription_created" evs /\
  count "active_day_30" evs <= count "subscription_created" evs /\
  count "active_day_7" evs <=
    count "create_first_project" evs + count "subscription_created" evs /\
  2 * N <= size evs /\
  size evs <= 45 * N.
Proof.
  cbv zeta. induction 1 as [|r runs Hr _ IH].
  - cbn [flat_map List.length Z.of_nat]. rewrite !count_nil, size_nil.
    repeat split; lia.
  - cbn [flat_map List.length]. rewrite !count_app, size_app, length_app.
    rewrite Nat2Z.inj_add, Nat2Z.inj_succ.
    unfold UserTotals in Hr. cbv zeta in Hr.
    decompose [and] Hr. decompose [and] IH. clear Hr IH.
    destruct (activated (ur_journey r)), (trial_started (ur_journey r)),
      (subscribed (ur_journey r)), (value_moment (ur_journey r));
      cbn [b2z] in *; repeat split; lia.
Qed.

Lemma generate_data_totals (tape : list Z) :
  exists runs w',
    generate_data (empty_world tape) = Some (tt, w') /\
    events w' = flat_map ur_events runs /\
    subscriptions w' = flat_map ur_subs runs /\
    Z.of_nat (List.length runs) = NUM_USERS /\
    Forall UserTotals runs.
Proof.
  unfold generate_data.
  destruct (generate_users_spec (range 1 (NUM_USERS + 1)) (empty_world tape))
    as (runs & w' & Hrun & Hchain).
  exists runs, w'. split; [exact Hrun|].
  destruct (chain_outputs _ _ _ _ Hchain) as (_ & He & Hs & Hids & _).
  simpl in He, Hs. split; [exact He|]. split; [exact Hs|]. split.
  - rewrite <- (length_map (fun r => user_id (ur_user r))), Hids.
    rewrite range_length; unfold NUM_USERS; lia.
  - eapply chain_totals, Hchain.
Qed.

(* ------------------------------------------------------------------ *)
(** ** Further properties: what one user leaves in the event log *)

(** X15. Every user has exactly one [signup] event; the steps that may
    follow it within the first session happen at most once each, and
    onboarding is never completed without having been started. *)
Theorem one_signup_then_optional_onboarding (uid : Z) (w : World) :
  exists r w',
    runs_as uid w r w' /\
    count "signup" (ur_events r) = 1 /\
    count "email_verified" (ur_events r) <= 1 /\
    count "onboarding_start" (ur_events r) <= 1 /\
    count "onboarding_complete" (ur_events r) <=
      count "onboarding_start" (ur_events r).
Proof.
  destruct (simulate_user_totals uid w) as (r & w' & Hrun & HT).
  exists r, w'. split; [exact Hrun|].
  unfold UserTotals in HT. cbv zeta in HT. decompose [and] HT.
  repeat split; assumption.
Qed.

(** X16. The milestone events of a user mirror the flags the session loop
    ends with: there is one [create_first_project] exactly when the user is
    activated, one [trial_start] exactly when a trial started, one
    [subscription_created] exactly when subscribed, and one value-moment
    event ([invite_teammate] or [connect_integration]) exactly when the
    value moment was reached; none of them ever occurs twice.  A value
    moment needs activation and a subscription needs a trial. *)
Theorem milestone_events_mirror_flags (uid : Z) (w : World) :
  exists r w',
    runs_as uid w r w' /\
    let j := ur_journey r in
    let evs := ur_events r in
    count "create_first_project" evs = b2z (activated j) /\
    count "trial_start" evs = b2z (trial_started j) /\
    count "subscription_created" evs = b2z (subscribed j) /\
    count "invite_teammate" evs + count "connect_integration" evs =
      b2z (value_moment j) /\
    (value_moment j = true -> activated j = true) /\
    (subscribed j = true -> trial_started j = true).
Proof.
  destruct (simulate_user_totals uid w) as (r & w' & Hrun & HT).
  exists r, w'. split; [exact Hrun|]. cbv zeta.
  unfold UserTotals in HT. cbv zeta in HT. decompose [and] HT. clear HT.
  repeat split; try assumption.
  - destruct (value_moment (ur_journey r)), (activated (ur_journey r));
      cbn [b2z] in *; intros; try reflexivity; try discriminate; lia.
  - destruct (subscribed (ur_journey r)), (trial_started (ur_journey r));
      cbn [b2z] in *; intros; try reflexivity; try discriminate; lia.
Qed.

(** X17. Every checkout attempt of a user has at most one outcome: the
    [payment_failed] and [subscription_created] events together never
    outnumber the [checkout_start] events, every trial has at least one
    attempt and at most three. *)
Theorem checkout_outcomes_accounted (uid : Z) (w : World) :
  exists r w',
    runs_as uid w r w' /\
    let evs := ur_events r in
    count "subscription_created" evs + count "payment_failed" evs <=
      count "checkout_start" evs /\
    count "trial_start" evs <= count "checkout_start" evs /\
    count "checkout_start" evs <= 3 * count "trial_start" evs.
Proof.
  destruct (simulate_user_totals uid w) as (r & w' & Hrun & HT).
  exists r, w'. split; [exact Hrun|]. cbv zeta.
  unfold UserTotals in HT. cbv zeta in HT. decompose [and] HT.
  repeat split; assumption.
Qed.

(** X18. A user with [n] sessions leaves at least [n + 1] and at most
    [5 * n + 20] events: every session has an event, the first one also the
    [signup]; so every user has between 2 and 45 events. *)
Theorem events_per_user_bounded (uid : Z) (w : World) :
  exists r w',
    runs_as uid w r w' /\
    let n := Z.of_nat (List.length (ur_sessions r)) in
    n + 1 <= size (ur_events r) <= 5 * n + 20 /\
    2 <= size (ur_events r) <= 45.
Proof.
  destruct (simulate_user_totals uid w) as (r & w' & Hrun & HT).
  exists r, w'. split; [exact Hrun|]. cbv zeta.
  unfold UserTotals in HT. cbv zeta in HT. decompose [and] HT. lia.
Qed.

(** X19. Every session opens on a browsing event stamped with the session
    start, and all its events are stamped less than 570 minutes after the
    start. *)
Theorem session_opens_browsing_within_570_minutes (uid : Z) (w : World) :
  exists r w',
    runs_as uid w r w' /\
    Forall (fun l =>
              (exists e rest,
                  sl_events l = e :: rest /\ event_ts e = sl_start l /\
                  In (event_name e) BROWSING_EVENTS) /\
              Forall (fun e => sl_start l <= event_ts e <
                               sl_start l + minutes 570) (sl_events l))
           (ur_sessions r).
Proof.
  destruct (simulate_user_ledger uid w) as (r & w' & Hrun & _ & HL).
  exists r, w'. split; [exact Hrun|].
  destruct HL as (_ & _ & _ & _ & _ & HS & _).
  eapply Forall_impl; [|exact HS]. cbv beta.
  intros l (Hhead & hi & HC & Hhi). split; [exact Hhead|].
  apply Chrono_Forall in HC. eapply Forall_impl; [|exact HC]. cbv beta.
  intros e (_ & Hlo & Hlt). lia.
Qed.

(** X20. What the resolver appends after the sessions.  For a subscriber:
    one record, then, in this order, [cancel_subscription] at the churn
    time if there is one, [active_day_7] stamped exactly 7 days after the
    subscription start if drawn, and [active_day_30] stamped exactly 30
    days after it if drawn.  For anyone else: no record and at most one
    event, an [active_day_7] stamped between 7 days and 7 days 10 hours
    after signup, and only if the user was activated. *)
Theorem resolver_markers_shape (uid : Z) (w : World) :
  exists r w',
    runs_as uid w r w' /\
    MarkersOK (ur_user r) (ur_journey r) (ur_markers r) (ur_subs r) /\
    count "active_day_7" (ur_events r) <= 1 /\
    count "active_day_30" (ur_events r) <= b2z (subscribed (ur_journey r)) /\
    count "cancel_subscription" (ur_events r) <= b2z (subscribed (ur_journey r)).
Proof.
  destruct (simulate_user_ledger uid w) as (r & w' & Hrun & HOK & HL).
  exists r, w'. split; [exact Hrun|].
  pose proof (UserLedger_totals _ _ HOK HL) as HT.
  destruct HL as (_ & _ & _ & _ & _ & _ & HM). split; [exact HM|].
  unfold UserTotals in HT. cbv zeta in HT. decompose [and] HT.
  repeat split; assumption.
Qed.

(* ------------------------------------------------------------------ *)
(** ** Further properties: the totals of the dataset *)

(** X21. The funnel of the whole dataset narrows step by step: there are
    exactly [NUM_USERS] [signup] events, no more onboarding completions than
    starts, no more value-moment events than first projects, no more
    subscriptions than trials, no more trials than checkout attempts; the
    subscriptions table has exactly as many records as there are
    [subscription_created] events, and cancellations never outnumber
    them. *)
Theorem dataset_funnel_narrows (tape : list Z) :
  exists w',
    generate_data (empty_world tape) = Some (tt, w') /\
    let evs := events w' in
    count "signup" evs = NUM_USERS /\
    count "onboarding_complete" evs <= count "onboarding_start" evs /\
    count "onboarding_start" evs <= NUM_USERS /\
    count "invite_teammate" evs + count "connect_integration" evs <=
      count "create_first_project" evs /\
    count "create_first_project" evs <= NUM_USERS /\
    count "subscription_created" evs <= count "trial_start" evs /\
    count "trial_start" evs <= count "checkout_start" evs /\
    count "trial_start" evs <= NUM_USERS /\
    Z.of_nat (List.length (subscriptions w')) = count "subscription_created" evs /\
    count "cancel_subscription" evs <= count "subscription_created" evs /\
    count "active_day_30" evs <= count "subscription_created" evs.
Proof.
  destruct (generate_data_totals tape) as (runs & w' & Hrun & He & Hs & HN & HT).
  exists w'. split; [exact Hrun|]. cbv zeta. rewrite He, Hs.
  apply totals_sum in HT. cbv zeta in HT. rewrite HN in HT.
  decompose [and] HT. repeat split; assumption.
Qed.

(** X22. The events table holds between 2 and 45 events per user: between
    [2 * NUM_USERS] and [45 * NUM_USERS] rows whatever the draws. *)
Theorem dataset_event_volume (tape : list Z) :
  exists w',
    generate_data (empty_world tape) = Some (tt, w') /\
    2 * NUM_USERS <= size (events w') <= 45 * NUM_USERS.
Proof.
  destruct (generate_data_totals tape) as (runs & w' & Hrun & He & Hs & HN & HT).
  exists w'. split; [exact Hrun|]. rewrite He.
  apply totals_sum in HT. cbv zeta in HT. rewrite HN in HT.
  decompose [and] HT. split; assumption.
Qed.

(* ------------------------------------------------------------------ *)
(** ** Concrete runs *)

(** What a run left in the event log: name, timestamp in minutes, session. *)
Definition digest (res : option (unit * World)) : list (string * Z * string) :=
  match res with
  | Some (_, w) =>
      map (fun e => (event_name e, event_ts e / us_per_minute, session_id e))
        (events w)
  | None => []
  end.

Definition tape_subscriber : list Z :=
  [1000000000; 3; 7; 0; 0; 0; 0; 0; 0; 0; 0; 5;
   12345678901234567890123456789012345678; 0; 1; 99; 4; 77; 2; HI; HI; 0; 5;
   6; 0; 2; 8; 3; HI; 0; 9; 2; 0; 10; 4; HI; 0; 11; 5; HI; 0; 12;
   22345678901234567890123456789012345678; 2; 14; 0;
   32345678901234567890123456789012345678; 16; 0;
   42345678901234567890123456789012345678; 18].

Example run_subscriber :
  digest (simulate_user 1 (empty_world tape_subscriber)) =
    [("pricing_view", -4306, "sess_0949b0f6f0");
     ("signup", -4301, "sess_0949b0f6f0");
     ("create_first_project", -4298, "sess_0949b0f6f0");
     ("project_view", -4290, "sess_0949b0f6f0");
     ("trial_start", -4286, "sess_0949b0f6f0");
     ("checkout_start", -4283, "sess_0949b0f6f0");
     ("subscription_created", -4278, "sess_0949b0f6f0");
     ("cancel_subscription", 56202, "sess_10cf9f07c5");
     ("active_day_7", 5802, "sess_18558d189b");
     ("active_day_30", 38922, "sess_1fdb7b2971")].
Proof. vm_compute. reflexivity. Qed.

Example run_subscriber_record :
  option_map (fun p => subscriptions (snd p))
    (simulate_user 1 (empty_world tape_subscriber)) =
    Some [mkSubscription 1 "starter" 29%Q "" (-256640000000)
            (Some 3372160000000)].
Proof. vm_compute. reflexivity. Qed.

(** With nothing but zeros on the tape the first payment fails and the user
    gives up; the activated non-subscriber gets a day-7 marker. *)
Example run_zero_tape :
  map (fun x => fst (fst x)) (digest (simulate_user 1 (empty_world []))) =
    ["landing_page_view"; "signup"; "email_verified"; "onboarding_start";
     "onboarding_complete"; "create_first_project"; "dashboard_view";
     "invite_teammate"; "trial_start"; "checkout_start"; "payment_failed";
     "dashboard_view"; "active_day_7"].
Proof. vm_compute. reflexivity. Qed.

(** The baseline is the signup timestamp for every session, so a later
    session can start before an earlier one: here the first session starts
    48 hours after signup and the second at signup. *)
Example later_session_may_start_earlier :
  digest (simulate_user 1 (empty_world tape_two_sessions)) =
    [("landing_page_view", 2880, "sess_0949b0f6f0");
     ("signup", 2881, "sess_0949b0f6f0");
     ("landing_page_view", 0, "sess_10cf9f07c5")].
Proof. vm_compute. reflexivity. Qed.

Example pick_plan_solo : pick_plan "solo" = ("starter", 29).
Proof. reflexivity. Qed.

Example pick_plan_2_10 : pick_plan "2-10" = ("pro", 79).
Proof. reflexivity. Qed.

Example pick_plan_11_50 : pick_plan "11-50" = ("pro", 79).
Proof. reflexivity. Qed.

Example pick_plan_51_200 : pick_plan "51-200" = ("business", 199).
Proof. reflexivity. Qed.

Example activation_probability_organic_web :
  activation_probability "organic" "web" "startup_ops" "solo" = Some 0.52%Q.
Proof. reflexivity. Qed.

Example activation_probability_unknown_channel :
  activation_probability "email" "web" "maker" "solo" = None.
Proof. reflexivity. Qed.

(** In double precision the sum 0.28 - 0.05 + 0.01 - 0.02 is not the double
    nearest to 0.22 but the second one above it, 7926335344172075 / 2^55. *)
Example activation_probability_double :
  option_map Binary64.value
    (Binary64.activation_probability "paid_social" "mobile" "analyst" "51-200") =
    Some (7926335344172075 # 36028797018963968) /\
  Binary64.activation_probability "paid_social" "mobile" "analyst" "51-200" <>
    Some (Binary64.literal 0.22).
Proof.
  split; [vm_compute; reflexivity|].
  vm_compute. intros H. discriminate H.
Qed.

(** A negative weight makes [np.random.choice] raise, whatever the draw. *)
Example weighted_choice_negative_weight (w : World) :
  weighted_choice [("a", 1.5%Q); ("b", (- 0.5)%Q)] w = None.
Proof. reflexivity. Qed.

(** An empty range makes [random.randint] raise. *)
Example randint_empty_range (w : World) : randint 0 (-1) w = None.
Proof. reflexivity. Qed.

Example attempt_props_2 :
  attempt_props 2 =
    "{" +++ String dquote "attempt" +++ String dquote ": 2}".
Proof. reflexivity. Qed.

Example td_days_floor : td_days (days 29 + hours 23) = 29.
Proof. reflexivity. Qed.
